(** * PostgreSQL Backup & Restore Tool: the job orchestration core

    A shallow embedding of [src/core/backup.py], [src/core/restore.py],
    [src/core/scheduler.py] and [src/utils/validation.py], and of the
    estimate of the table count of the standalone
    [postgres_backup_restore.py], with the pieces of the Python standard
    library they lean on ([pathlib], [datetime], [re], [_strptime]) and of
    the third-party [croniter].

    Conventions.
    - Text is [string]; a [Path] is the string of the path, with ["/"] as the
      separator.
    - A naive [datetime] is the number of microseconds elapsed since
      0001-01-01 00:00:00 of the proleptic Gregorian calendar.
    - Dictionaries are [gmap]s, except the registry of the scheduler, whose
      order shows in what the code does: it is an association list.  Python
      sets are [gset]s.
    - Whatever the code obtains from outside the process (file system,
      clock, external tools, the database, other tasks that run while a
      coroutine is suspended) is read from an explicit environment record. *)

From Stdlib Require Import ZArith Ascii String List Bool Lia.
From stdpp Require Import base option list gmap strings pretty.

Local Open Scope Z_scope.

(** * Strings *)

Module Str.

(** [s.rfind(c)]: index of the last occurrence of [c] in [s]. *)
Fixpoint rfind (c : ascii) (s : string) : option nat :=
  match s with
  | EmptyString => None
  | String a s' =>
      match rfind c s' with
      | Some i => Some (S i)
      | None => if Ascii.eqb a c then Some O else None
      end
  end.

(** [s[i:]] *)
Fixpoint drop (i : nat) (s : string) : string :=
  match i, s with
  | O, _ => s
  | S i', EmptyString => EmptyString
  | S i', String _ s' => drop i' s'
  end.

(** [s[:i]] *)
Fixpoint take (i : nat) (s : string) : string :=
  match i, s with
  | O, _ => EmptyString
  | S i', EmptyString => EmptyString
  | S i', String a s' => String a (take i' s')
  end.

(** [c in s] *)
Fixpoint mem (c : ascii) (s : string) : bool :=
  match s with
  | EmptyString => false
  | String a s' => Ascii.eqb a c || mem c s'
  end.

(** [s.split(c)[-1]]: what follows the last [c], or all of [s] when [c]
    does not occur (the list [split] returns is never empty). *)
Definition last_field (c : ascii) (s : string) : string :=
  match rfind c s with
  | Some i => drop (S i) s
  | None => s
  end.

(** [s.startswith(p)] *)
Fixpoint startswith (p s : string) : bool :=
  match p, s with
  | EmptyString, _ => true
  | String _ _, EmptyString => false
  | String a p', String b s' => Ascii.eqb a b && startswith p' s'
  end.

(** [sep.join(l)] *)
Fixpoint join (sep : string) (l : list string) : string :=
  match l with
  | [] => ""
  | [x] => x
  | x :: l' => x +:+ sep +:+ join sep l'
  end.

(** [s.count(needle)] for a non-empty [needle]: occurrences that do not
    overlap, scanning from the left. *)
Fixpoint count_go (needle : string) (skip : nat) (s : string) : nat :=
  match s with
  | EmptyString => O
  | String _ s' =>
      match skip with
      | S k => count_go needle k s'
      | O =>
          if startswith needle s
          then S (count_go needle (Nat.pred (String.length needle)) s')
          else count_go needle O s'
      end
  end.

Definition count (needle s : string) : Z := Z.of_nat (count_go needle O s).

(** [s.endswith(p)] *)
Definition endswith (p s : string) : bool :=
  String.eqb (drop (String.length s - String.length p)%nat s) p.

End Str.

(** * pathlib *)

Module Pathlib.

Definition Path := string.

(** [PurePath.name]: the final path component. *)
Definition name (p : Path) : string := Str.last_field "/" p.

(** The directory part kept by [with_suffix], separator included. *)
Definition parent_prefix (p : Path) : string :=
  match Str.rfind "/" p with
  | Some i => Str.take (S i) p
  | None => ""
  end.

(** The index of the dot that starts the suffix of a name:
    [i = name.rfind('.')] when [0 < i < len(name) - 1]. *)
Definition suffix_index (n : string) : option nat :=
  match Str.rfind "." n with
  | Some i =>
      if (Nat.ltb 0 i && Nat.ltb (S i) (String.length n))%bool
      then Some i else None
  | None => None
  end.

(** [PurePath.suffix]: the LAST dot-extension of the name only, [""] when
    there is none. *)
Definition suffix (p : Path) : string :=
  match suffix_index (name p) with
  | Some i => Str.drop i (name p)
  | None => ""
  end.

(** [PurePath.stem]: the name without its last suffix. *)
Definition stem (p : Path) : string :=
  match suffix_index (name p) with
  | Some i => Str.take i (name p)
  | None => name p
  end.

(** [PurePath.with_suffix(s)] for a well-formed [s] and a non-empty name:
    the last suffix is replaced by [s] (appended when there is none). *)
Definition with_suffix (p : Path) (s : string) : Path :=
  parent_prefix p +:+ stem p +:+ s.

(** [dir / file] *)
Definition joinpath (dir : Path) (file : string) : Path :=
  dir +:+ "/" +:+ file.

End Pathlib.

(** * Data model ([src/core/models.py])

    The fields that the embedded code never reads are left out
    ([encryption_key], [verbose], [created_at], [updated_at],
    [size_compressed], [metadata]).  The fields of [RestoreResult] that
    bear the name of a field of [BackupResult] carry the prefix [r_]. *)

Module BackupType.
Inductive t := FULL | INCREMENTAL | DIFFERENTIAL.
Definition value (x : t) : string :=
  match x with
  | FULL => "full" | INCREMENTAL => "incremental"
  | DIFFERENTIAL => "differential"
  end.
End BackupType.

Module CompressionType.
Inductive t := NONE | GZIP | BZIP2 | LZ4.
Definition eqb (a b : t) : bool :=
  match a, b with
  | NONE, NONE | GZIP, GZIP | BZIP2, BZIP2 | LZ4, LZ4 => true
  | _, _ => false
  end.
End CompressionType.

Module EncryptionType.
Inductive t := NONE | AES256.
End EncryptionType.

Module BackupStatus.
Inductive t := PENDING | RUNNING | COMPLETED | FAILED | CANCELLED.
End BackupStatus.

(** A naive [datetime], in microseconds since 0001-01-01 00:00:00. *)
Definition datetime := Z.

Record DatabaseConfig := {
  host : string;
  port : Z;
  database : string;
  username : string;
  password : string;
  ssl_mode : string;
  connection_timeout : Z
}.

Record BackupConfig := {
  backup_type : BackupType.t;
  compression : CompressionType.t;
  encryption : EncryptionType.t;
  parallel_jobs : Z;
  exclude_schemas : list string;
  include_schemas : list string;
  exclude_tables : list string;
  include_tables : list string;
  clean_before_restore : bool;
  no_owner : bool;
  no_privileges : bool
}.

Record BackupJob := {
  id : string;
  name : string;
  source_config : DatabaseConfig;
  backup_config : BackupConfig;
  backup_dir : Pathlib.Path;
  schedule : option string;
  retention_days : Z;
  enabled : bool
}.

Record BackupResult := {
  job_id : string;
  status : BackupStatus.t;
  backup_file : option Pathlib.Path;
  start_time : datetime;
  end_time : option datetime;
  size_bytes : Z;
  tables_count : Z;
  error_message : option string;
  checksum : option string
}.

Record RestoreResult := {
  r_backup_file : Pathlib.Path;
  r_target_config : DatabaseConfig;
  r_status : BackupStatus.t;
  r_start_time : datetime;
  r_end_time : option datetime;
  tables_restored : Z;
  r_error_message : option string;
  verification_passed : bool
}.


(** * The interpreter state shared by the coroutines

    Result objects live in a heap and are passed by reference: the registry
    of active operations and the coroutine that runs an operation hold the
    same object.  Everything observable that the code does to the outside
    (invoking a progress callback, writing a log record, spawning a tool,
    writing an archive, deleting a file) is appended to one event trace. *)

Definition Ref := nat.
Definition Callback := nat.

Module Level.
Inductive t := DEBUG | INFO | WARNING | ERROR.
End Level.

Inductive Event :=
| Call (cb : Callback) (percent : Z) (message : string)
| Log (level : Level.t) (message : string)
| Spawn (cmd : list string)
| Archive (mode : string) (file : Pathlib.Path) (member : Pathlib.Path)
| Unlink (file : Pathlib.Path).

Record World (R : Type) := mkWorld {
  heap : gmap Ref R;
  active : gmap string Ref;       (* active_backups, active_restores *)
  progress_callbacks : gmap string Callback;
  trace : list Event
}.
Arguments mkWorld {R}.
Arguments heap {R}.
Arguments active {R}.
Arguments progress_callbacks {R}.
Arguments trace {R}.

(** The progress callback invocations of a trace, oldest first. *)
Definition calls_of (t : list Event) : list (Callback * Z * string) :=
  omap (fun e => match e with Call cb p m => Some (cb, p, m) | _ => None end) t.

Definition spawned_of (t : list Event) : list (list string) :=
  omap (fun e => match e with Spawn c => Some c | _ => None end) t.

Definition archives_of (t : list Event) : list (string * Pathlib.Path) :=
  omap (fun e => match e with Archive m f _ => Some (m, f) | _ => None end) t.

Definition logs_of (t : list Event) : list (Level.t * string) :=
  omap (fun e => match e with Log l m => Some (l, m) | _ => None end) t.

(** What [BackupResult] and [RestoreResult] have in common. *)
Class OperationResult (R : Type) := {
  get_status : R -> BackupStatus.t;
  get_end_time : R -> option datetime;
  get_error_message : R -> option string;
  set_status : BackupStatus.t -> R -> R;
  set_end_time : datetime -> R -> R;
  set_error_message : string -> R -> R;
  status_set_status : forall s r, get_status (set_status s r) = s;
  status_set_end_time : forall t r, get_status (set_end_time t r) = get_status r;
  status_set_error : forall m r, get_status (set_error_message m r) = get_status r;
  end_time_set_end_time : forall t r, get_end_time (set_end_time t r) = Some t;
  end_time_set_status : forall s r, get_end_time (set_status s r) = get_end_time r;
  error_set_error : forall m r, get_error_message (set_error_message m r) = Some m;
  error_set_end_time :
    forall t r, get_error_message (set_end_time t r) = get_error_message r;
  error_set_status :
    forall s r, get_error_message (set_status s r) = get_error_message r
}.

#[export] Instance BackupResult_op : OperationResult BackupResult := {|
  get_status := status;
  get_end_time := end_time;
  get_error_message := error_message;
  set_status s r :=
    {| job_id := job_id r; status := s; backup_file := backup_file r;
       start_time := start_time r; end_time := end_time r;
       size_bytes := size_bytes r; tables_count := tables_count r;
       error_message := error_message r; checksum := checksum r |};
  set_end_time t r :=
    {| job_id := job_id r; status := status r; backup_file := backup_file r;
       start_time := start_time r; end_time := Some t;
       size_bytes := size_bytes r; tables_count := tables_count r;
       error_message := error_message r; checksum := checksum r |};
  set_error_message m r :=
    {| job_id := job_id r; status := status r; backup_file := backup_file r;
       start_time := start_time r; end_time := end_time r;
       size_bytes := size_bytes r; tables_count := tables_count r;
       error_message := Some m; checksum := checksum r |};
  status_set_status := fun _ _ => eq_refl;
  status_set_end_time := fun _ _ => eq_refl;
  status_set_error := fun _ _ => eq_refl;
  end_time_set_end_time := fun _ _ => eq_refl;
  end_time_set_status := fun _ _ => eq_refl;
  error_set_error := fun _ _ => eq_refl;
  error_set_end_time := fun _ _ => eq_refl;
  error_set_status := fun _ _ => eq_refl
|}.

#[export] Instance RestoreResult_op : OperationResult RestoreResult := {|
  get_status := r_status;
  get_end_time := r_end_time;
  get_error_message := r_error_message;
  set_status s r :=
    {| r_backup_file := r_backup_file r; r_target_config := r_target_config r;
       r_status := s; r_start_time := r_start_time r;
       r_end_time := r_end_time r; tables_restored := tables_restored r;
       r_error_message := r_error_message r;
       verification_passed := verification_passed r |};
  set_end_time t r :=
    {| r_backup_file := r_backup_file r; r_target_config := r_target_config r;
       r_status := r_status r; r_start_time := r_start_time r;
       r_end_time := Some t; tables_restored := tables_restored r;
       r_error_message := r_error_message r;
       verification_passed := verification_passed r |};
  set_error_message m r :=
    {| r_backup_file := r_backup_file r; r_target_config := r_target_config r;
       r_status := r_status r; r_start_time := r_start_time r;
       r_end_time := r_end_time r; tables_restored := tables_restored r;
       r_error_message := Some m;
       verification_passed := verification_passed r |};
  status_set_status := fun _ _ => eq_refl;
  status_set_end_time := fun _ _ => eq_refl;
  status_set_error := fun _ _ => eq_refl;
  end_time_set_end_time := fun _ _ => eq_refl;
  end_time_set_status := fun _ _ => eq_refl;
  error_set_error := fun _ _ => eq_refl;
  error_set_end_time := fun _ _ => eq_refl;
  error_set_status := fun _ _ => eq_refl
|}.

(** * Exceptions and the coroutine monad *)

(** What a [raise] carries.  [except Exception] catches the instances of
    [Exception] only; [asyncio.CancelledError] (Python 3.8 and later, which
    [setup.py] requires), [KeyboardInterrupt], [SystemExit] and
    [GeneratorExit] derive from [BaseException] alone.  [msg] is [str(e)]. *)
Inductive Raised :=
| Exception (msg : string)
| BaseException (msg : string).

Inductive Outcome (A : Type) :=
| Returned (a : A)
| Raises (e : Raised).
Arguments Returned {A}.
Arguments Raises {A}.

Definition M (S A : Type) : Type := S -> S * Outcome A.

Definition ret {S A} (a : A) : M S A := fun w => (w, Returned a).

Definition bind {S A B} (m : M S A) (k : A -> M S B) : M S B :=
  fun w =>
    match m w with
    | (w', Returned a) => k a w'
    | (w', Raises e) => (w', Raises e)
    end.

Definition raise {S A} (e : Raised) : M S A := fun w => (w, Raises e).

Definition lift {S A} (o : Outcome A) : M S A := fun w => (w, o).

Definition modify {S} (f : S -> S) : M S unit := fun w => (f w, Returned tt).

Definition gets {S A} (f : S -> A) : M S A := fun w => (w, Returned (f w)).

(** [try: body  except Exception as e: handler(str(e))] *)
Definition try_except {S A} (body : M S A) (handler : string -> M S A) : M S A :=
  fun w =>
    match body w with
    | (w', Raises (Exception msg)) => handler msg w'
    | r => r
    end.

(** [try: body  finally: cleanup], for a [cleanup] that does not raise. *)
Definition try_finally {S A} (body : M S A) (cleanup : S -> S) : M S A :=
  fun w => let '(w', o) := body w in (cleanup w', o).

#[export] Instance coroutine_ret {S} : MRet (M S) := @ret S.
#[export] Instance coroutine_bind {S} : MBind (M S) :=
  fun A B k m => bind m k.

Definition emit {R} (e : Event) : M (World R) unit :=
  modify (fun w => mkWorld (heap w) (active w) (progress_callbacks w)
                            (trace w ++ [e])).

Definition logger {R} (l : Level.t) (m : string) : M (World R) unit :=
  emit (Log l m).

(** Attribute assignment on a result object held by reference. *)
Definition update {R} (r : Ref) (f : R -> R) : M (World R) unit :=
  modify (fun w => mkWorld (alter f r (heap w)) (active w)
                            (progress_callbacks w) (trace w)).

(** * Operations shared by the two managers *)

(** What another task of the event loop may do to a manager while one of
    its coroutines is suspended in an [await]. *)
Inductive TaskAction :=
| CancelOperation (op_id : string) (now : datetime).

(** An awaited call: what other tasks did meanwhile, and how it came back. *)
Record Await (A : Type) := mkAwait {
  during : list TaskAction;
  outcome : Outcome A
}.
Arguments mkAwait {A}.
Arguments during {A}.
Arguments outcome {A}.

(** One iteration of a monitor's [while process.returncode is None] loop:
    what ran during [await asyncio.sleep(1)], and
    [elapsed = int(time.time() - start_time)] after it. *)
Record Poll := mkPoll {
  during_sleep : list TaskAction;
  elapsed : Z
}.

(** An external process as the manager sees it: the call of
    [create_subprocess_exec], the iterations of the monitor's loop, and the
    way the loop is left, either with the process exited ([returncode],
    [stderr]) or with what the last [sleep] raised. *)
Record ProcessRun := mkProcessRun {
  spawn : Await unit;
  polls : list Poll;
  exit : Outcome (Z * string)
}.

Section Manager.
Context {R : Type} `{OperationResult R}.

(** [BackupManager.cancel_backup] and [RestoreManager.cancel_restore]:
    the two bodies are the same up to the name of the registry. *)
Definition cancel (op_id : string) (now : datetime) : M (World R) bool :=
  fun w =>
    match active w !! op_id with
    | Some r =>
        (mkWorld
           (alter (fun result =>
                     set_end_time now (set_status BackupStatus.CANCELLED result))
                  r (heap w))
           (delete op_id (active w))
           (delete op_id (progress_callbacks w))
           (trace w),
         Returned true)
    | None => (w, Returned false)
    end.

Definition run_action (a : TaskAction) : M (World R) unit :=
  match a with
  | CancelOperation op_id now => cancel op_id now;; mret tt
  end.

Fixpoint interleave (l : list TaskAction) : M (World R) unit :=
  match l with
  | [] => mret tt
  | a :: l' => run_action a;; interleave l'
  end.

Definition await {A} (a : Await A) : M (World R) A :=
  interleave (during a);; lift (outcome a).

(** [if op_id in self.progress_callbacks:
       try: self.progress_callbacks[op_id](percent, message)
       except Exception: pass]
    A callback that raises an [Exception] has been invoked all the same. *)
Definition notify (op_id : string) (percent : Z) (message : string)
  : M (World R) unit :=
  fun w =>
    match progress_callbacks w !! op_id with
    | Some cb => emit (Call cb percent message) w
    | None => (w, Returned tt)
    end.

Fixpoint monitor_loop (assumed_total : Z) (op_id message : string)
         (l : list Poll) : M (World R) unit :=
  match l with
  | [] => mret tt
  | p :: l' =>
      interleave (during_sleep p);;
      notify op_id (Z.min 95 (elapsed p * 100 / assumed_total))
             (message +:+ " (" +:+ pretty (elapsed p) +:+ "s)");;
      monitor_loop assumed_total op_id message l'
  end.

(** [_monitor_backup_process] ([assumed_total = 300]) and
    [_monitor_restore_process] ([assumed_total = 600]).  Returns what the
    caller then reads from the process object. *)
Definition monitor (assumed_total : Z) (run : ProcessRun)
           (op_id message : string) : M (World R) (Z * string) :=
  monitor_loop assumed_total op_id message (polls run);;
  state ← lift (exit run);
  notify op_id 100 (message +:+ " completed");;
  mret state.

(** [result = ...Result(...)]: a new object. *)
Definition new_result (init : R) : M (World R) Ref :=
  fun w =>
    let r := fresh (dom (heap w)) in
    (mkWorld (<[r := init]> (heap w)) (active w) (progress_callbacks w)
             (trace w), Returned r).

(** [self.active_...[op_id] = result
     if progress_callback: self.progress_callbacks[op_id] = progress_callback] *)
Definition register (op_id : string) (r : Ref)
           (progress_callback : option Callback) : M (World R) unit :=
  modify (fun w =>
    mkWorld (heap w) (<[op_id := r]> (active w))
            (match progress_callback with
             | Some cb => <[op_id := cb]> (progress_callbacks w)
             | None => progress_callbacks w
             end)
            (trace w)).

(** The [finally] clause of [create_backup] and [restore_backup]. *)
Definition cleanup (op_id : string) (w : World R) : World R :=
  mkWorld (heap w) (delete op_id (active w))
          (delete op_id (progress_callbacks w)) (trace w).

(** The [except Exception as e] clause of both. *)
Definition on_exception (r : Ref) (now : datetime) (what : string)
           (msg : string) : M (World R) unit :=
  update r (set_status BackupStatus.FAILED);;
  update r (set_error_message msg);;
  update r (set_end_time now);;
  logger Level.ERROR (what +:+ " failed: " +:+ msg).

End Manager.

Definition _monitor_backup_process := monitor (R := BackupResult) 300.
Definition _monitor_restore_process := monitor (R := RestoreResult) 600.
Definition cancel_backup := cancel (R := BackupResult).
Definition cancel_restore := cancel (R := RestoreResult).

(** What a cancel method owes its caller, stated on the worlds before and
    after the call. *)
Definition cancel_contract {R : Type} `{OperationResult R}
           (method : string -> datetime -> M (World R) bool) : Prop :=
  forall (op_id : string) (now : datetime) (w : World R),
    match active w !! op_id with
    | Some r =>
        exists w',
          method op_id now w = (w', Returned true)
          /\ active w' !! op_id = None
          /\ progress_callbacks w' !! op_id = None
          /\ (forall result, heap w !! r = Some result ->
               exists result',
                 heap w' !! r = Some result'
                 /\ get_status result' = BackupStatus.CANCELLED
                 /\ get_end_time result' = Some now)
          /\ (forall other, other <> op_id ->
               active w' !! other = active w !! other
               /\ progress_callbacks w' !! other = progress_callbacks w !! other)
          /\ (forall r', r' <> r -> heap w' !! r' = heap w !! r')
          /\ trace w' = trace w
    | None => method op_id now w = (w, Returned false)
    end.

(** * Backup executor ([src/core/backup.py]) *)

Module Backup.

(** What one execution of [create_backup] obtains from outside. *)
Record Env := mkEnv {
  t_start : datetime;                 (* datetime.now() at entry *)
  t_end : datetime;                   (* datetime.now() when finalised *)
  get_database_info : Await (option Z);
      (* the probe's ["table_count"], [None] for the empty dict *)
  timestamp : string;                 (* now.strftime("%Y%m%d_%H%M%S") *)
  mkdir : Outcome unit;
  temp_dir : Pathlib.Path;            (* tempfile.TemporaryDirectory() *)
  pg_dump : ProcessRun;
  read_stderr : Await unit;           (* await process.stderr.read() *)
  tar_write : Outcome unit;           (* tarfile.open(..., "w...") / add *)
  sha256 : Outcome string;            (* _calculate_checksum *)
  stat_size : Outcome Z               (* backup_file.stat().st_size *)
}.

Definition connection_flags (db : DatabaseConfig) : list string :=
  ["-h" +:+ host db; "-p" +:+ pretty (port db);
   "-U" +:+ username db; "-d" +:+ database db].

Definition structural_flags (config : BackupConfig) : list string :=
  (if clean_before_restore config then ["--clean"] else []) ++
  (if no_owner config then ["--no-owner"] else []) ++
  (if no_privileges config then ["--no-privileges"] else []).

Definition filter_flags (config : BackupConfig) : list string :=
  flat_map (fun schema => ["--exclude-schema"; schema]) (exclude_schemas config) ++
  flat_map (fun schema => ["--schema"; schema]) (include_schemas config) ++
  flat_map (fun table => ["--exclude-table"; table]) (exclude_tables config) ++
  flat_map (fun table => ["--table"; table]) (include_tables config).

Definition _get_backup_file_path (job : BackupJob) (env : Env) : Pathlib.Path :=
  Pathlib.joinpath (backup_dir job) (name job +:+ "_" +:+ timestamp env).

Definition run_pg_dump (cmd : list string) (job : BackupJob) (env : Env)
           (message : string) : M (World BackupResult) unit :=
  emit (Spawn cmd);;
  await (spawn (pg_dump env));;
  state ← _monitor_backup_process (pg_dump env) (id job) message;
  if negb (fst state =? 0) then
    await (read_stderr env);;
    raise (Exception ("pg_dump failed: " +:+ snd state))
  else mret tt.

Definition tar (mode : string) (final_file member : Pathlib.Path) (env : Env)
  : M (World BackupResult) Pathlib.Path :=
  emit (Archive mode final_file member);;
  lift (tar_write env);;
  mret final_file.

Definition _create_parallel_backup (job : BackupJob)
           (backup_file : Pathlib.Path) (env : Env)
  : M (World BackupResult) Pathlib.Path :=
  let config := backup_config job in
  let db_config := source_config job in
  let temp_backup_dir :=
    Pathlib.joinpath (temp_dir env) (Pathlib.stem backup_file +:+ "_dir") in
  let cmd :=
    ["pg_dump"] ++ connection_flags db_config ++
    ["--verbose"; "--format=directory";
     "--jobs=" +:+ pretty (parallel_jobs config);
     "--file"; temp_backup_dir] ++
    structural_flags config ++ filter_flags config in
  run_pg_dump cmd job env "Creating parallel backup";;
  match compression config with
  | CompressionType.GZIP =>
      tar "w:gz" (Pathlib.with_suffix backup_file ".tar.gz") temp_backup_dir env
  | CompressionType.BZIP2 =>
      tar "w:bz2" (Pathlib.with_suffix backup_file ".tar.bz2") temp_backup_dir env
  | _ =>
      tar "w" (Pathlib.with_suffix backup_file ".tar") temp_backup_dir env
  end.

Definition _create_custom_backup (job : BackupJob)
           (backup_file : Pathlib.Path) (env : Env)
  : M (World BackupResult) Pathlib.Path :=
  let config := backup_config job in
  let db_config := source_config job in
  let final_file :=
    match compression config with
    | CompressionType.GZIP => Pathlib.with_suffix backup_file ".dump.gz"
    | CompressionType.BZIP2 => Pathlib.with_suffix backup_file ".dump.bz2"
    | _ => Pathlib.with_suffix backup_file ".dump"
    end in
  let cmd :=
    ["pg_dump"] ++ connection_flags db_config ++
    ["--verbose"; "--format=custom"] ++
    structural_flags config ++ filter_flags config ++
    ["--file"; final_file] in
  run_pg_dump cmd job env "Creating custom backup";;
  mret final_file.

Definition _create_full_backup (job : BackupJob)
           (backup_file : Pathlib.Path) (env : Env)
  : M (World BackupResult) Pathlib.Path :=
  let config := backup_config job in
  if (1 <? parallel_jobs config)
     && negb (CompressionType.eqb (compression config) CompressionType.NONE)
  then _create_parallel_backup job backup_file env
  else _create_custom_backup job backup_file env.

Definition set_tables_count (n : Z) (r : BackupResult) : BackupResult :=
  {| job_id := job_id r; status := status r; backup_file := backup_file r;
     start_time := start_time r; end_time := end_time r;
     size_bytes := size_bytes r; tables_count := n;
     error_message := error_message r; checksum := checksum r |}.

Definition set_backup_file (f : Pathlib.Path) (r : BackupResult) : BackupResult :=
  {| job_id := job_id r; status := status r; backup_file := Some f;
     start_time := start_time r; end_time := end_time r;
     size_bytes := size_bytes r; tables_count := tables_count r;
     error_message := error_message r; checksum := checksum r |}.

Definition set_size_bytes (n : Z) (r : BackupResult) : BackupResult :=
  {| job_id := job_id r; status := status r; backup_file := backup_file r;
     start_time := start_time r; end_time := end_time r;
     size_bytes := n; tables_count := tables_count r;
     error_message := error_message r; checksum := checksum r |}.

Definition set_checksum (c : string) (r : BackupResult) : BackupResult :=
  {| job_id := job_id r; status := status r; backup_file := backup_file r;
     start_time := start_time r; end_time := end_time r;
     size_bytes := size_bytes r; tables_count := tables_count r;
     error_message := error_message r; checksum := Some c |}.

(** The [try] of [create_backup] up to the artifact: the probe of the
    database, the directory, the dump. *)
Definition dump (job : BackupJob) (r : Ref) (env : Env)
  : M (World BackupResult) Pathlib.Path :=
  db_info ← await (get_database_info env);
  let backup_file := _get_backup_file_path job env in
  lift (mkdir env);;
  update r (set_tables_count (default 0 db_info));;
  match backup_type (backup_config job) with
  | BackupType.FULL => _create_full_backup job backup_file env
  | t => raise (Exception ("Backup type " +:+ BackupType.value t
                             +:+ " not yet implemented"))
  end.

(** The body of the [try] of [create_backup].  The [metadata] map of the
    result and the two records of [OperationLogger] (their text holds a
    formatted float) are left out. *)
Definition body (job : BackupJob) (r : Ref) (env : Env)
  : M (World BackupResult) unit :=
  backup_file ← dump job r env;
  checksum ← lift (sha256 env);
  update r (set_status BackupStatus.COMPLETED);;
  update r (set_backup_file backup_file);;
  update r (set_end_time (t_end env));;
  size ← lift (stat_size env);
  update r (set_size_bytes size);;
  update r (set_checksum checksum);;
  logger Level.INFO ("Backup completed: " +:+ backup_file +:+ " ("
                       +:+ pretty size +:+ " bytes)").

(** The statements of [create_backup] that precede its [try]. *)
Definition start (job : BackupJob) (progress_callback : option Callback)
           (env : Env) : M (World BackupResult) Ref :=
  result ← new_result
    {| job_id := id job; status := BackupStatus.RUNNING;
       backup_file := None; start_time := t_start env; end_time := None;
       size_bytes := 0; tables_count := 0; error_message := None;
       checksum := None |};
  register (id job) result progress_callback;;
  mret result.

Definition create_backup (job : BackupJob)
           (progress_callback : option Callback) (env : Env)
  : M (World BackupResult) Ref :=
  result ← start job progress_callback env;
  try_finally
    (try_except (body job result env)
                (on_exception result (t_end env) "Backup"))
    (cleanup (id job));;
  mret result.

End Backup.

(** * Restore executor ([src/core/restore.py]) *)

Module Restore.

(** A member of a tar archive: its name, and [extractfile(m).read()]
    decoded, when that works. *)
Record TarMember := mkTarMember {
  member_name : string;
  member_text : Outcome string
}.

(** What one execution of [restore_backup] obtains from outside. *)
Record Env := mkEnv {
  t_start : datetime;
  t_end : datetime;
  time_time : Z;                          (* int(time.time()) *)
  file_exists : Outcome bool;             (* backup_file.exists() *)
  file_stat : Outcome unit;               (* backup_file.stat() *)
  pg_restore_list_check : Await Z;        (* pg_restore --list: returncode *)
  pg_restore_list_info : Await (Z * string);  (* again: returncode, stdout *)
  tar_getmembers : Outcome (list TarMember);  (* tarfile.open(f, 'r:*') *)
  gzip_read_1k : Outcome unit;            (* gzip.open(f, 'rt').read(1024) *)
  open_read_1k : Outcome unit;            (* open(f, 'r').read(1024) *)
  gzip_read_10k : Outcome string;
  open_read_10k : Outcome string;
  database_exists : Await bool;
  drop_database : Await bool;
  create_database : Await bool;
  pg_restore : ProcessRun;
  read_stderr : Await unit;
  tar_extractall : Outcome (list Pathlib.Path);  (* then the extracted dirs *)
  gunzip : Await (Z * string);            (* gunzip -c: returncode, stdout *)
  open_rb : Outcome unit;                 (* open(f, 'rb') *)
  psql_spawn : Await unit;
  psql_communicate : Await (Z * string);  (* returncode, stderr *)
  get_database_info : Await (option Z)    (* ["table_count"], None for {} *)
}.

(** The keys of the [backup_info] dictionary that the executor reads. *)
Record BackupInfo := mkInfo {
  format : option string;
  info_tables_count : option Z
}.

Definition custom_suffixes : list string := [".dump"; ".dump.gz"; ".dump.bz2"].
Definition tar_suffixes : list string := [".tar"; ".tar.gz"; ".tar.bz2"].
Definition sql_suffixes : list string := [".sql"; ".sql.gz"].

(** [x in l] on a list of strings. *)
Definition member (x : string) (l : list string) : bool :=
  existsb (String.eqb x) l.

(** Whether the [try] of a bare [except:] came through. *)
Definition succeeded {A} (o : Outcome A) : bool :=
  match o with
  | Returned _ => true
  | Raises _ => false
  end.

Definition _verify_backup_file (backup_file : Pathlib.Path) (env : Env)
  : M (World RestoreResult) bool :=
  try_except
    (present ← lift (file_exists env);
     if negb present then mret false
     else if member (Pathlib.suffix backup_file) custom_suffixes then
       emit (Spawn ["pg_restore"; "--list"; backup_file]);;
       returncode ← await (pg_restore_list_check env);
       mret (returncode =? 0)
     else if member (Pathlib.suffix backup_file) tar_suffixes then
       mret (succeeded (tar_getmembers env))
     else if member (Pathlib.suffix backup_file) sql_suffixes then
       if String.eqb (Pathlib.suffix backup_file) ".sql.gz"
       then mret (succeeded (gzip_read_1k env))
       else mret (succeeded (open_read_1k env))
     else mret false)
    (fun msg =>
       logger Level.ERROR ("Error verifying backup " +:+ backup_file
                             +:+ ": " +:+ msg);;
       mret false).

(** The awaits of this helper sit in a [try] with a bare [except:]. *)
Definition _get_custom_backup_info (backup_file : Pathlib.Path) (env : Env)
  : M (World RestoreResult) BackupInfo :=
  emit (Spawn ["pg_restore"; "--list"; backup_file]);;
  interleave (during (pg_restore_list_info env));;
  match outcome (pg_restore_list_info env) with
  | Returned (returncode, content) =>
      if returncode =? 0
      then mret (mkInfo (Some "custom") (Some (Str.count "TABLE" content)))
      else mret (mkInfo (Some "custom") None)
  | Raises _ => mret (mkInfo (Some "custom") None)
  end.

(** [table_count] of [_get_tar_backup_info]: the first member named
    [...toc.dat] that can be read decides. *)
Fixpoint toc_table_count (members : list TarMember) : Z :=
  match members with
  | [] => 0
  | m :: rest =>
      if Str.endswith "toc.dat" (member_name m) then
        match member_text m with
        | Returned content => Str.count "TABLE" content
        | Raises _ => toc_table_count rest
        end
      else toc_table_count rest
  end.

Definition _get_tar_backup_info (env : Env) : BackupInfo :=
  match tar_getmembers env with
  | Returned members => mkInfo (Some "directory") (Some (toc_table_count members))
  | Raises _ => mkInfo (Some "directory") None
  end.

Definition _get_sql_backup_info (backup_file : Pathlib.Path) (env : Env)
  : BackupInfo :=
  match (if String.eqb (Pathlib.suffix backup_file) ".sql.gz"
         then gzip_read_10k env else open_read_10k env) with
  | Returned content => mkInfo (Some "sql") (Some (Str.count "CREATE TABLE" content))
  | Raises _ => mkInfo (Some "sql") None
  end.

Definition _get_backup_info (backup_file : Pathlib.Path) (env : Env)
  : M (World RestoreResult) BackupInfo :=
  try_except
    (lift (file_stat env);;
     if member (Pathlib.suffix backup_file) custom_suffixes then
       _get_custom_backup_info backup_file env
     else if member (Pathlib.suffix backup_file) tar_suffixes then
       mret (_get_tar_backup_info env)
     else if member (Pathlib.suffix backup_file) sql_suffixes then
       mret (_get_sql_backup_info backup_file env)
     else mret (mkInfo None None))
    (fun msg =>
       logger Level.ERROR ("Error getting backup info " +:+ backup_file
                             +:+ ": " +:+ msg);;
       mret (mkInfo (Some "unknown") None)).

Definition _handle_existing_database (target_config : DatabaseConfig)
           (env : Env) : M (World RestoreResult) bool :=
  logger Level.WARNING ("Database " +:+ database target_config
                          +:+ " already exists, dropping it");;
  await (drop_database env).

Definition pg_restore_flags (target_config : DatabaseConfig) : list string :=
  ["pg_restore"; "-h" +:+ host target_config;
   "-p" +:+ pretty (port target_config);
   "-U" +:+ username target_config; "-d" +:+ database target_config;
   "--verbose"; "--clean"; "--no-owner"; "--no-privileges"].

Definition run_pg_restore (cmd : list string) (restore_id message : string)
           (env : Env) : M (World RestoreResult) unit :=
  emit (Spawn cmd);;
  await (spawn (pg_restore env));;
  state ← _monitor_restore_process (pg_restore env) restore_id message;
  if negb (fst state =? 0) then
    await (read_stderr env);;
    raise (Exception ("pg_restore failed: " +:+ snd state))
  else mret tt.

Definition _restore_custom_format (backup_file : Pathlib.Path)
           (target_config : DatabaseConfig) (restore_id : string) (env : Env)
  : M (World RestoreResult) unit :=
  run_pg_restore (pg_restore_flags target_config ++ [backup_file])
                 restore_id "Restoring custom format backup" env.

Definition _restore_directory_format (backup_file : Pathlib.Path)
           (target_config : DatabaseConfig) (restore_id : string) (env : Env)
  : M (World RestoreResult) unit :=
  extracted_dirs ← lift (tar_extractall env);
  match extracted_dirs with
  | [] => raise (Exception "No backup directory found in archive")
  | backup_dir :: _ =>
      run_pg_restore
        (pg_restore_flags target_config ++ ["--jobs=4"; backup_dir])
        restore_id "Restoring directory format backup" env
  end.

Definition _restore_sql_format (backup_file : Pathlib.Path)
           (target_config : DatabaseConfig) (restore_id : string) (env : Env)
  : M (World RestoreResult) unit :=
  let cmd :=
    ["psql"; "-h" +:+ host target_config;
     "-p" +:+ pretty (port target_config);
     "-U" +:+ username target_config; "-d" +:+ database target_config;
     "--verbose"] in
  state ←
    (if String.eqb (Pathlib.suffix backup_file) ".sql.gz" then
       emit (Spawn ["gunzip"; "-c"; backup_file]);;
       unzipped ← await (gunzip env);
       if negb (fst unzipped =? 0)
       then raise (Exception "Failed to decompress SQL file")
       else
         emit (Spawn cmd);;
         await (psql_spawn env);;
         await (psql_communicate env)
     else
       lift (open_rb env);;
       emit (Spawn cmd);;
       await (psql_spawn env);;
       await (psql_communicate env));
  (* the process has exited: the monitor's loop is not entered *)
  _monitor_restore_process
    (mkProcessRun (psql_spawn env) [] (Returned state))
    restore_id "Restoring SQL backup";;
  if negb (fst state =? 0)
  then raise (Exception ("psql failed: " +:+ snd state))
  else mret tt.

(** [current_tables < backup_tables * 0.9], a comparison of an [int] with
    a [float] product; on counts below 10^14 it agrees with the exact
    comparison of [10 * current_tables] with [9 * backup_tables]. *)
Definition below_tolerance (current_tables backup_tables : Z) : bool :=
  10 * current_tables <? 9 * backup_tables.

Definition _verify_restoration (backup_info : BackupInfo) (env : Env)
  : M (World RestoreResult) bool :=
  try_except
    (db_info ← await (get_database_info env);
     match db_info with
     | None => mret false                     (* if not db_info *)
     | Some current_tables =>
         let backup_tables := default 0 (info_tables_count backup_info) in
         (if (0 <? backup_tables)
             && below_tolerance current_tables backup_tables
          then logger Level.WARNING
                 ("Table count mismatch: expected " +:+ pretty backup_tables
                    +:+ ", got " +:+ pretty current_tables)
          else mret tt);;
         mret true
     end)
    (fun msg =>
       logger Level.ERROR ("Error verifying restoration: " +:+ msg);;
       mret false).

Definition finish (verified : bool) (tables : Z) (now : datetime)
           (r : RestoreResult) : RestoreResult :=
  {| r_backup_file := r_backup_file r; r_target_config := r_target_config r;
     r_status := BackupStatus.COMPLETED; r_start_time := r_start_time r;
     r_end_time := Some now; tables_restored := tables;
     r_error_message := r_error_message r;
     verification_passed := verified |}.

(** The dispatch on [backup_info.get("format")]. *)
Definition dispatch (backup_info : BackupInfo) (backup_file : Pathlib.Path)
           (target_config : DatabaseConfig) (restore_id : string) (env : Env)
  : M (World RestoreResult) unit :=
  match format backup_info with
  | Some f =>
      if String.eqb f "custom" then
        _restore_custom_format backup_file target_config restore_id env
      else if String.eqb f "directory" then
        _restore_directory_format backup_file target_config restore_id env
      else if String.eqb f "sql" then
        _restore_sql_format backup_file target_config restore_id env
      else raise (Exception ("Unsupported backup format: " +:+ f))
  | None => raise (Exception "Unsupported backup format: None")
  end.

(** The [try] of [restore_backup] up to the verification of the outcome:
    it hands over the [backup_info] it worked with. *)
Definition restore (backup_file : Pathlib.Path) (target_config : DatabaseConfig)
           (restore_id : string) (env : Env)
  : M (World RestoreResult) BackupInfo :=
  verified ← _verify_backup_file backup_file env;
  (if negb verified
   then raise (Exception ("Backup file verification failed: " +:+ backup_file))
   else mret tt);;
  backup_info ← _get_backup_info backup_file env;
  present ← await (database_exists env);
  (if (present : bool) then
     dropped ← _handle_existing_database target_config env;
     if negb dropped then raise (Exception "Restore cancelled by user")
     else mret tt
   else mret tt : M (World RestoreResult) unit);;
  created ← await (create_database env);
  (if negb created
   then raise (Exception ("Failed to create database: "
                            +:+ database target_config))
   else mret tt);;
  dispatch backup_info backup_file target_config restore_id env;;
  mret backup_info.

(** The body of the [try] of [restore_backup]; the two records of
    [OperationLogger] are left out. *)
Definition body (backup_file : Pathlib.Path) (target_config : DatabaseConfig)
           (restore_id : string) (r : Ref) (env : Env)
  : M (World RestoreResult) unit :=
  backup_info ← restore backup_file target_config restore_id env;
  verification_passed ← _verify_restoration backup_info env;
  update r (finish verification_passed
                   (default 0 (info_tables_count backup_info)) (t_end env));;
  logger Level.INFO ("Restore completed: " +:+ database target_config).

Definition restore_id_of (env : Env) : string :=
  "restore_" +:+ pretty (time_time env).

(** The statements of [restore_backup] that precede its [try]. *)
Definition start (backup_file : Pathlib.Path) (target_config : DatabaseConfig)
           (progress_callback : option Callback) (env : Env)
  : M (World RestoreResult) Ref :=
  result ← new_result
    {| r_backup_file := backup_file; r_target_config := target_config;
       r_status := BackupStatus.RUNNING; r_start_time := t_start env;
       r_end_time := None; tables_restored := 0; r_error_message := None;
       verification_passed := false |};
  register (restore_id_of env) result progress_callback;;
  mret result.

Definition restore_backup (backup_file : Pathlib.Path)
           (target_config : DatabaseConfig)
           (progress_callback : option Callback) (env : Env)
  : M (World RestoreResult) Ref :=
  result ← start backup_file target_config progress_callback env;
  try_finally
    (try_except
       (body backup_file target_config (restore_id_of env) result env)
       (on_exception result (t_end env) "Restore"))
    (cleanup (restore_id_of env));;
  mret result.

End Restore.

(** * datetime *)

Module Datetime.

Definition second : Z := 1000000.
Definition day : Z := 86400 * second.

Definition _is_leap (year : Z) : bool :=
  (year mod 4 =? 0) && (negb (year mod 100 =? 0) || (year mod 400 =? 0)).

Definition _days_before_year (year : Z) : Z :=
  let y := year - 1 in y * 365 + y / 4 - y / 100 + y / 400.

Definition _DAYS_IN_MONTH : list Z :=
  [31; 28; 31; 30; 31; 30; 31; 31; 30; 31; 30; 31].

Definition _days_in_month (year month : Z) : Z :=
  if (month =? 2) && _is_leap year then 29
  else nth (Z.to_nat (month - 1)) _DAYS_IN_MONTH 0.

Definition _days_before_month (year month : Z) : Z :=
  fold_right Z.add 0 (firstn (Z.to_nat (month - 1)) _DAYS_IN_MONTH)
  + (if (2 <? month) && _is_leap year then 1 else 0).

Definition _ymd2ord (year month day : Z) : Z :=
  _days_before_year year + _days_before_month year month + day.

Definition between (lo x hi : Z) : bool := (lo <=? x) && (x <=? hi).

(** [datetime(year, month, day, hour, minute, second)]; [None] stands for
    the [ValueError] of a field out of range. *)
Definition make (year month day hour minute sec : Z) : option datetime :=
  if between 1 year 9999 && between 1 month 12
     && between 1 day (_days_in_month year month)
     && between 0 hour 23 && between 0 minute 59 && between 0 sec 59
  then Some ((_ymd2ord year month day - 1) * Datetime.day
             + (hour * 3600 + minute * 60 + sec) * second)
  else None.

(** [timedelta(days=n)] *)
Definition timedelta_days (n : Z) : Z := n * Datetime.day.

End Datetime.

(** * _strptime *)

Module Strptime.

Definition CharClass := ascii -> bool.

(** [[lo-hi]] on decimal digits *)
Definition digits (lo hi : nat) : CharClass :=
  fun c => (Nat.leb (48 + lo) (nat_of_ascii c)
            && Nat.leb (nat_of_ascii c) (48 + hi))%bool.

Definition d : CharClass := digits 0 9.           (* \d, on ASCII text *)
Definition lit (a : ascii) : CharClass := Ascii.eqb a.

(** A directive compiles to alternatives tried from left to right, each a
    sequence of character classes. *)
Definition Directive := list (list CharClass).

Definition directive_Y : Directive := [[d; d; d; d]].
Definition directive_m : Directive :=
  [[lit "1"; digits 0 2]; [lit "0"; digits 1 9]; [digits 1 9]].
Definition directive_d : Directive :=
  [[lit "3"; digits 0 1]; [digits 1 2; d]; [lit "0"; digits 1 9];
   [digits 1 9]; [lit " "; digits 1 9]].
Definition directive_H : Directive :=
  [[lit "2"; digits 0 3]; [digits 0 1; d]; [d]].
Definition directive_M : Directive := [[digits 0 5; d]; [d]].
Definition directive_S : Directive :=
  [[lit "6"; digits 0 1]; [digits 0 5; d]; [d]].
Definition literal (a : ascii) : Directive := [[lit a]].

(** The regular expression of ["%Y%m%d_%H%M%S"]. *)
Definition format_regex : list Directive :=
  [directive_Y; directive_m; directive_d; literal "_";
   directive_H; directive_M; directive_S].

Fixpoint match_classes (cs : list CharClass) (s : list ascii)
  : option (list ascii * list ascii) :=
  match cs, s with
  | [], _ => Some ([], s)
  | _ :: _, [] => None
  | c :: cs', a :: s' =>
      if c a then
        match match_classes cs' s' with
        | Some (m, rest) => Some (a :: m, rest)
        | None => None
        end
      else None
  end.

Definition match_directive (dir : Directive) (s : list ascii)
  : list (list ascii * list ascii) :=
  omap (fun alt => match_classes alt s) dir.

(** All the ways the backtracking matcher can match a prefix of [s], in
    the order in which it tries them: the groups and what is left. *)
Fixpoint matches (ds : list Directive) (s : list ascii)
  : list (list (list ascii) * list ascii) :=
  match ds with
  | [] => [([], s)]
  | dir :: ds' =>
      flat_map
        (fun '(m, rest) =>
           map (fun '(ms, rest') => (m :: ms, rest')) (matches ds' rest))
        (match_directive dir s)
  end.

(** [format_regex.match(data_string)] *)
Definition regex_match (ds : list Directive) (s : list ascii)
  : option (list (list ascii) * list ascii) :=
  head (matches ds s).

(** [int(text)] on a group of the expression: digits, maybe after a space. *)
Definition int (text : list ascii) : Z :=
  fold_left
    (fun acc c => if d c then acc * 10 + Z.of_nat (nat_of_ascii c - 48) else acc)
    text 0.

(** [datetime.strptime(data_string, "%Y%m%d_%H%M%S")]; [None] stands for
    [ValueError]. *)
Definition strptime (data_string : string) : option datetime :=
  match regex_match format_regex (list_ascii_of_string data_string) with
  | Some ([gY; gm; gd; _; gH; gM; gS], []) =>
      Datetime.make (int gY) (int gm) (int gd) (int gH) (int gM) (int gS)
  | Some (_, _ :: _) => None          (* unconverted data remains *)
  | _ => None                         (* does not match the format *)
  end.

End Strptime.

(** * croniter *)

Module Croniter.

(** [int(text)] for a run of decimal digits, [None] otherwise. *)
Definition number (text : string) : option Z :=
  match text with
  | EmptyString => None
  | _ =>
      if forallb Strptime.d (list_ascii_of_string text)
      then Some (Strptime.int (list_ascii_of_string text))
      else None
  end.

(** The third-party [croniter(expr, now).get_next(datetime)], for the
    daily expressions ["M H * * *"]: the first instant strictly after
    [now] whose time of day is [H:M:00].  [None] stands for the exception
    that an expression croniter rejects raises; expressions of any other
    shape are outside this model and are treated alike. *)
Definition get_next (expr : string) (now : datetime) : option datetime :=
  match String.words expr with
  | [minute; hour; "*"; "*"; "*"] =>
      match number minute, number hour with
      | Some m, Some h =>
          if Datetime.between 0 m 59 && Datetime.between 0 h 23 then
            let today := now / Datetime.day * Datetime.day in
            let fire := today + (h * 3600 + m * 60) * Datetime.second in
            Some (if now <? fire then fire else fire + Datetime.day)
          else None
      | _, _ => None
      end
  | _ => None
  end.

End Croniter.

(** * Scheduler ([src/core/scheduler.py]) *)

Module Scheduler.

Section DueCheck.
(** [croniter(schedule, now).get_next(datetime)] *)
Variable croniter_get_next : string -> datetime -> option datetime.

(** [0 <= (next_run - now).total_seconds() <= 60] *)
Definition within_next_minute (now next_run : datetime) : bool :=
  (0 <=? next_run - now) && (next_run - now <=? 60 * Datetime.second).

Definition _should_run_job (job : BackupJob) (now : datetime) : bool :=
  match schedule job with
  | None => false
  | Some "" => false
  | Some expr =>
      match croniter_get_next expr now with
      | Some next_run => within_next_minute now next_run
      | None => false         (* except Exception: return False *)
      end
  end.
End DueCheck.

(** An entry of the job's backup directory; [unlink] raises on an entry
    that is not a file. *)
Record DirEntry := mkEntry {
  entry_name : string;
  is_file : bool
}.

Record Directory := mkDirectory {
  present : bool;                    (* backup_dir.exists() *)
  entries : list DirEntry;           (* in the order glob yields them *)
  dir_trace : list Event
}.

Definition dir_emit (e : Event) : M Directory unit :=
  modify (fun fs => mkDirectory (present fs) (entries fs) (dir_trace fs ++ [e])).

Definition unlink (backup_dir : Pathlib.Path) (e : DirEntry) : M Directory unit :=
  if is_file e then
    modify (fun fs =>
      mkDirectory (present fs)
        (List.filter (fun e' => negb (String.eqb (entry_name e') (entry_name e)))
                (entries fs))
        (dir_trace fs));;
    dir_emit (Unlink (Pathlib.joinpath backup_dir (entry_name e)))
  else raise (Exception ("[Errno 21] Is a directory: "
                           +:+ Pathlib.joinpath backup_dir (entry_name e))).

(** [backup_dir.glob(f"{job.name}_*")], for a job name free of the
    characters that glob interprets. *)
Definition glob (job_name : string) (l : list DirEntry) : list DirEntry :=
  List.filter (fun e => Str.startswith (job_name +:+ "_") (entry_name e)) l.

(** The [for] loop of [_handle_retention]. *)
Fixpoint sweep (backup_dir : Pathlib.Path) (cutoff_date : datetime)
         (files : list DirEntry) : M Directory unit :=
  match files with
  | [] => mret tt
  | backup_file :: rest =>
      let timestamp_str :=
        Str.last_field "_" (Pathlib.stem (entry_name backup_file)) in
      match Strptime.strptime timestamp_str with
      | Some file_date =>
          (if file_date <? cutoff_date then
             unlink backup_dir backup_file;;
             dir_emit (Log Level.INFO
                         ("Deleted old backup: "
                            +:+ Pathlib.joinpath backup_dir (entry_name backup_file)))
           else mret tt);;
          sweep backup_dir cutoff_date rest
      | None => sweep backup_dir cutoff_date rest   (* except ValueError: continue *)
      end
  end.

Definition _handle_retention (job : BackupJob) (now : datetime)
  : M Directory unit :=
  try_except
    (there ← gets present;
     if negb there then mret tt
     else
       let cutoff_date := now - Datetime.timedelta_days (retention_days job) in
       files ← gets (fun fs => glob (name job) (entries fs));
       sweep (backup_dir job) cutoff_date files)
    (fun msg =>
       dir_emit (Log Level.ERROR
                   ("Error handling retention for job " +:+ name job
                      +:+ ": " +:+ msg))).

End Scheduler.

(** * Validation ([src/utils/validation.py]) *)

Module Validation.

Definition is_letter_or_underscore (c : ascii) : bool :=
  let n := nat_of_ascii c in
  (Nat.leb 97 n && Nat.leb n 122) || (Nat.leb 65 n && Nat.leb n 90)
  || Nat.eqb n 95.

Definition is_word_char (c : ascii) : bool :=
  is_letter_or_underscore c || Strptime.d c.

(** An identifier: a letter or underscore, then letters, digits and
    underscores, over the whole of [s]. *)
Definition is_identifier (s : list ascii) : bool :=
  match s with
  | [] => false
  | c :: s' => is_letter_or_underscore c && forallb is_word_char s'
  end.

(** [$] matches at the end of the text and also just before a newline
    that ends it. *)
Definition drop_final_newline (s : list ascii) : list ascii :=
  match rev s with
  | c :: r => if Ascii.eqb c "010" then rev r else s
  | [] => s
  end.

(** [re.match] against the schema pattern: one identifier up to [$]. *)
Definition match_schema_name (s : string) : bool :=
  is_identifier (drop_final_newline (list_ascii_of_string s)).

(** What precedes the first [c], and what follows it. *)
Fixpoint split_at (c : ascii) (s : list ascii)
  : list ascii * option (list ascii) :=
  match s with
  | [] => ([], None)
  | a :: s' =>
      if Ascii.eqb a c then ([], Some s')
      else let '(before, after) := split_at c s' in (a :: before, after)
  end.

(** [re.match] against the table pattern: an identifier, optionally
    followed by a dot and a second identifier, up to [$]. *)
Definition match_table_name (s : string) : bool :=
  match split_at "." (drop_final_newline (list_ascii_of_string s)) with
  | (before, None) => is_identifier before
  | (before, Some after) => is_identifier before && is_identifier after
  end.

(** [for x in names: if not re.match(...): errors.append(prefix + x)] *)
Definition invalid_names (ok : string -> bool) (prefix : string)
           (names : list string) : list string :=
  map (fun x => prefix +:+ x) (List.filter (fun x => negb (ok x)) names).

(** [set(excluded) & set(included)] *)
Definition conflicts (excluded included : list string) : gset string :=
  list_to_set excluded ∩ list_to_set included.

Definition is_nil {A} (l : list A) : bool :=
  match l with [] => true | _ => false end.

(** [if excluded and included:
       conflicts = set(excluded) & set(included)
       if conflicts: errors.append(prefix + ', '.join(conflicts))]
    Python leaves the order in which a set is iterated unspecified;
    here it is the order of [elements]. *)
Definition conflict_errors (prefix : string) (excluded included : list string)
  : list string :=
  if negb (is_nil excluded) && negb (is_nil included) then
    if negb (is_nil (elements (conflicts excluded included)))
    then [prefix +:+ Str.join ", " (elements (conflicts excluded included))]
    else []
  else [].

Definition validate_backup_config (config : BackupConfig) : list string :=
  (if negb (Datetime.between 1 (parallel_jobs config) 32)
   then ["Parallel jobs must be between 1 and 32"] else [])
  ++ invalid_names match_schema_name "Invalid schema name in exclude_schemas: "
                   (exclude_schemas config)
  ++ invalid_names match_schema_name "Invalid schema name in include_schemas: "
                   (include_schemas config)
  ++ invalid_names match_table_name "Invalid table name in exclude_tables: "
                   (exclude_tables config)
  ++ invalid_names match_table_name "Invalid table name in include_tables: "
                   (include_tables config)
  ++ conflict_errors "Schemas cannot be both included and excluded: "
                     (exclude_schemas config) (include_schemas config)
  ++ conflict_errors "Tables cannot be both included and excluded: "
                     (exclude_tables config) (include_tables config).

End Validation.


(** * Backup executor: inspection of an artifact ([src/core/backup.py]) *)

Module BackupFiles.

(** What [verify_backup] obtains from outside. *)
Record Env := mkEnv {
  file_exists : Outcome bool;             (* backup_file.exists() *)
  pg_restore_list_check : Await Z;        (* pg_restore --list: returncode *)
  tar_getmembers : Outcome unit;          (* tarfile.open(f, 'r:*').getmembers() *)
  gzip_read_1k : Outcome unit;            (* gzip.open(f, 'rt').read(1024) *)
  open_read_1k : Outcome unit             (* open(f, 'r').read(1024) *)
}.

(** [BackupManager.verify_backup] *)
Definition verify_backup (backup_file : Pathlib.Path) (env : Env)
  : M (World BackupResult) bool :=
  try_except
    (present ← lift (file_exists env);
     if negb present then mret false
     else if Restore.member (Pathlib.suffix backup_file) Restore.custom_suffixes then
       emit (Spawn ["pg_restore"; "--list"; backup_file]);;
       returncode ← await (pg_restore_list_check env);
       mret (returncode =? 0)
     else if Restore.member (Pathlib.suffix backup_file) Restore.tar_suffixes then
       mret (Restore.succeeded (tar_getmembers env))
     else if Restore.member (Pathlib.suffix backup_file) Restore.sql_suffixes then
       if String.eqb (Pathlib.suffix backup_file) ".sql.gz"
       then mret (Restore.succeeded (gzip_read_1k env))
       else mret (Restore.succeeded (open_read_1k env))
     else mret false)
    (fun msg =>
       logger Level.ERROR ("Error verifying backup " +:+ backup_file
                             +:+ ": " +:+ msg);;
       mret false).

End BackupFiles.

(** * Scheduler: the registry of jobs and the history of runs
      ([src/core/scheduler.py])

    The scheduler holds the backup manager, a dictionary of job objects
    by id and the list of the result objects of past runs.  A job object
    sits in the dictionary under its own id, and the code assigns to it
    there only ([enable_job], [disable_job]): jobs are values here.  The
    records written to the logger of the module are left out. *)

Module BackupScheduler.

(** [l[-n:]]: the slice starts at [len(l) - n], or at 0 when that is
    negative, for [n > 0]; [l[-0:]] is [l[0:]]; for [n < 0] the slice
    starts at [-n]. *)
Definition last_n {A} (n : Z) (l : list A) : list A :=
  if 0 <? n then drop (length l - Z.to_nat n) l
  else drop (Z.to_nat (- n)) l.

(** A [dict] with string keys, in insertion order. *)
Definition Dict (V : Type) := list (string * V).

(** [d.get(k)] *)
Fixpoint getitem {V} (k : string) (d : Dict V) : option V :=
  match d with
  | [] => None
  | (k', v) :: d' => if String.eqb k' k then Some v else getitem k d'
  end.

(** [d[k] = v]: a key that is present keeps its place. *)
Fixpoint setitem {V} (k : string) (v : V) (d : Dict V) : Dict V :=
  match d with
  | [] => [(k, v)]
  | (k', v') :: d' =>
      if String.eqb k' k then (k, v) :: d' else (k', v') :: setitem k v d'
  end.

(** [del d[k]] *)
Definition delitem {V} (k : string) (d : Dict V) : Dict V :=
  List.filter (fun kv => negb (String.eqb kv.1 k)) d.

(** [d[k].attr = ...] *)
Fixpoint alteritem {V} (f : V -> V) (k : string) (d : Dict V) : Dict V :=
  match d with
  | [] => []
  | (k', v') :: d' =>
      if String.eqb k' k then (k', f v') :: d' else (k', v') :: alteritem f k d'
  end.

(** [list(d.values())] *)
Definition values {V} (d : Dict V) : list V := map snd d.

Definition max_history : Z := 1000.

Record State := mkState {
  backup_manager : World BackupResult;    (* with the heap of the results *)
  scheduled_jobs : Dict BackupJob;
  job_history : list Ref;
  storage : Scheduler.Directory;          (* the backup directory of a job *)
  tasks : list BackupJob                  (* asyncio.create_task(_run_job(job)) *)
}.

Definition with_manager (w : World BackupResult) (s : State) : State :=
  mkState w (scheduled_jobs s) (job_history s) (storage s) (tasks s).

Definition with_jobs (d : Dict BackupJob) (s : State) : State :=
  mkState (backup_manager s) d (job_history s) (storage s) (tasks s).

Definition with_history (h : list Ref) (s : State) : State :=
  mkState (backup_manager s) (scheduled_jobs s) h (storage s) (tasks s).

Definition with_storage (fs : Scheduler.Directory) (s : State) : State :=
  mkState (backup_manager s) (scheduled_jobs s) (job_history s) fs (tasks s).

Definition with_tasks (l : list BackupJob) (s : State) : State :=
  mkState (backup_manager s) (scheduled_jobs s) (job_history s) (storage s) l.

(** A coroutine of the backup manager, run by the scheduler. *)
Definition on_manager {A} (m : M (World BackupResult) A) : M State A :=
  fun s => let '(w', o) := m (backup_manager s) in (with_manager w' s, o).

Definition on_storage {A} (m : M Scheduler.Directory A) : M State A :=
  fun s => let '(fs', o) := m (storage s) in (with_storage fs' s, o).

(** [job.schedule and job.enabled], as a condition. *)
Definition schedulable (job : BackupJob) : bool :=
  match schedule job with
  | None => false
  | Some "" => false
  | Some _ => enabled job
  end.

Definition add_job (job : BackupJob) (s : State) : State :=
  if schedulable job
  then with_jobs (setitem (id job) job (scheduled_jobs s)) s
  else s.

Definition remove_job (job_id : string) (s : State) : State :=
  match getitem job_id (scheduled_jobs s) with
  | Some _ => with_jobs (delitem job_id (scheduled_jobs s)) s
  | None => s
  end.

Definition update_job (job : BackupJob) (s : State) : State :=
  if schedulable job
  then with_jobs (setitem (id job) job (scheduled_jobs s)) s
  else remove_job (id job) s.

Definition get_scheduled_jobs (s : State) : list BackupJob :=
  values (scheduled_jobs s).

Definition get_job_history (limit : Z) (s : State) : list Ref :=
  last_n limit (job_history s).

Definition _add_to_history (result : Ref) (s : State) : State :=
  let history := job_history s ++ [result] in
  if max_history <? Z.of_nat (length history)
  then with_history (last_n max_history history) s
  else with_history history s.

Definition set_enabled (b : bool) (job : BackupJob) : BackupJob :=
  {| id := id job; name := name job; source_config := source_config job;
     backup_config := backup_config job; backup_dir := backup_dir job;
     schedule := schedule job; retention_days := retention_days job;
     enabled := b |}.

Definition enable_job (job_id : string) (s : State) : State :=
  match getitem job_id (scheduled_jobs s) with
  | Some _ => with_jobs (alteritem (set_enabled true) job_id (scheduled_jobs s)) s
  | None => s
  end.

Definition disable_job (job_id : string) (s : State) : State :=
  match getitem job_id (scheduled_jobs s) with
  | Some _ => with_jobs (alteritem (set_enabled false) job_id (scheduled_jobs s)) s
  | None => s
  end.

(** [load_jobs_from_config], given [config_manager.get_backup_jobs()]. *)
Definition load_jobs_from_config (jobs : list BackupJob) (s : State) : State :=
  fold_left (fun s job => if schedulable job then add_job job s else s) jobs s.

Section Tick.
Variable croniter_get_next : string -> datetime -> option datetime.

(** [_check_and_run_jobs]: it awaits nothing, so the tasks it creates
    start after it has returned.  [_should_run_job] raises nothing. *)
Definition _check_and_run_jobs (now : datetime) (s : State) : State :=
  fold_left
    (fun s job =>
       if negb (enabled job) then s
       else if Scheduler._should_run_job croniter_get_next job now
            then with_tasks (tasks s ++ [job]) s
            else s)
    (values (scheduled_jobs s)) s.

End Tick.

(** What one execution of [_run_job] obtains from outside. *)
Record Env := mkEnv {
  backup : Backup.Env;
  progress_callback : Callback;       (* the closure made for this run *)
  meanwhile : list Ref;
      (* appended to the history by other tasks during [create_backup] *)
  retention_now : datetime;
  failed_start : datetime;            (* datetime.now() in the handler *)
  failed_end : datetime
}.

Definition _run_job (job : BackupJob) (env : Env) : M State unit :=
  try_except
    (result ← on_manager
       (Backup.create_backup job (Some (progress_callback env)) (backup env));
     modify (fun s => fold_left (fun s r => _add_to_history r s)
                                (meanwhile env) s);;
     modify (_add_to_history result);;
     on_storage (Scheduler._handle_retention job (retention_now env)))
    (fun msg =>
       result ← on_manager
         (new_result
            {| job_id := id job; status := BackupStatus.FAILED;
               backup_file := None; start_time := failed_start env;
               end_time := Some (failed_end env); size_bytes := 0;
               tables_count := 0; error_message := Some msg;
               checksum := None |});
       modify (_add_to_history result)).

(** [for result in reversed(self.job_history):
       if result.job_id == job_id: return result
     return None] *)
Definition last_result_of (job_id' : string) (s : State) : option Ref :=
  List.find
    (fun r => match heap (backup_manager s) !! r with
              | Some result => String.eqb (job_id result) job_id'
              | None => false
              end)
    (rev (job_history s)).

Definition run_job_now (job_id' : string) (env : Env) : M State (option Ref) :=
  fun s =>
    match getitem job_id' (scheduled_jobs s) with
    | None => (s, Returned None)
    | Some job => (_run_job job env;; gets (last_result_of job_id')) s
    end.

End BackupScheduler.

(** * Validation of a file and of a file name ([src/utils/validation.py]) *)

Module FileValidation.

(** What [validate_backup_file] obtains from the file system. *)
Record Env := mkEnv {
  file_exists : Outcome bool;        (* file_path.exists() *)
  is_file : Outcome bool;            (* file_path.is_file() *)
  st_size : Outcome Z;               (* file_path.stat().st_size *)
  gzip_read_1k : Outcome unit;       (* gzip.open(f, 'rb').read(1024) *)
  bz2_read_1k : Outcome unit;        (* bz2.open(f, 'rb').read(1024) *)
  tar_getmembers : Outcome unit;     (* tarfile.open(f, 'r:*').getmembers() *)
  open_read_1k : Outcome unit        (* open(f, 'rb').read(1024) *)
}.

Definition valid_extensions : list string :=
  [".sql"; ".sql.gz"; ".dump"; ".dump.gz"; ".dump.bz2";
   ".tar"; ".tar.gz"; ".tar.bz2"].

(** The [try] that ends [validate_backup_file]: which reader is tried. *)
Definition read_attempt (file_path : Pathlib.Path) (env : Env) : Outcome unit :=
  if String.eqb (Pathlib.suffix file_path) ".gz" then gzip_read_1k env
  else if Restore.member (Pathlib.suffix file_path) [".bz2"] then bz2_read_1k env
  else if Restore.member (Pathlib.suffix file_path) [".tar"; ".tar.gz"; ".tar.bz2"]
  then tar_getmembers env
  else open_read_1k env.

(** [validate_backup_file]: the list of errors, unless a call made
    outside the [try] raises. *)
Definition validate_backup_file (file_path : Pathlib.Path) (env : Env)
  : Outcome (list string) :=
  match file_exists env with
  | Raises e => Raises e
  | Returned false =>
      Returned ["Backup file does not exist: " +:+ file_path]
  | Returned true =>
      match is_file env with
      | Raises e => Raises e
      | Returned false => Returned ["Path is not a file: " +:+ file_path]
      | Returned true =>
          let errors :=
            if negb (Restore.member (Pathlib.suffix file_path) valid_extensions)
            then ["Invalid backup file extension. Must be one of: "
                    +:+ Str.join ", " valid_extensions]
            else [] in
          match st_size env with
          | Raises e => Raises e
          | Returned size =>
              let errors :=
                errors ++ (if size =? 0 then ["Backup file is empty"] else []) in
              match read_attempt file_path env with
              | Returned _ => Returned errors
              | Raises (Exception msg) =>
                  Returned (errors ++ ["Cannot read backup file: " +:+ msg])
              | Raises (BaseException msg) => Raises (BaseException msg)
              end
          end
      end
  end.

(** A character that [sanitize_filename] replaces: an angle bracket, a
    colon, a double quote (character 34), a slash, a backslash, a bar, a
    question mark or a star. *)
Definition invalid_character (c : ascii) : bool :=
  existsb (Ascii.eqb c)
          ["<"; ">"; ":"; "034"; "/"; "\"; "|"; "?"; "*"]%char.

(** A character that [strip(' .')] removes at both ends. *)
Definition stripped_character (c : ascii) : bool :=
  Ascii.eqb c " " || Ascii.eqb c ".".

Fixpoint lstrip (s : list ascii) : list ascii :=
  match s with
  | c :: s' => if stripped_character c then lstrip s' else s
  | [] => []
  end.

Definition strip (s : list ascii) : list ascii :=
  rev (lstrip (rev (lstrip s))).

(** [sanitize_filename], on a text as the list of its characters. *)
Definition sanitize_filename (filename : list ascii) : list ascii :=
  let sanitized :=
    map (fun c => if invalid_character c then "_"%char else c) filename in
  let sanitized := strip sanitized in
  let sanitized :=
    match sanitized with
    | [] => list_ascii_of_string "unnamed"
    | _ => sanitized
    end in
  if (255 <? length sanitized)%nat then take 255 sanitized else sanitized.

End FileValidation.

(** * The standalone tool ([postgres_backup_restore.py]) *)

Module Cli.

(** What [_estimate_table_count] reads. *)
Record Env := mkEnv {
  gzip_read : Outcome string;     (* gzip.open(f, 'rt').read() *)
  open_read : Outcome string      (* open(f, 'r').read() *)
}.

(** [content.count("CREATE TABLE")], or the default estimate when the
    file cannot be read. *)
Definition counted (content : Outcome string) : Outcome Z :=
  match content with
  | Returned text => Returned (Str.count "CREATE TABLE" text)
  | Raises (Exception _) => Returned 50          (* except Exception: pass *)
  | Raises (BaseException msg) => Raises (BaseException msg)
  end.

Definition _estimate_table_count (backup_file : Pathlib.Path) (env : Env)
  : Outcome Z :=
  if String.eqb (Pathlib.suffix backup_file) ".gz"
     && Str.endswith ".tar" (Pathlib.stem backup_file)
  then Returned 50
  else if String.eqb (Pathlib.suffix backup_file) ".gz"
  then counted (gzip_read env)
  else if String.eqb (Pathlib.suffix backup_file) ".sql"
  then counted (open_read env)
  else Returned 50.

End Cli.

(** * Validation of a connection ([src/utils/validation.py]) *)

Module ConnectionValidation.

(** [str.isspace] on a character, which is its code, below 256: the
    controls 9 to 13 and 28 to 31, the space, and the characters 133 and
    160. *)
Definition isspace (c : ascii) : bool :=
  let n := nat_of_ascii c in
  (Nat.leb 9 n && Nat.leb n 13) || (Nat.leb 28 n && Nat.leb n 32)
  || Nat.eqb n 133 || Nat.eqb n 160.

Fixpoint lstrip (s : list ascii) : list ascii :=
  match s with
  | c :: s' => if isspace c then lstrip s' else s
  | [] => []
  end.

(** [s.strip()] *)
Definition strip (s : list ascii) : list ascii :=
  rev (lstrip (rev (lstrip s))).

(** [not s or not s.strip()] *)
Definition missing (s : string) : bool :=
  Validation.is_nil (list_ascii_of_string s)
  || Validation.is_nil (strip (list_ascii_of_string s)).

Definition len (s : string) : Z := Z.of_nat (String.length s).

Definition valid_ssl_modes : list string :=
  ["disable"; "allow"; "prefer"; "require"; "verify-ca"; "verify-full"].

Definition validate_database_config (config : DatabaseConfig) : list string :=
  (if missing (host config) then ["Database host is required"]
   else if 253 <? len (host config)
        then ["Database host is too long (max 253 characters)"]
        else [])
  ++ (if negb (Datetime.between 1 (port config) 65535)
      then ["Database port must be between 1 and 65535"] else [])
  ++ (if missing (database config) then ["Database name is required"]
      else if negb (Validation.match_schema_name (database config))
           then ["Database name contains invalid characters"]
           else if 63 <? len (database config)
                then ["Database name is too long (max 63 characters)"]
                else [])
  ++ (if missing (username config) then ["Database username is required"]
      else if 63 <? len (username config)
           then ["Username is too long (max 63 characters)"]
           else [])
  ++ (if Validation.is_nil (list_ascii_of_string (password config))
      then ["Database password is required"] else [])
  ++ (if negb (Restore.member (ssl_mode config) valid_ssl_modes)
      then ["SSL mode must be one of: " +:+ Str.join ", " valid_ssl_modes]
      else [])
  ++ (if negb (Datetime.between 1 (connection_timeout config) 300)
      then ["Connection timeout must be between 1 and 300 seconds"] else []).

End ConnectionValidation.

(** * Vocabulary of the statements *)

Definition call_event (c : Callback * Z * string) : Event :=
  Call c.1.1 c.1.2 c.2.

(** Between [w] and [w'] the progress callbacks were invoked as [l] says,
    and nothing else was done to the outside. *)
Definition emitted_calls {R} (w w' : World R) (l : list (Callback * Z * string))
  : Prop :=
  trace w' = trace w ++ map call_event l.

(** Objects are never freed: a reference valid in [w] is valid in [w']. *)
Definition extends {R} (w w' : World R) : Prop :=
  forall r, is_Some (heap w !! r) -> is_Some (heap w' !! r).

(** A coroutine that frees no object. *)
Definition preserves {R A} (m : M (World R) A) : Prop :=
  forall w w' o, m w = (w', o) -> extends w w'.

(** Nothing was done to the outside between [w] and [w']. *)
Definition silent {R} (w w' : World R) : Prop :=
  trace w' = trace w /\ extends w w'.

(** A job registered with callback 7 for its backup, two polls of the
    monitor, the second one after another task cancelled the backup. *)
Definition running_job1 : World BackupResult :=
  mkWorld
    {[ 0%nat := {| job_id := "job1"; status := BackupStatus.RUNNING;
                   backup_file := None; start_time := 0; end_time := None;
                   size_bytes := 0; tables_count := 0; error_message := None;
                   checksum := None |} ]}
    {[ "job1" := 0%nat ]} {[ "job1" := 7%nat ]} [].

Definition cancelled_meanwhile : ProcessRun :=
  mkProcessRun (mkAwait [] (Returned tt))
               [mkPoll [] 1; mkPoll [CancelOperation "job1" 5000000] 2]
               (Returned (0, "")).

Definition undisturbed : ProcessRun :=
  mkProcessRun (mkAwait [] (Returned tt))
               [mkPoll [] 1; mkPoll [] 2; mkPoll [] 400]
               (Returned (0, "")).

(** The strategies of a full backup, in the words of the specification. *)
Definition directory_strategy_chosen (config : BackupConfig) : Prop :=
  1 < parallel_jobs config /\ compression config <> CompressionType.NONE.

(** tar mode and extension of the directory strategy. *)
Definition archive_format (c : CompressionType.t) : string * string :=
  match c with
  | CompressionType.GZIP => ("w:gz", ".tar.gz")
  | CompressionType.BZIP2 => ("w:bz2", ".tar.bz2")
  | _ => ("w", ".tar")
  end.

(** Extension of the custom-format strategy. *)
Definition dump_suffix (c : CompressionType.t) : string :=
  match c with
  | CompressionType.GZIP => ".dump.gz"
  | CompressionType.BZIP2 => ".dump.bz2"
  | _ => ".dump"
  end.

Definition localhost : DatabaseConfig :=
  {| host := "localhost"; port := 5432; database := "shop";
     username := "postgres"; password := "secret"; ssl_mode := "prefer";
     connection_timeout := 30 |}.

Definition nightly (jobs : Z) (c : CompressionType.t) : BackupJob :=
  {| id := "job1"; name := "jobname"; source_config := localhost;
     backup_config :=
       {| backup_type := BackupType.FULL; compression := c;
          encryption := EncryptionType.NONE; parallel_jobs := jobs;
          exclude_schemas := []; include_schemas := [];
          exclude_tables := ["audit"]; include_tables := [];
          clean_before_restore := true; no_owner := true;
          no_privileges := true |};
     backup_dir := "/var/backups"; schedule := Some "0 2 * * *";
     retention_days := 30; enabled := true |}.

Definition quiet {A} (a : A) : Await A := mkAwait [] (Returned a).

(** An execution of [create_backup] in which every outside call works. *)
Definition smooth_backup : Backup.Env :=
  Backup.mkEnv 1000000 9000000 (quiet (Some 12)) "20240115_020000"
               (Returned tt) "/tmp/tmpab12" undisturbed (quiet tt)
               (Returned tt) (Returned "9f86d081884c7d65") (Returned 4096).

(** An execution in which the task is cancelled while it waits for the
    probe of the database. *)
Definition cancelled_backup : Backup.Env :=
  Backup.mkEnv 1000000 9000000
               (mkAwait [] (Raises (BaseException "CancelledError")))
               "20240115_020000"
               (Returned tt) "/tmp/tmpab12" undisturbed (quiet tt)
               (Returned tt) (Returned "9f86d081884c7d65") (Returned 4096).

(** An execution in which [pg_dump] exits with status 1. *)
Definition failing_dump : Backup.Env :=
  Backup.mkEnv 1000000 9000000 (quiet (Some 12)) "20240115_020000"
               (Returned tt) "/tmp/tmpab12"
               (mkProcessRun (quiet tt) [mkPoll [] 1]
                             (Returned (1, "connection refused")))
               (quiet tt)
               (Returned tt) (Returned "9f86d081884c7d65") (Returned 4096).

Definition idle {R} : World R := mkWorld ∅ ∅ ∅ [].

(** A restore in which every outside call works.  The listing of the
    artifact names ten tables; the restored database has [tables]. *)
Definition smooth_restore (tables : Z) : Restore.Env :=
  Restore.mkEnv 1000000 9000000 1705284000
    (Returned true) (Returned tt)
    (quiet 0)
    (quiet (0, "TABLE a TABLE b TABLE c TABLE d TABLE e TABLE f TABLE g TABLE h TABLE i TABLE j"))
    (Returned []) (Returned tt) (Returned tt)
    (Returned "CREATE TABLE a;") (Returned "CREATE TABLE a;")
    (quiet false) (quiet true) (quiet true)
    undisturbed (quiet tt) (Returned ["/tmp/tmpcd34/jobname_dir"])
    (quiet (0, "")) (Returned tt) (quiet tt) (quiet (0, ""))
    (quiet (Some tables)).

(** The suffixes that [_verify_backup_file] and [_get_backup_info] list. *)
Definition known_suffixes : list string :=
  Restore.custom_suffixes ++ Restore.tar_suffixes ++ Restore.sql_suffixes.

(** The instant of a valid date and time. *)
Definition instant (year month day hour minute sec : Z) : datetime :=
  default 0 (Datetime.make year month day hour minute sec).

(** A backup directory holding an artifact of January 2020 and a file
    that is not an artifact. *)
Definition old_backups : Scheduler.Directory :=
  Scheduler.mkDirectory
    true
    [Scheduler.mkEntry "jobname_20200101_000000.sql" true;
     Scheduler.mkEntry "random.sql" true]
    [].

(** The names of a configuration that pass the patterns of
    [validate_backup_config]. *)
Definition names_well_formed (config : BackupConfig) : Prop :=
  Forall (fun x => Validation.match_schema_name x = true) (exclude_schemas config)
  /\ Forall (fun x => Validation.match_schema_name x = true) (include_schemas config)
  /\ Forall (fun x => Validation.match_table_name x = true) (exclude_tables config)
  /\ Forall (fun x => Validation.match_table_name x = true) (include_tables config).

Definition filters (excluded_schemas included_schemas
                    excluded_tables included_tables : list string)
  : BackupConfig :=
  {| backup_type := BackupType.FULL; compression := CompressionType.GZIP;
     encryption := EncryptionType.NONE; parallel_jobs := 4;
     exclude_schemas := excluded_schemas; include_schemas := included_schemas;
     exclude_tables := excluded_tables; include_tables := included_tables;
     clean_before_restore := true; no_owner := true; no_privileges := true |}.

(** * Vocabulary of the further statements *)

(** Every run of the coroutine [m] relates the world it starts from to the
    world it leaves as [I] says. *)
Definition respects {R A} (I : World R -> World R -> Prop)
           (m : M (World R) A) : Prop :=
  forall w w' o, m w = (w', o) -> I w w'.

(** A relation between worlds that holds across whatever happens while a
    coroutine of a manager is suspended or writes to its log. *)
Class Lasting {R : Type} `{OperationResult R}
      (I : World R -> World R -> Prop) := {
  lasting_refl : forall w, I w w;
  lasting_trans : forall w1 w2 w3, I w1 w2 -> I w2 w3 -> I w1 w3;
  lasting_cancel : forall op_id now, respects I (cancel op_id now);
  lasting_log : forall level message, respects I (logger level message)
}.

(** A relation that holds across the reports of progress as well. *)
Class Footprint {R : Type} `{OperationResult R}
      (I : World R -> World R -> Prop) := {
  footprint_lasting :: Lasting I;
  footprint_call : forall cb percent message,
      respects I (emit (Call cb percent message))
}.

(** Every object of [w] is still there in [w'], changed as [Q] allows. *)
Definition evolves {R} (Q : R -> R -> Prop) (w w' : World R) : Prop :=
  forall r result,
    heap w !! r = Some result ->
    exists result', heap w' !! r = Some result' /\ Q result result'.

(** Two states of a [BackupResult] that differ at most in [status] and
    [end_time], the fields that a cancellation writes. *)
Definition same_payload (a b : BackupResult) : Prop :=
  job_id b = job_id a /\ backup_file b = backup_file a
  /\ start_time b = start_time a /\ size_bytes b = size_bytes a
  /\ tables_count b = tables_count a /\ error_message b = error_message a
  /\ checksum b = checksum a.

(** The object at [r0], if no registry entry leads to it, is left as it
    is and stays out of the registry. *)
Definition untouched {R} (r0 : Ref) (w w' : World R) : Prop :=
  forall result,
    heap w !! r0 = Some result ->
    (forall op_id, active w !! op_id <> Some r0) ->
    heap w' !! r0 = Some result
    /\ (forall op_id, active w' !! op_id <> Some r0).

(** Likewise for a [RestoreResult]. *)
Definition same_restore (a b : RestoreResult) : Prop :=
  r_backup_file b = r_backup_file a /\ r_target_config b = r_target_config a
  /\ r_start_time b = r_start_time a /\ tables_restored b = tables_restored a
  /\ r_error_message b = r_error_message a
  /\ verification_passed b = verification_passed a.

(** Whether the target database is there for the restore tool: it did
    not exist or was dropped, and was then created. *)
Definition database_ready (env : Restore.Env) : bool :=
  match outcome (Restore.database_exists env) with
  | Returned false => true
  | Returned true =>
      match outcome (Restore.drop_database env) with
      | Returned true => true
      | _ => false
      end
  | Raises _ => false
  end
  && match outcome (Restore.create_database env) with
     | Returned true => true
     | _ => false
     end.

(** Two states of a [BackupResult] of one job. *)
Definition same_job (a b : BackupResult) : Prop := job_id b = job_id a.

(** Between [w] and [w'] the trace has grown by events that all
    satisfy [P]. *)
Definition adds {R} (P : Event -> Prop) (w w' : World R) : Prop :=
  exists events, trace w' = trace w ++ events /\ Forall P events.

(** An event other than the invocation of a progress callback. *)
Definition no_call (e : Event) : Prop :=
  match e with Call _ _ _ => False | _ => True end.

(** An event that runs no tool and writes no archive, except for
    [pg_restore --list] on [backup_file]. *)
Definition at_most_lists (backup_file : Pathlib.Path) (e : Event) : Prop :=
  match e with
  | Spawn cmd => cmd = ["pg_restore"; "--list"; backup_file]
  | Archive _ _ _ => False
  | _ => True
  end.

(** No other task acts while the process is started and monitored. *)
Definition uninterrupted (run : ProcessRun) : Prop :=
  during (spawn run) = []
  /\ Forall (fun p => during_sleep p = []) (polls run).

(** What the monitor reports after the poll [p]. *)
Definition estimate (assumed_total : Z) (cb : Callback) (message : string)
           (p : Poll) : Callback * Z * string :=
  (cb, Z.min 95 (elapsed p * 100 / assumed_total),
   message +:+ " (" +:+ pretty (elapsed p) +:+ "s)").

(** The extension of the artifact of a full backup. *)
Definition artifact_suffix (config : BackupConfig) : string :=
  if (1 <? parallel_jobs config)
     && negb (CompressionType.eqb (compression config) CompressionType.NONE)
  then (archive_format (compression config)).2
  else dump_suffix (compression config).

(** The progress message of the strategy of a full backup. *)
Definition dump_message (config : BackupConfig) : string :=
  if (1 <? parallel_jobs config)
     && negb (CompressionType.eqb (compression config) CompressionType.NONE)
  then "Creating parallel backup"
  else "Creating custom backup".

(** An execution of [create_backup] during which another task cancels
    the job while [pg_dump] runs; everything else works. *)
Definition cancelled_during_dump : Backup.Env :=
  Backup.mkEnv 1000000 9000000 (quiet (Some 12)) "20240115_020000"
               (Returned tt) "/tmp/tmpab12" cancelled_meanwhile (quiet tt)
               (Returned tt) (Returned "9f86d081884c7d65") (Returned 4096).

(** A job of a type that is not implemented. *)
Definition incremental : BackupJob :=
  {| id := "job2"; name := "weekly"; source_config := localhost;
     backup_config :=
       {| backup_type := BackupType.INCREMENTAL;
          compression := CompressionType.GZIP;
          encryption := EncryptionType.NONE; parallel_jobs := 4;
          exclude_schemas := []; include_schemas := [];
          exclude_tables := []; include_tables := [];
          clean_before_restore := true; no_owner := true;
          no_privileges := true |};
     backup_dir := "/var/backups"; schedule := Some "0 3 * * 0";
     retention_days := 30; enabled := true |}.

(** A job whose name holds a dot. *)
Definition dotted : BackupJob :=
  {| id := "job3"; name := "db.prod"; source_config := localhost;
     backup_config := backup_config (nightly 4 CompressionType.GZIP);
     backup_dir := "/var/backups"; schedule := Some "0 2 * * *";
     retention_days := 30; enabled := true |}.

(** The result of an earlier run, kept by a caller; nothing is active. *)
Definition yesterday : BackupResult :=
  {| job_id := "job1"; status := BackupStatus.COMPLETED;
     backup_file := Some "/var/backups/jobname_20240114_020000.dump";
     start_time := 0; end_time := Some 500000; size_bytes := 2048;
     tables_count := 12; error_message := None;
     checksum := Some "60303ae22b998861" |}.

Definition day_after : World BackupResult :=
  mkWorld {[ 0%nat := yesterday ]} ∅ ∅ [].

(** A restore for which the target database cannot be created. *)
Definition uncreated_database : Restore.Env :=
  Restore.mkEnv 1000000 9000000 1705284000
    (Returned true) (Returned tt)
    (quiet 0) (quiet (0, "TABLE a TABLE b"))
    (Returned []) (Returned tt) (Returned tt)
    (Returned "CREATE TABLE a;") (Returned "CREATE TABLE a;")
    (quiet false) (quiet true) (quiet false)
    undisturbed (quiet tt) (Returned ["/tmp/tmpcd34/jobname_dir"])
    (quiet (0, "")) (Returned tt) (quiet tt) (quiet (0, ""))
    (quiet (Some 2)).

(** A scheduler that holds the nightly job and has run nothing yet. *)
Definition fresh_scheduler : BackupScheduler.State :=
  BackupScheduler.mkState idle [("job1", nightly 1 CompressionType.GZIP)] []
                          old_backups [].

Definition first_run : BackupScheduler.Env :=
  BackupScheduler.mkEnv smooth_backup 7%nat [] (instant 2024 1 15 2 5 0)
                        (instant 2024 1 15 2 5 0) (instant 2024 1 15 2 5 1).

(** A dump of the standalone tool that creates two tables. *)
Definition two_tables : Cli.Env :=
  Cli.mkEnv (Returned "CREATE TABLE a (); CREATE TABLE b ();")
            (Returned "CREATE TABLE a ();").

(** A restore that works, into a database that then does not answer the
    probe of the verification. *)
Definition unanswered_probe : Restore.Env :=
  Restore.mkEnv 1000000 9000000 1705284000
    (Returned true) (Returned tt)
    (quiet 0) (quiet (0, "TABLE a TABLE b"))
    (Returned []) (Returned tt) (Returned tt)
    (Returned "CREATE TABLE a;") (Returned "CREATE TABLE a;")
    (quiet false) (quiet true) (quiet true)
    undisturbed (quiet tt) (Returned ["/tmp/tmpcd34/jobname_dir"])
    (quiet (0, "")) (Returned tt) (quiet tt) (quiet (0, ""))
    (mkAwait [] (Raises (Exception "connection refused"))).

(** A text that is not blank: one of its characters is no white space. *)
Definition has_text (s : string) : Prop :=
  exists c, c ∈ list_ascii_of_string s
            /\ ConnectionValidation.isspace c = false.

(** A text that is one identifier. *)
Definition identifier (s : string) : Prop :=
  Validation.is_identifier (list_ascii_of_string s) = true.

Definition newline : string := String "010" EmptyString.

(** * Properties *)

(** ** Running the coroutine monad *)

Ltac unfold_monad :=
  unfold mbind, mret, coroutine_bind, coroutine_ret, bind, ret, raise, lift,
    modify, gets, try_except, try_finally in *.

Lemma bind_returned {S A B} (m : M S A) (k : A -> M S B) w w1 a :
  m w = (w1, Returned a) -> (m ≫= k) w = k a w1.
Proof. intros Hm. unfold_monad. by rewrite Hm. Qed.

Lemma bind_raises {S A B} (m : M S A) (k : A -> M S B) w w1 e :
  m w = (w1, Raises e) -> (m ≫= k) w = (w1, Raises e).
Proof. intros Hm. unfold_monad. by rewrite Hm. Qed.

Lemma bind_inv {S A B} (m : M S A) (k : A -> M S B) w w' o :
  (m ≫= k) w = (w', o) ->
  (exists w1 a, m w = (w1, Returned a) /\ k a w1 = (w', o))
  \/ (exists e, m w = (w', Raises e) /\ o = Raises e).
Proof.
  unfold_monad. destruct (m w) as [w1 [a|e]]; intros Hk.
  - left. eauto.
  - right. exists e. by inversion Hk.
Qed.

(** ** Cancellation (C10) *)

Section CancelProperties.
Context {R : Type} `{OperationResult R}.

Lemma cancel_meets_contract : cancel_contract (cancel (R := R)).
Proof.
  intros op_id now w. unfold cancel.
  destruct (active w !! op_id) as [r|] eqn:Hreg; [|done].
  eexists. split; [reflexivity|]. simpl.
  repeat split.
  - apply lookup_delete_eq.
  - apply lookup_delete_eq.
  - intros result Hres. eexists. rewrite lookup_alter_eq, Hres. simpl.
    split; [reflexivity|]. split.
    + by rewrite status_set_end_time, status_set_status.
    + by rewrite end_time_set_end_time.
  - by apply lookup_delete_ne.
  - by apply lookup_delete_ne.
  - intros r' Hne. by apply lookup_alter_ne.
Qed.
End CancelProperties.

(** C10. [cancel_backup(job_id)] and [cancel_restore(restore_id)] return
    [True] exactly when the id is in the registry of active operations.
    Then the registered result object has become [cancelled] with its
    [end_time] set, and the id is gone from the active registry and from
    the registry of progress callbacks, other entries being untouched.
    When they return [False] the state has not changed at all. *)
Theorem cancel_contract_holds :
  cancel_contract cancel_backup /\ cancel_contract cancel_restore.
Proof. split; apply cancel_meets_contract. Qed.

(** ** What the primitives do to the world *)

Section WorldLemmas.
Context {R : Type} `{OperationResult R}.

Lemma extends_refl (w : World R) : extends w w.
Proof. by intros r. Qed.

Lemma extends_trans (w1 w2 w3 : World R) :
  extends w1 w2 -> extends w2 w3 -> extends w1 w3.
Proof. intros H12 H23 r Hr. auto. Qed.

Lemma silent_refl (w : World R) : silent w w.
Proof. split; [done | apply extends_refl]. Qed.

Lemma silent_trans (w1 w2 w3 : World R) :
  silent w1 w2 -> silent w2 w3 -> silent w1 w3.
Proof.
  intros [Ht12 He12] [Ht23 He23]. split; [congruence|].
  eapply extends_trans; eauto.
Qed.

Lemma cancel_silent op_id now (w : World R) :
  exists w' b, cancel op_id now w = (w', Returned b) /\ silent w w'.
Proof.
  unfold cancel. destruct (active w !! op_id) as [r|].
  - do 2 eexists. split; [reflexivity|]. split; [done|].
    intros r' Hr'. simpl. by apply lookup_alter_is_Some.
  - do 2 eexists. split; [reflexivity | apply silent_refl].
Qed.

Lemma interleave_silent l (w : World R) :
  exists w', interleave l w = (w', Returned tt) /\ silent w w'.
Proof.
  revert w. induction l as [|[op_id now] l IH]; intros w.
  - exists w. split; [done | apply silent_refl].
  - destruct (cancel_silent op_id now w) as (w1 & b & Hc & Hs).
    destruct (IH w1) as (w2 & Hi & Hs2).
    exists w2. split; [|eapply silent_trans; eauto].
    simpl. erewrite bind_returned; [exact Hi|].
    unfold run_action. by erewrite bind_returned.
Qed.

Lemma await_returned {A} (a : Await A) (x : A) (w : World R) :
  outcome a = Returned x ->
  exists w', await a w = (w', Returned x) /\ silent w w'.
Proof.
  intros Ho. destruct (interleave_silent (during a) w) as (w1 & Hi & Hs).
  exists w1. split; [|done]. unfold await.
  erewrite bind_returned; [|exact Hi]. unfold lift. by rewrite Ho.
Qed.

Lemma await_inv {A} (a : Await A) (w w' : World R) o :
  await a w = (w', o) -> o = outcome a /\ silent w w'.
Proof.
  intros Ha. destruct (interleave_silent (during a) w) as (w1 & Hi & Hs).
  unfold await in Ha. erewrite bind_returned in Ha; [|exact Hi].
  unfold lift in Ha. by inversion Ha; subst.
Qed.

Lemma notify_run op_id percent message (w : World R) :
  exists w',
    notify op_id percent message w = (w', Returned tt)
    /\ heap w' = heap w /\ active w' = active w
    /\ progress_callbacks w' = progress_callbacks w
    /\ trace w' = trace w ++
         match progress_callbacks w !! op_id with
         | Some cb => [Call cb percent message]
         | None => []
         end.
Proof.
  unfold notify. destruct (progress_callbacks w !! op_id) as [cb|].
  - eexists. split; [reflexivity|]. by simpl.
  - exists w. by rewrite app_nil_r.
Qed.

(** The loop of the monitor: it only invokes the callback, and never
    with more than 95. *)
Lemma monitor_loop_run assumed_total op_id message l (w : World R) :
  exists w' earlier,
    monitor_loop assumed_total op_id message l w = (w', Returned tt)
    /\ emitted_calls w w' earlier
    /\ Forall (fun c => c.1.2 <= 95) earlier
    /\ extends w w'.
Proof.
  revert w. induction l as [|p l IH]; intros w.
  - exists w, []. unfold emitted_calls. simpl. rewrite app_nil_r.
    repeat split; [constructor | apply extends_refl].
  - destruct (interleave_silent (during_sleep p) w) as (w1 & Hi & Ht1 & He1).
    destruct (notify_run op_id
                (Z.min 95 (elapsed p * 100 / assumed_total))
                (message +:+ " (" +:+ pretty (elapsed p) +:+ "s)") w1)
      as (w2 & Hn & Hh2 & _ & _ & Ht2).
    destruct (IH w2) as (w3 & earlier & Hl & Hc & Hle & He3).
    exists w3.
    exists (match progress_callbacks w1 !! op_id with
            | Some cb => [(cb, Z.min 95 (elapsed p * 100 / assumed_total),
                           message +:+ " (" +:+ pretty (elapsed p) +:+ "s)")]
            | None => []
            end ++ earlier).
    split; [|split; [|split]].
    + simpl. erewrite bind_returned; [|exact Hi].
      erewrite bind_returned; [|exact Hn]. exact Hl.
    + unfold emitted_calls in *. rewrite Hc, Ht2, Ht1, map_app, app_assoc.
      by destruct (progress_callbacks w1 !! op_id).
    + apply Forall_app. split; [|done].
      destruct (progress_callbacks w1 !! op_id); constructor; [|constructor].
      simpl. lia.
    + eapply extends_trans; [exact He1|].
      eapply extends_trans; [|exact He3].
      intros r. by rewrite Hh2.
Qed.

Lemma monitor_run assumed_total run op_id message (w : World R) state :
  exit run = Returned state ->
  exists w' earlier,
    monitor assumed_total run op_id message w = (w', Returned state)
    /\ Forall (fun c => c.1.2 <= 95) earlier
    /\ extends w w'
    /\ emitted_calls w w'
         (earlier ++
          match progress_callbacks
                  (monitor_loop assumed_total op_id message (polls run) w).1
                !! op_id with
          | Some cb => [(cb, 100, message +:+ " completed")]
          | None => []
          end).
Proof.
  intros Hexit.
  destruct (monitor_loop_run assumed_total op_id message (polls run) w)
    as (w1 & earlier & Hl & Hc & Hle & He1).
  destruct (notify_run op_id 100 (message +:+ " completed") w1)
    as (w2 & Hn & Hh2 & _ & _ & Ht2).
  exists w2, earlier. rewrite Hl. simpl.
  split; [|split; [done|split]].
  - unfold monitor. erewrite bind_returned; [|exact Hl].
    erewrite bind_returned; [|unfold lift; by rewrite Hexit].
    by erewrite bind_returned.
  - eapply extends_trans; [exact He1|]. intros r. by rewrite Hh2.
  - unfold emitted_calls in *. rewrite Ht2, Hc, map_app, app_assoc.
    by destruct (progress_callbacks w1 !! op_id).
Qed.

End WorldLemmas.

(** ** The terminal update of the progress monitor (C3) *)

(** C3, as stated, fails.  When another task cancels the operation
    while the monitor sleeps, the callback is deregistered and the monitor
    ends without the update at 100: the last invocation is an estimate.
    And when no callback was supplied (as [main.py] calls the executors)
    the monitor invokes nothing at all. *)
Lemma monitor_silenced_by_cancel :
  let w' := (_monitor_backup_process cancelled_meanwhile "job1"
               "Creating custom backup" running_job1).1 in
  let w'' := (_monitor_backup_process undisturbed "job1"
                "Creating custom backup" idle).1 in
  calls_of (trace w') = [(7%nat, 0, "Creating custom backup (1s)")]
  /\ ~ (exists cb message,
          last (calls_of (trace w')) = Some (cb, 100, message))
  /\ calls_of (trace w'') = [].
Proof.
  vm_compute. split; [reflexivity|]. split; [|reflexivity].
  intros (cb & message & Hlast). discriminate Hlast.
Qed.

(** C3, amended.  Whenever the monitored process exits, the monitor
    ([_monitor_backup_process] is [monitor 300], [_monitor_restore_process]
    is [monitor 600]) has only invoked the progress callback; every
    invocation made while the process ran has a percentage of at most 95;
    and if a callback is registered for the operation when the loop is
    left, exactly one more invocation follows, the last one, with 100
    and the message followed by " completed".  With no callback
    registered then (none was supplied, or the operation was cancelled
    meanwhile) there is no terminal update. *)
Theorem monitor_terminal_update
        {R : Type} `{OperationResult R}
        (assumed_total : Z) (run : ProcessRun) (op_id message : string)
        (w : World R) (state : Z * string) :
  exit run = Returned state ->
  exists w' earlier,
    monitor assumed_total run op_id message w = (w', Returned state)
    /\ Forall (fun c => c.1.2 <= 95) earlier
    /\ match progress_callbacks
               (monitor_loop assumed_total op_id message (polls run) w).1
             !! op_id with
       | Some cb =>
           emitted_calls w w' (earlier ++ [(cb, 100, message +:+ " completed")])
       | None => emitted_calls w w' earlier
       end.
Proof.
  intros Hexit.
  destruct (monitor_run assumed_total run op_id message w state Hexit)
    as (w' & earlier & Hm & Hle & _ & Hc).
  exists w', earlier. split; [done|]. split; [done|].
  destruct (progress_callbacks _ !! op_id); [done|].
  by rewrite app_nil_r in Hc.
Qed.

Lemma monitor_terminal_update_witness :
  exists w' earlier,
    _monitor_backup_process undisturbed "job1" "Creating custom backup"
                            running_job1 = (w', Returned (0, ""))
    /\ Forall (fun c => c.1.2 <= 95) earlier
    /\ emitted_calls running_job1 w'
         (earlier ++ [(7%nat, 100, "Creating custom backup completed")]).
Proof.
  exact (monitor_terminal_update (R := BackupResult) 300 undisturbed "job1"
           "Creating custom backup" running_job1 (0, "") eq_refl).
Defined.

(** ** Objects outlive every step *)

Section Preservation.
Context {R : Type} `{OperationResult R}.

Lemma preserves_mret {A} (a : A) : preserves (R := R) (mret a).
Proof. intros w w' o Hm. inversion Hm. apply extends_refl. Qed.

Lemma preserves_raise {A} e : preserves (R := R) (raise (A := A) e).
Proof. intros w w' o Hm. inversion Hm. apply extends_refl. Qed.

Lemma preserves_lift {A} (o : Outcome A) : preserves (R := R) (lift o).
Proof. intros w w' o' Hm. inversion Hm. apply extends_refl. Qed.

Lemma preserves_bind {A B} (m : M (World R) A) (k : A -> M (World R) B) :
  preserves m -> (forall a, preserves (k a)) -> preserves (m ≫= k).
Proof.
  intros Hm Hk w w' o Hrun.
  destruct (bind_inv _ _ _ _ _ Hrun) as [(w1 & a & H1 & H2)|(e & H1 & _)].
  - eapply extends_trans; [eapply Hm | eapply Hk]; eauto.
  - eapply Hm; eauto.
Qed.

Lemma preserves_try_except {A} (body : M (World R) A) handler :
  preserves body -> (forall msg, preserves (handler msg)) ->
  preserves (try_except body handler).
Proof.
  intros Hb Hh w w' o Hrun. unfold try_except in Hrun.
  destruct (body w) as [w1 [a|[msg|msg]]] eqn:Hbody.
  - inversion Hrun; subst. eapply Hb; eauto.
  - eapply extends_trans; [eapply Hb | eapply Hh]; eauto.
  - inversion Hrun; subst. eapply Hb; eauto.
Qed.

Lemma preserves_emit e : preserves (R := R) (emit e).
Proof. intros w w' o Hm. inversion Hm. by intros r. Qed.

Lemma preserves_logger l m : preserves (R := R) (logger l m).
Proof. apply preserves_emit. Qed.

Lemma preserves_update r f : preserves (R := R) (update r f).
Proof.
  intros w w' o Hm. inversion Hm. intros r' Hr'. simpl.
  by apply lookup_alter_is_Some.
Qed.

Lemma preserves_await {A} (a : Await A) : preserves (R := R) (await a).
Proof. intros w w' o Hm. by destruct (await_inv _ _ _ _ Hm) as (_ & _ & He). Qed.

Lemma preserves_interleave l : preserves (R := R) (interleave l).
Proof.
  intros w w' o Hm.
  destruct (interleave_silent l w) as (w1 & Hi & _ & He).
  rewrite Hi in Hm. by inversion Hm; subst.
Qed.

Lemma preserves_notify op_id p m : preserves (R := R) (notify op_id p m).
Proof.
  intros w w' o Hm.
  destruct (notify_run op_id p m w) as (w1 & Hn & Hh & _).
  rewrite Hn in Hm. inversion Hm; subst. intros r. by rewrite Hh.
Qed.

Lemma preserves_monitor total run op_id message :
  preserves (R := R) (monitor total run op_id message).
Proof.
  unfold monitor. apply preserves_bind.
  - intros w w' o Hm.
    destruct (monitor_loop_run total op_id message (polls run) w)
      as (w1 & earlier & Hl & _ & _ & He).
    rewrite Hl in Hm. by inversion Hm; subst.
  - intros _. apply preserves_bind; [apply preserves_lift|].
    intros state. apply preserves_bind; [apply preserves_notify|].
    intros _. apply preserves_mret.
Qed.

End Preservation.

Create HintDb frame discriminated.
#[export] Hint Resolve preserves_mret preserves_raise preserves_lift
  preserves_emit preserves_logger preserves_update preserves_await
  preserves_interleave preserves_notify preserves_monitor : frame.

(** Splits a coroutine along its binds, its handlers and its tests. *)
Ltac frame :=
  repeat first
    [ solve [eauto with frame]
    | apply preserves_bind; [|intros ?]
    | apply preserves_try_except; [|intros ?]
    | match goal with
      | |- preserves (if ?b then _ else _) => destruct b
      | |- preserves (match ?x with _ => _ end) => destruct x
      end ].

(** ** The strategy of a full backup (C6) *)

Lemma spawned_of_calls l : spawned_of (map call_event l) = [].
Proof. by induction l. Qed.

Lemma archives_of_calls l : archives_of (map call_event l) = [].
Proof. by induction l. Qed.

Lemma logs_of_calls l : logs_of (map call_event l) = [].
Proof. by induction l. Qed.

Lemma run_pg_dump_preserves cmd job env message :
  preserves (Backup.run_pg_dump cmd job env message).
Proof. unfold Backup.run_pg_dump, _monitor_backup_process. frame. Qed.

#[export] Hint Resolve run_pg_dump_preserves : frame.

Lemma dump_preserves job r env : preserves (Backup.dump job r env).
Proof.
  unfold Backup.dump, Backup._create_full_backup, Backup._create_parallel_backup,
    Backup._create_custom_backup, Backup.tar.
  frame.
Qed.

(** A dump that goes through: the tool is spawned once, then only the
    progress callback is invoked. *)
Lemma run_pg_dump_ok cmd job env message (w : World BackupResult) stderr :
  outcome (spawn (Backup.pg_dump env)) = Returned tt ->
  exit (Backup.pg_dump env) = Returned (0, stderr) ->
  exists w' calls,
    Backup.run_pg_dump cmd job env message w = (w', Returned tt)
    /\ trace w' = trace w ++ Spawn cmd :: map call_event calls.
Proof.
  intros Hspawn Hexit. unfold Backup.run_pg_dump.
  destruct (await_returned (R := BackupResult) _ tt
              (mkWorld (heap w) (active w) (progress_callbacks w)
                       (trace w ++ [Spawn cmd])) Hspawn)
    as (w2 & Ha & Ht2 & _).
  destruct (monitor_run (R := BackupResult) 300 _ (id job) message w2 _ Hexit)
    as (w3 & earlier & Hm & _ & _ & Hc).
  exists w3. eexists.
  split.
  - erewrite bind_returned; [|reflexivity].
    erewrite bind_returned; [|exact Ha].
    unfold _monitor_backup_process.
    erewrite bind_returned; [|exact Hm]. reflexivity.
  - unfold emitted_calls in Hc. rewrite Hc, Ht2.
    cbn [trace]. by rewrite <- app_assoc.
Qed.

Lemma spawned_of_app t1 t2 :
  spawned_of (t1 ++ t2) = spawned_of t1 ++ spawned_of t2.
Proof. apply omap_app. Qed.

Lemma archives_of_app t1 t2 :
  archives_of (t1 ++ t2) = archives_of t1 ++ archives_of t2.
Proof. apply omap_app. Qed.

Lemma logs_of_app t1 t2 : logs_of (t1 ++ t2) = logs_of t1 ++ logs_of t2.
Proof. apply omap_app. Qed.

Lemma calls_of_app t1 t2 : calls_of (t1 ++ t2) = calls_of t1 ++ calls_of t2.
Proof. apply omap_app. Qed.

Lemma parallel_backup_ok job backup_file env (w : World BackupResult) stderr :
  outcome (spawn (Backup.pg_dump env)) = Returned tt ->
  exit (Backup.pg_dump env) = Returned (0, stderr) ->
  Backup.tar_write env = Returned tt ->
  let config := backup_config job in
  let temp_backup_dir :=
    Pathlib.joinpath (Backup.temp_dir env)
                     (Pathlib.stem backup_file +:+ "_dir") in
  let final :=
    Pathlib.with_suffix backup_file (archive_format (compression config)).2 in
  exists w' calls options,
    Backup._create_parallel_backup job backup_file env w = (w', Returned final)
    /\ trace w'
       = trace w
         ++ Spawn (["pg_dump"] ++ Backup.connection_flags (source_config job)
                     ++ ["--verbose"; "--format=directory";
                         "--jobs=" +:+ pretty (parallel_jobs config);
                         "--file"; temp_backup_dir] ++ options)
         :: map call_event calls
         ++ [Archive (archive_format (compression config)).1 final
                     temp_backup_dir].
Proof.
  intros Hspawn Hexit Htar config temp_backup_dir final.
  unfold Backup._create_parallel_backup. fold config temp_backup_dir.
  match goal with
  | |- context [Backup.run_pg_dump ?cmd _ _ ?msg] =>
      destruct (run_pg_dump_ok cmd job env msg w stderr Hspawn Hexit)
        as (w1 & calls & Hrun & Ht1)
  end.
  assert (Htar_run : forall mode file,
             exists w2, Backup.tar mode file temp_backup_dir env w1
                        = (w2, Returned file)
                        /\ trace w2 = trace w1
                                        ++ [Archive mode file temp_backup_dir]).
  { intros mode file. eexists. split.
    - unfold Backup.tar.
      erewrite bind_returned; [|reflexivity].
      erewrite bind_returned; [|unfold lift; rewrite Htar; reflexivity].
      reflexivity.
    - reflexivity. }
  subst final.
  destruct (compression config);
    match goal with
    | |- context [Backup.tar ?mode ?file _ _] =>
        destruct (Htar_run mode file) as (w2 & Hrun2 & Ht2)
    end;
    exists w2, calls; eexists;
    (split; [erewrite bind_returned; [exact Hrun2 | exact Hrun]|]);
    rewrite Ht2, Ht1, <- app_assoc; reflexivity.
Qed.

Lemma custom_backup_ok job backup_file env (w : World BackupResult) stderr :
  outcome (spawn (Backup.pg_dump env)) = Returned tt ->
  exit (Backup.pg_dump env) = Returned (0, stderr) ->
  let config := backup_config job in
  let final :=
    Pathlib.with_suffix backup_file (dump_suffix (compression config)) in
  exists w' calls options,
    Backup._create_custom_backup job backup_file env w = (w', Returned final)
    /\ trace w'
       = trace w
         ++ Spawn (["pg_dump"] ++ Backup.connection_flags (source_config job)
                     ++ ["--verbose"; "--format=custom"] ++ options
                     ++ ["--file"; final])
         :: map call_event calls.
Proof.
  intros Hspawn Hexit config final.
  unfold Backup._create_custom_backup. fold config.
  assert (Hfinal :
            match compression config with
            | CompressionType.GZIP => Pathlib.with_suffix backup_file ".dump.gz"
            | CompressionType.BZIP2 => Pathlib.with_suffix backup_file ".dump.bz2"
            | _ => Pathlib.with_suffix backup_file ".dump"
            end = final)
    by (subst final; by destruct (compression config)).
  rewrite Hfinal.
  match goal with
  | |- context [Backup.run_pg_dump ?cmd _ _ ?msg] =>
      destruct (run_pg_dump_ok cmd job env msg w stderr Hspawn Hexit)
        as (w1 & calls & Hrun & Ht1)
  end.
  exists w1, calls,
    (Backup.structural_flags config ++ Backup.filter_flags config).
  split.
  - erewrite bind_returned; [|exact Hrun]. reflexivity.
  - rewrite Ht1.
    by rewrite <- (app_assoc (Backup.structural_flags config)).
Qed.

(** A dump that fails: the tool was spawned once, and its error output is
    raised. *)
Lemma run_pg_dump_fails cmd job env message (w : World BackupResult)
      code stderr :
  outcome (spawn (Backup.pg_dump env)) = Returned tt ->
  exit (Backup.pg_dump env) = Returned (code, stderr) ->
  code <> 0 ->
  outcome (Backup.read_stderr env) = Returned tt ->
  exists w' calls,
    Backup.run_pg_dump cmd job env message w
    = (w', Raises (Exception ("pg_dump failed: " +:+ stderr)))
    /\ trace w' = trace w ++ Spawn cmd :: map call_event calls.
Proof.
  intros Hspawn Hexit Hcode Hread. unfold Backup.run_pg_dump.
  destruct (await_returned (R := BackupResult) _ tt
              (mkWorld (heap w) (active w) (progress_callbacks w)
                       (trace w ++ [Spawn cmd])) Hspawn)
    as (w2 & Ha & Ht2 & _).
  destruct (monitor_run (R := BackupResult) 300 _ (id job) message w2 _ Hexit)
    as (w3 & earlier & Hm & _ & _ & Hc).
  destruct (await_returned (R := BackupResult) _ tt w3 Hread)
    as (w4 & Hr & Ht4 & _).
  exists w4. eexists.
  split.
  - erewrite bind_returned; [|reflexivity].
    erewrite bind_returned; [|exact Ha].
    unfold _monitor_backup_process.
    erewrite bind_returned; [|exact Hm].
    cbn [fst snd]. replace (code =? 0) with false by (symmetry; lia).
    cbn [negb]. erewrite bind_returned; [|exact Hr]. reflexivity.
  - unfold emitted_calls in Hc. rewrite Ht4, Hc, Ht2.
    cbn [trace]. by rewrite <- app_assoc.
Qed.

(** C6. The strategy of a full backup.  With [parallel_jobs > 1] and a
    compression other than [none], [pg_dump] is run once with
    [--format=directory] and [--jobs=N] into the temporary directory,
    which is then archived once into the artifact: gzip tar ([.tar.gz]),
    bzip2 tar ([.tar.bz2]) or plain tar ([.tar]).  In every other case
    [pg_dump] is run once with [--format=custom] writing the artifact
    itself, whose suffix is [.dump.gz] for gzip, [.dump.bz2] for bzip2 and
    [.dump] otherwise, and nothing is archived or compressed separately.
    There is no fallback: when [pg_dump] exits with an error, its error
    output is raised, after that one run and with nothing archived. *)
Theorem full_backup_strategy
        (job : BackupJob) (backup_file : Pathlib.Path) (env : Backup.Env)
        (w : World BackupResult) (code : Z) (stderr : string) :
  outcome (spawn (Backup.pg_dump env)) = Returned tt ->
  exit (Backup.pg_dump env) = Returned (code, stderr) ->
  let config := backup_config job in
  (code = 0 ->
   directory_strategy_chosen config ->
   Backup.tar_write env = Returned tt ->
   exists w' cmd temp_backup_dir,
     Backup._create_full_backup job backup_file env w
     = (w', Returned (Pathlib.with_suffix backup_file
                        (archive_format (compression config)).2))
     /\ spawned_of (trace w') = spawned_of (trace w) ++ [cmd]
     /\ head cmd = Some "pg_dump"
     /\ "--format=directory" ∈ cmd
     /\ "--jobs=" +:+ pretty (parallel_jobs config) ∈ cmd
     /\ temp_backup_dir ∈ cmd
     /\ Str.startswith (Backup.temp_dir env) temp_backup_dir = true
     /\ archives_of (trace w')
        = archives_of (trace w)
          ++ [((archive_format (compression config)).1,
               Pathlib.with_suffix backup_file
                 (archive_format (compression config)).2)])
  /\
  (code = 0 ->
   ~ directory_strategy_chosen config ->
   exists w' cmd,
     Backup._create_full_backup job backup_file env w
     = (w', Returned (Pathlib.with_suffix backup_file
                        (dump_suffix (compression config))))
     /\ spawned_of (trace w') = spawned_of (trace w) ++ [cmd]
     /\ head cmd = Some "pg_dump"
     /\ "--format=custom" ∈ cmd
     /\ Pathlib.with_suffix backup_file (dump_suffix (compression config)) ∈ cmd
     /\ archives_of (trace w') = archives_of (trace w))
  /\
  (code <> 0 ->
   outcome (Backup.read_stderr env) = Returned tt ->
   exists w' cmd,
     Backup._create_full_backup job backup_file env w
     = (w', Raises (Exception ("pg_dump failed: " +:+ stderr)))
     /\ spawned_of (trace w') = spawned_of (trace w) ++ [cmd]
     /\ archives_of (trace w') = archives_of (trace w)).
Proof.
  intros Hspawn Hexit config. unfold directory_strategy_chosen.
  split; [|split].
  - intros -> [Hjobs Hcomp] Htar.
    destruct (parallel_backup_ok job backup_file env w stderr Hspawn Hexit Htar)
      as (w' & calls & options & Hrun & Ht).
    fold config in Hrun, Ht.
    exists w'. eexists.
    exists (Pathlib.joinpath (Backup.temp_dir env)
                             (Pathlib.stem backup_file +:+ "_dir")).
    split.
    { unfold Backup._create_full_backup. fold config.
      replace (1 <? parallel_jobs config) with true by (symmetry; lia).
      replace (CompressionType.eqb (compression config) CompressionType.NONE)
        with false by (by destruct (compression config)).
      exact Hrun. }
    rewrite Ht, spawned_of_app, archives_of_app.
    change (spawned_of (Spawn ?c :: ?t)) with (c :: spawned_of t).
    change (archives_of (Spawn ?c :: ?t)) with (archives_of t).
    rewrite spawned_of_app, archives_of_app, spawned_of_calls,
      archives_of_calls.
    split; [reflexivity|]. split; [reflexivity|].
    split; [set_solver|]. split; [set_solver|]. split; [set_solver|].
    split; [|reflexivity].
    unfold Pathlib.joinpath. clear.
    induction (Backup.temp_dir env) as [|a t IH]; [done|].
    simpl. by rewrite Ascii.eqb_refl.
  - intros -> Hnot.
    destruct (custom_backup_ok job backup_file env w stderr Hspawn Hexit)
      as (w' & calls & options & Hrun & Ht).
    fold config in Hrun, Ht.
    exists w'. eexists. split.
    { unfold Backup._create_full_backup. fold config.
      destruct (1 <? parallel_jobs config) eqn:Hjobs; [|exact Hrun].
      destruct (compression config) eqn:Hc; try exact Hrun;
        exfalso; apply Hnot; (split; [lia | done]). }
    rewrite Ht, spawned_of_app, archives_of_app.
    change (spawned_of (Spawn ?c :: ?t)) with (c :: spawned_of t).
    change (archives_of (Spawn ?c :: ?t)) with (archives_of t).
    rewrite spawned_of_calls, archives_of_calls, app_nil_r.
    split; [reflexivity|]. split; [reflexivity|].
    split; [set_solver|]. split; [set_solver|]. reflexivity.
  - intros Hcode Hread.
    assert (Hfails : forall cmd message,
               exists w',
                 Backup.run_pg_dump cmd job env message w
                 = (w', Raises (Exception ("pg_dump failed: " +:+ stderr)))
                 /\ spawned_of (trace w') = spawned_of (trace w) ++ [cmd]
                 /\ archives_of (trace w') = archives_of (trace w)).
    { intros cmd message.
      destruct (run_pg_dump_fails cmd job env message w code stderr
                  Hspawn Hexit Hcode Hread) as (w' & calls & Hrun & Ht).
      exists w'. split; [exact Hrun|].
      rewrite Ht, spawned_of_app, archives_of_app.
      change (spawned_of (Spawn ?c :: ?t)) with (c :: spawned_of t).
      change (archives_of (Spawn ?c :: ?t)) with (archives_of t).
      by rewrite spawned_of_calls, archives_of_calls, app_nil_r. }
    unfold Backup._create_full_backup, Backup._create_parallel_backup,
      Backup._create_custom_backup.
    destruct (_ && _);
      match goal with
      | |- context [Backup.run_pg_dump ?cmd _ _ ?msg] =>
          destruct (Hfails cmd msg) as (w' & Hrun & Hspawned & Harchives)
      end;
      exists w'; eexists;
      (split; [erewrite bind_raises; [reflexivity | exact Hrun] | by split]).
Qed.

Lemma full_backup_strategy_witness :
  (exists w' cmd temp_backup_dir,
     Backup._create_full_backup (nightly 4 CompressionType.GZIP)
       "/var/backups/jobname_20240115_020000" smooth_backup idle
     = (w', Returned "/var/backups/jobname_20240115_020000.tar.gz")
     /\ spawned_of (trace w') = [cmd]
     /\ head cmd = Some "pg_dump"
     /\ "--format=directory" ∈ cmd
     /\ "--jobs=4" ∈ cmd
     /\ temp_backup_dir ∈ cmd
     /\ Str.startswith "/tmp/tmpab12" temp_backup_dir = true
     /\ archives_of (trace w')
        = [("w:gz", "/var/backups/jobname_20240115_020000.tar.gz")])
  /\
  (exists w' cmd,
     Backup._create_full_backup (nightly 1 CompressionType.GZIP)
       "/var/backups/jobname_20240115_020000" smooth_backup idle
     = (w', Returned "/var/backups/jobname_20240115_020000.dump.gz")
     /\ spawned_of (trace w') = [cmd]
     /\ head cmd = Some "pg_dump"
     /\ "--format=custom" ∈ cmd
     /\ "/var/backups/jobname_20240115_020000.dump.gz" ∈ cmd
     /\ archives_of (trace w') = [])
  /\
  (exists w' cmd,
     Backup._create_full_backup (nightly 4 CompressionType.GZIP)
       "/var/backups/jobname_20240115_020000" failing_dump idle
     = (w', Raises (Exception "pg_dump failed: connection refused"))
     /\ spawned_of (trace w') = [cmd]
     /\ archives_of (trace w') = []).
Proof.
  split; [|split].
  - apply (full_backup_strategy (nightly 4 CompressionType.GZIP)
             "/var/backups/jobname_20240115_020000" smooth_backup idle 0 ""
             eq_refl eq_refl).
    + reflexivity.
    + split; [reflexivity | discriminate].
    + reflexivity.
  - apply (full_backup_strategy (nightly 1 CompressionType.GZIP)
             "/var/backups/jobname_20240115_020000" smooth_backup idle 0 ""
             eq_refl eq_refl).
    + reflexivity.
    + intros [Hjobs _]. vm_compute in Hjobs. discriminate Hjobs.
  - apply (full_backup_strategy (nightly 4 CompressionType.GZIP)
             "/var/backups/jobname_20240115_020000" failing_dump idle 1
             "connection refused" eq_refl eq_refl).
    + discriminate.
    + reflexivity.
Defined.

(** ** The contract of [create_backup] (C4) *)

Lemma body_preserves job r env : preserves (Backup.body job r env).
Proof. unfold Backup.body. pose proof dump_preserves. frame. Qed.

Lemma body_returned job r env (w wb : World BackupResult) :
  Backup.body job r env w = (wb, Returned tt) ->
  is_Some (heap w !! r) ->
  exists result,
    heap wb !! r = Some result
    /\ status result = BackupStatus.COMPLETED
    /\ end_time result = Some (Backup.t_end env).
Proof.
  intros Hbody Hr. unfold Backup.body in Hbody.
  destruct (bind_inv _ _ _ _ _ Hbody) as [(w1 & file & Hdump & Hrest)|(e & _ & ?)];
    [|done].
  apply dump_preserves in Hdump. destruct (Hdump r Hr) as [result Hresult].
  clear Hbody Hdump Hr.
  unfold update, logger, emit in Hrest. unfold_monad.
  destruct (Backup.sha256 env) as [sum|e]; [|done].
  destruct (Backup.stat_size env) as [size|e]; [|done].
  inversion Hrest; subst; clear Hrest. simpl.
  rewrite !lookup_alter_eq, Hresult. simpl. eauto.
Qed.

Lemma backup_start_run job progress_callback env (w : World BackupResult) :
  exists wr r,
    Backup.start job progress_callback env w = (wr, Returned r)
    /\ is_Some (heap wr !! r).
Proof.
  do 2 eexists. split; [reflexivity|]. simpl.
  rewrite lookup_insert_eq. eauto.
Qed.

(** C4, as stated, fails: a task cancelled while it awaits the probe of the
    database leaves [create_backup] through [asyncio.CancelledError], which
    [except Exception] does not catch; no result is returned and the
    result object is left at [running]. *)
Lemma create_backup_propagates_cancellation :
  exists w',
    Backup.create_backup (nightly 1 CompressionType.GZIP) (Some 7%nat)
                         cancelled_backup idle
    = (w', Raises (BaseException "CancelledError"))
    /\ status <$> heap w' !! 0%nat = Some BackupStatus.RUNNING.
Proof. eexists. split; vm_compute; reflexivity. Qed.

(** C4, amended.  [create_backup] lets no instance of [Exception] through:
    when the body of its [try] returns, it returns the result object with
    status [completed]; when the body raises an [Exception], it returns
    the result object with status [failed], [error_message] set to the
    message of the exception and [end_time] set; only an exception that
    is not an [Exception] (task cancellation, keyboard interrupt, exit)
    propagates.  In every case, once [create_backup] is left the id of
    the job is in neither the registry of active operations nor the
    registry of progress callbacks. *)
Theorem create_backup_contract
        (job : BackupJob) (progress_callback : option Callback)
        (env : Backup.Env) (w : World BackupResult) :
  exists wr r wb ob w' o,
    Backup.start job progress_callback env w = (wr, Returned r)
    /\ Backup.body job r env wr = (wb, ob)
    /\ Backup.create_backup job progress_callback env w = (w', o)
    /\ active w' !! id job = None
    /\ progress_callbacks w' !! id job = None
    /\ match ob with
       | Returned _ =>
           o = Returned r
           /\ exists result,
               heap w' !! r = Some result
               /\ status result = BackupStatus.COMPLETED
               /\ end_time result = Some (Backup.t_end env)
       | Raises (Exception msg) =>
           o = Returned r
           /\ exists result,
               heap w' !! r = Some result
               /\ status result = BackupStatus.FAILED
               /\ error_message result = Some msg
               /\ end_time result = Some (Backup.t_end env)
       | Raises (BaseException msg) => o = Raises (BaseException msg)
       end.
Proof.
  destruct (backup_start_run job progress_callback env w) as (wr & r & Hstart & Hr).
  destruct (Backup.body job r env wr) as [wb ob] eqn:Hbody.
  pose proof (body_preserves _ _ _ _ _ _ Hbody r Hr) as [result Hresult].
  exists wr, r, wb, ob.
  unfold Backup.create_backup. erewrite bind_returned; [|exact Hstart].
  unfold try_finally, try_except, mbind, coroutine_bind, bind.
  rewrite Hbody.
  destruct ob as [[]|[msg|msg]].
  - do 2 eexists. split; [exact Hstart|]. split; [reflexivity|].
    split; [reflexivity|]. simpl.
    split; [apply lookup_delete_eq|]. split; [apply lookup_delete_eq|].
    split; [reflexivity|].
    by apply (body_returned job r env wr wb).
  - unfold on_exception, update, logger, emit. unfold_monad. simpl.
    do 2 eexists. split; [exact Hstart|]. split; [reflexivity|].
    split; [reflexivity|]. simpl.
    split; [apply lookup_delete_eq|]. split; [apply lookup_delete_eq|].
    split; [reflexivity|].
    rewrite !lookup_alter_eq, Hresult. simpl. eauto.
  - do 2 eexists. split; [exact Hstart|]. split; [reflexivity|].
    split; [reflexivity|]. simpl.
    split; [apply lookup_delete_eq|]. split; [apply lookup_delete_eq|].
    reflexivity.
Qed.

(** ** pathlib: a suffix has one dot *)

Lemma rfind_none c s : Str.rfind c s = None -> Str.mem c s = false.
Proof.
  induction s as [|a s IH]; [done|]. simpl.
  destruct (Str.rfind c s); [done|].
  destruct (Ascii.eqb a c); [done|]. intros _. by apply IH.
Qed.

Lemma rfind_last c s i :
  Str.rfind c s = Some i ->
  exists t, Str.drop i s = String c t /\ Str.mem c t = false.
Proof.
  revert i. induction s as [|a s IH]; intros i; [done|]. simpl.
  destruct (Str.rfind c s) as [j|] eqn:Hj.
  - intros [= <-]. simpl. by apply IH.
  - destruct (Ascii.eqb a c) eqn:Hac; [|done]. intros [= <-]. simpl.
    apply Ascii.eqb_eq in Hac. subst a. exists s. split; [done|].
    by apply rfind_none.
Qed.

Lemma last_field_free c s : Str.mem c (Str.last_field c s) = false.
Proof.
  unfold Str.last_field. destruct (Str.rfind c s) as [i|] eqn:Hi.
  - destruct (rfind_last c s i Hi) as (t & Hdrop & Hfree).
    replace (Str.drop (S i) s) with t; [done|].
    clear Hi Hfree. revert s Hdrop.
    induction i as [|i IH]; intros [|a s]; simpl; try done.
    + by intros [= _ ->].
    + apply IH.
  - by apply rfind_none.
Qed.

(** [Path.suffix] is empty or a dot followed by text without a dot. *)
Lemma suffix_single_dot p :
  Pathlib.suffix p = ""
  \/ exists t, Pathlib.suffix p = String "." t /\ Str.mem "." t = false.
Proof.
  unfold Pathlib.suffix, Pathlib.suffix_index.
  destruct (Str.rfind "." (Pathlib.name p)) as [i|] eqn:Hi; [|by left].
  destruct (_ && _); [|by left]. right. by apply rfind_last.
Qed.

(** ** Restore: the dispatch on the format (C1) *)

Lemma restore_start_run backup_file target progress_callback env
      (w : World RestoreResult) :
  exists wr r,
    Restore.start backup_file target progress_callback env w = (wr, Returned r)
    /\ is_Some (heap wr !! r)
    /\ trace wr = trace w.
Proof.
  do 2 eexists. split; [reflexivity|]. simpl.
  rewrite lookup_insert_eq. eauto.
Qed.

(** A path whose suffix is not listed is rejected, and no tool is run. *)
Lemma verify_rejects backup_file env (w : World RestoreResult) :
  Restore.member (Pathlib.suffix backup_file) known_suffixes = false ->
  (forall msg, Restore.file_exists env <> Raises (BaseException msg)) ->
  exists w',
    Restore._verify_backup_file backup_file env w = (w', Returned false)
    /\ heap w' = heap w
    /\ spawned_of (trace w') = spawned_of (trace w).
Proof.
  intros Hsuffix Hexists. unfold known_suffixes, Restore.member in Hsuffix.
  rewrite !existsb_app in Hsuffix.
  apply orb_false_elim in Hsuffix as [Hcustom Hrest].
  apply orb_false_elim in Hrest as [Htar Hsql].
  unfold Restore._verify_backup_file, Restore.member.
  rewrite Hcustom, Htar, Hsql.
  unfold logger, emit. unfold_monad.
  destruct (Restore.file_exists env) as [[]|[msg|msg]].
  - by exists w.
  - by exists w.
  - eexists. split; [reflexivity|]. simpl. split; [done|].
    rewrite spawned_of_app. simpl. by rewrite app_nil_r.
  - by destruct (Hexists msg).
Qed.

Lemma restore_rejected backup_file target progress_callback env
      (w : World RestoreResult) :
  Restore.member (Pathlib.suffix backup_file) known_suffixes = false ->
  (forall msg, Restore.file_exists env <> Raises (BaseException msg)) ->
  exists w' r result,
    Restore.restore_backup backup_file target progress_callback env w
    = (w', Returned r)
    /\ heap w' !! r = Some result
    /\ r_status result = BackupStatus.FAILED
    /\ r_error_message result
       = Some ("Backup file verification failed: " +:+ backup_file)
    /\ spawned_of (trace w') = spawned_of (trace w).
Proof.
  intros Hsuffix Hexists.
  destruct (restore_start_run backup_file target progress_callback env w)
    as (wr & r & Hstart & [result Hresult] & Htrace).
  destruct (verify_rejects backup_file env wr Hsuffix Hexists)
    as (w1 & Hverify & Hheap & Hspawned).
  eexists. exists r. eexists. split; [|split; [|split; [|split]]].
  - unfold Restore.restore_backup. erewrite bind_returned; [|exact Hstart].
    unfold Restore.body, Restore.restore.
    unfold try_finally, try_except, mbind, coroutine_bind, bind at 1 2 3 4.
    rewrite Hverify. simpl.
    unfold on_exception, update, logger, emit. unfold_monad. simpl.
    reflexivity.
  - simpl. rewrite !lookup_alter_eq, Hheap, Hresult. reflexivity.
  - reflexivity.
  - reflexivity.
  - simpl. rewrite spawned_of_app. simpl.
    by rewrite app_nil_r, Hspawned, Htrace.
Qed.

(** C1 (the code departs from it).  [Path.suffix] is the last extension
    only, so the entries [.dump.gz], [.dump.bz2], [.tar.gz], [.tar.bz2]
    and [.sql.gz] of the lists that [_verify_backup_file] and
    [_get_backup_info] consult never match.  With every outside call
    working, or failing, [restore_backup] of [backup.tar.gz],
    [backup.dump.gz] and [backup.sql.gz] ends like that of [backup.xyz]:
    status [failed], "Backup file verification failed", no tool run. *)
Theorem compound_suffix_fails_verification :
  (forall p : Pathlib.Path,
      Restore.member (Pathlib.suffix p)
        [".dump.gz"; ".dump.bz2"; ".tar.gz"; ".tar.bz2"; ".sql.gz"] = false)
  /\ Forall
       (fun backup_file =>
          forall target progress_callback env (w : World RestoreResult),
            match Restore.file_exists env with
            | Raises (BaseException _) => True
            | _ =>
                exists w' r result,
                  Restore.restore_backup backup_file target progress_callback
                                         env w
                  = (w', Returned r)
                  /\ heap w' !! r = Some result
                  /\ r_status result = BackupStatus.FAILED
                  /\ r_error_message result
                     = Some ("Backup file verification failed: " +:+ backup_file)
                  /\ spawned_of (trace w') = spawned_of (trace w)
            end)
       ["backup.tar.gz"; "backup.dump.gz"; "backup.sql.gz"; "backup.xyz"].
Proof.
  split.
  - intros p. destruct (suffix_single_dot p) as [->|(t & -> & Hfree)]; [done|].
    unfold Restore.member. simpl.
    repeat match goal with
           | |- context [String.eqb t ?lit] =>
               destruct (String.eqb_spec t lit) as [->|_]; [done|]
           end.
    done.
  - repeat constructor; intros target progress_callback env w;
      destruct (Restore.file_exists env) as [present|[msg|msg]] eqn:Hexists;
      try done;
      apply restore_rejected; try reflexivity; intros msg'; congruence.
Qed.

(** By contrast an artifact with a single extension is dispatched: the
    tool of its format is run on it. *)
Example single_suffix_is_dispatched :
  last (spawned_of (trace (Restore.restore_backup "backup.dump" localhost None
                             (smooth_restore 10) idle).1))
  = Some ["pg_restore"; "-hlocalhost"; "-p5432"; "-Upostgres"; "-dshop";
          "--verbose"; "--clean"; "--no-owner"; "--no-privileges";
          "backup.dump"]
  /\ last (spawned_of (trace (Restore.restore_backup "backup.tar" localhost None
                                (smooth_restore 10) idle).1))
     = Some ["pg_restore"; "-hlocalhost"; "-p5432"; "-Upostgres"; "-dshop";
             "--verbose"; "--clean"; "--no-owner"; "--no-privileges";
             "--jobs=4"; "/tmp/tmpcd34/jobname_dir"]
  /\ last (spawned_of (trace (Restore.restore_backup "backup.sql" localhost None
                                (smooth_restore 10) idle).1))
     = Some ["psql"; "-hlocalhost"; "-p5432"; "-Upostgres"; "-dshop";
             "--verbose"].
Proof. repeat split; vm_compute; reflexivity. Qed.

(** ** Restore: the verification of the outcome (C8) *)

Lemma verify_backup_file_preserves backup_file env :
  preserves (Restore._verify_backup_file backup_file env).
Proof. unfold Restore._verify_backup_file. frame. Qed.

Lemma get_backup_info_preserves backup_file env :
  preserves (Restore._get_backup_info backup_file env).
Proof.
  unfold Restore._get_backup_info, Restore._get_custom_backup_info. frame.
Qed.

Lemma dispatch_preserves info backup_file target restore_id env :
  preserves (Restore.dispatch info backup_file target restore_id env).
Proof.
  unfold Restore.dispatch, Restore._restore_custom_format,
    Restore._restore_directory_format, Restore._restore_sql_format,
    Restore.run_pg_restore, _monitor_restore_process.
  frame.
Qed.

#[export] Hint Resolve verify_backup_file_preserves get_backup_info_preserves
  dispatch_preserves : frame.

Lemma restore_preserves backup_file target restore_id env :
  preserves (Restore.restore backup_file target restore_id env).
Proof.
  unfold Restore.restore, Restore._handle_existing_database. frame.
Qed.

(** The check itself: the shortfall is logged and the answer is [True]. *)
Lemma verify_restoration_warns info env (w : World RestoreResult)
      (current recorded : Z) :
  outcome (Restore.get_database_info env) = Returned (Some current) ->
  Restore.info_tables_count info = Some recorded ->
  0 < recorded ->
  10 * current < 9 * recorded ->
  exists w',
    Restore._verify_restoration info env w = (w', Returned true)
    /\ extends w w'
    /\ trace w'
       = trace w ++ [Log Level.WARNING
                         ("Table count mismatch: expected " +:+ pretty recorded
                            +:+ ", got " +:+ pretty current)].
Proof.
  intros Hinfo Hrecorded Hpos Hshort.
  destruct (await_returned (R := RestoreResult) _ _ w Hinfo)
    as (w1 & Hawait & Htrace & Hext).
  eexists. split; [|split].
  - unfold Restore._verify_restoration, try_except.
    erewrite bind_returned; [|exact Hawait].
    rewrite Hrecorded. unfold Restore.below_tolerance. simpl.
    replace (0 <? recorded) with true by (symmetry; lia).
    replace (10 * current <? 9 * recorded) with true by (symmetry; lia).
    simpl. reflexivity.
  - intros r Hr. simpl. by apply Hext.
  - simpl. by rewrite Htrace.
Qed.

(** C8. A restore whose steps went through, with a positive table count
    recorded from the artifact and a restored database that answers the
    probe with a count more than 10% short of it: the verification logs
    the mismatch as a warning and passes; [restore_backup] returns the
    result with status [completed] and [verification_passed] true. *)
Theorem shortfall_is_soft
        (backup_file : Pathlib.Path) (target : DatabaseConfig)
        (progress_callback : option Callback) (env : Restore.Env)
        (w wr w1 : World RestoreResult) (r : Ref) (info : Restore.BackupInfo)
        (current recorded : Z) :
  Restore.start backup_file target progress_callback env w = (wr, Returned r) ->
  Restore.restore backup_file target (Restore.restore_id_of env) env wr
  = (w1, Returned info) ->
  outcome (Restore.get_database_info env) = Returned (Some current) ->
  Restore.info_tables_count info = Some recorded ->
  0 < recorded ->
  10 * current < 9 * recorded ->
  exists w' w2 result,
    Restore._verify_restoration info env w1 = (w2, Returned true)
    /\ Restore.restore_backup backup_file target progress_callback env w
       = (w', Returned r)
    /\ heap w' !! r = Some result
    /\ r_status result = BackupStatus.COMPLETED
    /\ verification_passed result = true
    /\ tables_restored result = recorded
    /\ (Level.WARNING,
        "Table count mismatch: expected " +:+ pretty recorded
          +:+ ", got " +:+ pretty current) ∈ logs_of (trace w').
Proof.
  intros Hstart Hrestore Hinfo Hrecorded Hpos Hshort.
  destruct (restore_start_run backup_file target progress_callback env w)
    as (wr' & r' & Hstart' & Hr & _).
  rewrite Hstart in Hstart'. inversion Hstart'; subst wr' r'; clear Hstart'.
  destruct (verify_restoration_warns info env w1 current recorded
              Hinfo Hrecorded Hpos Hshort) as (w2 & Hverify & Hext & Htrace).
  pose proof (restore_preserves _ _ _ _ _ _ _ Hrestore r Hr) as Hr1.
  destruct (Hext r Hr1) as [result Hresult].
  eexists. exists w2. eexists. split; [exact Hverify|]. split; [|split].
  - unfold Restore.restore_backup. erewrite bind_returned; [|exact Hstart].
    unfold Restore.body.
    unfold try_finally, try_except, mbind, coroutine_bind, bind at 1 2 3 4.
    rewrite Hrestore, Hverify.
    unfold update, logger, emit. unfold_monad. simpl. reflexivity.
  - simpl. rewrite lookup_alter_eq, Hresult. reflexivity.
  - simpl. rewrite Hrecorded. repeat split.
    rewrite Htrace, !logs_of_app. simpl. set_solver.
Qed.

Lemma shortfall_is_soft_witness :
  exists w' w2 result,
    Restore._verify_restoration
      (Restore.mkInfo (Some "custom") (Some 10)) (smooth_restore 3)
      (Restore.restore "backup.dump" localhost
         (Restore.restore_id_of (smooth_restore 3)) (smooth_restore 3)
         (Restore.start "backup.dump" localhost (Some 7%nat)
            (smooth_restore 3) idle).1).1
    = (w2, Returned true)
    /\ Restore.restore_backup "backup.dump" localhost (Some 7%nat)
                              (smooth_restore 3) idle
       = (w', Returned 0%nat)
    /\ heap w' !! 0%nat = Some result
    /\ r_status result = BackupStatus.COMPLETED
    /\ verification_passed result = true
    /\ tables_restored result = 10
    /\ (Level.WARNING, "Table count mismatch: expected 10, got 3")
       ∈ logs_of (trace w').
Proof.
  apply (shortfall_is_soft "backup.dump" localhost (Some 7%nat)
           (smooth_restore 3) idle
           (Restore.start "backup.dump" localhost (Some 7%nat)
              (smooth_restore 3) idle).1
           (Restore.restore "backup.dump" localhost
              (Restore.restore_id_of (smooth_restore 3)) (smooth_restore 3)
              (Restore.start "backup.dump" localhost (Some 7%nat)
                 (smooth_restore 3) idle).1).1
           0%nat (Restore.mkInfo (Some "custom") (Some 10)) 3 10).
  - vm_compute. reflexivity.
  - vm_compute. reflexivity.
  - reflexivity.
  - reflexivity.
  - lia.
  - lia.
Defined.

(** ** The retention sweep (C2) *)

Lemma match_classes_split cs s m rest :
  Strptime.match_classes cs s = Some (m, rest) ->
  s = m ++ rest /\ Forall2 (fun (c : Strptime.CharClass) a => c a = true) cs m.
Proof.
  revert s m rest. induction cs as [|c cs IH]; intros s m rest; simpl.
  - intros [= <- <-]. split; [done | constructor].
  - destruct s as [|a s]; [done|].
    destruct (c a) eqn:Hc; [|done].
    destruct (Strptime.match_classes cs s) as [[m' rest']|] eqn:Hm; [|done].
    intros [= <- <-]. destruct (IH _ _ _ Hm) as [-> Hall].
    split; [done | by constructor].
Qed.

(** Every way of matching splits the text into the groups of the
    directives, in order, and a rest. *)
Lemma matches_split ds s groups rest :
  In (groups, rest) (Strptime.matches ds s) ->
  s = concat groups ++ rest
  /\ Forall2
       (fun (dir : Strptime.Directive) g =>
          exists alt, alt ∈ dir
                      /\ Forall2 (fun (c : Strptime.CharClass) a => c a = true)
                                 alt g)
       ds groups.
Proof.
  revert s groups rest. induction ds as [|dir ds IH]; intros s groups rest; simpl.
  - intros [[= <- <-]|[]]. split; [done | constructor].
  - intros Hin. apply in_flat_map in Hin as ([m rest1] & Hdir & Hin).
    apply in_map_iff in Hin as ([ms rest2] & [= <- <-] & Hin).
    destruct (IH _ _ _ Hin) as [-> Hall].
    unfold Strptime.match_directive in Hdir.
    apply list_elem_of_In, list_elem_of_omap in Hdir as (alt & Halt & Hm).
    destruct (match_classes_split _ _ _ _ Hm) as [-> Hclasses].
    split; [simpl; by rewrite <- app_assoc|].
    constructor; [|done]. by exists alt.
Qed.

Lemma mem_list_ascii c s :
  In c (list_ascii_of_string s) -> Str.mem c s = true.
Proof.
  induction s as [|a s IH]; simpl; [done|].
  intros [->|Hin].
  - by rewrite Ascii.eqb_refl.
  - rewrite IH by done. by destruct (Ascii.eqb a c).
Qed.

(** Text that the format ["%Y%m%d_%H%M%S"] accepts holds an underscore. *)
Lemma strptime_needs_underscore s t :
  Strptime.strptime s = Some t -> Str.mem "_" s = true.
Proof.
  unfold Strptime.strptime, Strptime.regex_match. intros Hparse.
  destruct (Strptime.matches Strptime.format_regex (list_ascii_of_string s))
    as [|[groups rest] others] eqn:Hmatches; [done|].
  assert (Hin : In (groups, rest)
                   (Strptime.matches Strptime.format_regex
                                     (list_ascii_of_string s)))
    by (rewrite Hmatches; by left).
  apply matches_split in Hin as [Htext Hgroups].
  apply mem_list_ascii. rewrite Htext.
  unfold Strptime.format_regex in Hgroups.
  repeat match goal with
         | H : Forall2 _ (_ :: _) _ |- _ => inversion H; subst; clear H
         end.
  match goal with
  | H : exists alt, alt ∈ Strptime.literal _ /\ _ |- _ =>
      destruct H as (alt & Halt & Hchars)
  end.
  unfold Strptime.literal in Halt.
  apply list_elem_of_singleton in Halt as ->.
  inversion Hchars as [|c a cs g Hlit Hnil]; subst.
  inversion Hnil; subst.
  unfold Strptime.lit in Hlit. apply Ascii.eqb_eq in Hlit as <-.
  simpl. rewrite !in_app_iff. simpl. tauto.
Qed.

(** What the sweep hands to [strptime] never parses. *)
Lemma timestamp_str_never_parses stem :
  Strptime.strptime (Str.last_field "_" stem) = None.
Proof.
  destruct (Strptime.strptime (Str.last_field "_" stem)) as [t|] eqn:Hparse;
    [|done].
  apply strptime_needs_underscore in Hparse.
  by rewrite last_field_free in Hparse.
Qed.

Lemma sweep_skips_all backup_dir cutoff_date files fs :
  Scheduler.sweep backup_dir cutoff_date files fs = (fs, Returned tt).
Proof.
  induction files as [|file files IH]; simpl; [done|].
  by rewrite timestamp_str_never_parses.
Qed.

(** C2 (the code departs from it).  [_handle_retention] takes the text
    after the LAST underscore of the stem for the timestamp, that is the
    six digits of the time, and [strptime] with ["%Y%m%d_%H%M%S"] rejects
    every text without an underscore: each file is skipped, whatever its
    age.  The sweep leaves every directory as it found it; in particular
    [jobname_20200101_000000.sql], older than the 30 days of retention
    on 15 January 2024, is kept, like [random.sql]. *)
Theorem retention_sweep_deletes_nothing :
  (forall job now fs,
      Scheduler._handle_retention job now fs = (fs, Returned tt))
  /\ Str.last_field "_" (Pathlib.stem "jobname_20200101_000000.sql") = "000000"
  /\ Strptime.strptime "20200101_000000" = Some (instant 2020 1 1 0 0 0)
  /\ instant 2020 1 1 0 0 0
     < instant 2024 1 15 2 5 0 - Datetime.timedelta_days 30
  /\ Scheduler.entries
       (Scheduler._handle_retention (nightly 1 CompressionType.NONE)
                                    (instant 2024 1 15 2 5 0) old_backups).1
     = Scheduler.entries old_backups.
Proof.
  assert (Hnothing : forall job now fs,
             Scheduler._handle_retention job now fs = (fs, Returned tt)).
  { intros job now fs. unfold Scheduler._handle_retention.
    unfold try_except, mbind, coroutine_bind, bind, gets, mret, coroutine_ret,
      ret.
    destruct (Scheduler.present fs); simpl; [|done].
    by rewrite sweep_skips_all. }
  split; [exact Hnothing|].
  split; [reflexivity|]. split; [by vm_compute|]. split; [by vm_compute|].
  by rewrite Hnothing.
Qed.

(** ** The due check of the scheduler (C5) *)

(** C5, as stated, fails on its example: thirty seconds after 02:00 the
    next fire time of ["0 2 * * *"] is 02:00 of the following day, and
    the job is not due in that tick. *)
Lemma not_due_half_a_minute_late :
  Croniter.get_next "0 2 * * *" (instant 2024 1 15 2 0 30)
  = Some (instant 2024 1 16 2 0 0)
  /\ Scheduler._should_run_job Croniter.get_next
       (nightly 1 CompressionType.GZIP) (instant 2024 1 15 2 0 30)
     = false.
Proof. split; vm_compute; reflexivity. Qed.

Lemma get_next_2am now :
  Croniter.get_next "0 2 * * *" now
  = Some (if now <? now / Datetime.day * Datetime.day + 7200 * Datetime.second
          then now / Datetime.day * Datetime.day + 7200 * Datetime.second
          else now / Datetime.day * Datetime.day + 7200 * Datetime.second
               + Datetime.day).
Proof. reflexivity. Qed.

Lemma nightly_due_window jobs c now :
  Scheduler._should_run_job Croniter.get_next (nightly jobs c) now = true
  <-> (3600 + 59 * 60) * Datetime.second <= now mod Datetime.day
      < 2 * 3600 * Datetime.second.
Proof.
  change (Scheduler._should_run_job Croniter.get_next (nightly jobs c) now)
    with (match Croniter.get_next "0 2 * * *" now with
          | Some next_run => Scheduler.within_next_minute now next_run
          | None => false
          end).
  rewrite get_next_2am. unfold Scheduler.within_next_minute.
  unfold Datetime.day, Datetime.second.
  pose proof (Z.div_mod now (86400 * 1000000) ltac:(lia)) as Hdiv.
  pose proof (Z.mod_pos_bound now (86400 * 1000000) ltac:(lia)) as Hmod.
  destruct (Z.ltb_spec now
              (now / (86400 * 1000000) * (86400 * 1000000) + 7200 * 1000000));
    rewrite andb_true_iff, !Z.leb_le; lia.
Qed.

(** C5, amended.  A job with a schedule is due exactly when the next fire
    time that croniter computes from [now] lies 0 to 60 seconds ahead of
    [now].  As croniter's next fire time is strictly later than [now],
    a job with ["0 2 * * *"] is due in the tick that falls in the minute
    BEFORE 02:00 (from 01:59:00 on, 02:00:00 excluded): it is due at
    01:59:30, and neither at 02:00:30 nor at 02:01:30, the next fire time
    then being 02:00 of the following day. *)
Theorem due_check_window
        (croniter_get_next : string -> datetime -> option datetime)
        (job : BackupJob) (now : datetime) (expr : string) :
  schedule job = Some expr ->
  expr <> "" ->
  (Scheduler._should_run_job croniter_get_next job now = true
   <-> exists next_run,
         croniter_get_next expr now = Some next_run
         /\ 0 <= next_run - now <= 60 * Datetime.second)
  /\ (forall t,
        Scheduler._should_run_job Croniter.get_next
          (nightly 1 CompressionType.GZIP) t = true
        <-> (3600 + 59 * 60) * Datetime.second <= t mod Datetime.day
            < 2 * 3600 * Datetime.second)
  /\ Scheduler._should_run_job Croniter.get_next
       (nightly 1 CompressionType.GZIP) (instant 2024 1 15 1 59 30) = true
  /\ Scheduler._should_run_job Croniter.get_next
       (nightly 1 CompressionType.GZIP) (instant 2024 1 15 2 0 30) = false
  /\ Scheduler._should_run_job Croniter.get_next
       (nightly 1 CompressionType.GZIP) (instant 2024 1 15 2 1 30) = false
  /\ Croniter.get_next "0 2 * * *" (instant 2024 1 15 2 1 30)
     = Some (instant 2024 1 16 2 0 0).
Proof.
  intros Hschedule Hexpr. split; [|split; [apply nightly_due_window|]].
  - unfold Scheduler._should_run_job, Scheduler.within_next_minute.
    rewrite Hschedule. destruct expr as [|a expr]; [done|].
    destruct (croniter_get_next (String a expr) now) as [next_run|].
    + rewrite andb_true_iff, !Z.leb_le. split.
      * intros Hwindow. by exists next_run.
      * by intros (? & [= <-] & Hwindow).
    + split; [done | by intros (? & ? & _)].
  - repeat split; vm_compute; reflexivity.
Qed.

Lemma due_check_window_witness :
  (Scheduler._should_run_job Croniter.get_next
     (nightly 1 CompressionType.GZIP) (instant 2024 1 15 1 59 30) = true
   <-> exists next_run,
         Croniter.get_next "0 2 * * *" (instant 2024 1 15 1 59 30)
         = Some next_run
         /\ 0 <= next_run - instant 2024 1 15 1 59 30 <= 60 * Datetime.second).
Proof.
  apply (due_check_window Croniter.get_next (nightly 1 CompressionType.GZIP)
           (instant 2024 1 15 1 59 30) "0 2 * * *").
  - reflexivity.
  - discriminate.
Defined.

(** ** Validation of the filters of a backup (C7) *)

Lemma invalid_names_nil ok prefix names :
  Forall (fun x => ok x = true) names ->
  Validation.invalid_names ok prefix names = [].
Proof.
  unfold Validation.invalid_names. induction 1 as [|x l Hx _ IH]; [done|].
  simpl. rewrite Hx. simpl. exact IH.
Qed.

Lemma elem_of_conflicts x excluded included :
  x ∈ Validation.conflicts excluded included <-> x ∈ excluded /\ x ∈ included.
Proof. unfold Validation.conflicts. set_solver. Qed.

Lemma conflict_errors_disjoint prefix excluded included :
  (forall x, x ∈ excluded -> x ∉ included) ->
  Validation.conflict_errors prefix excluded included = [].
Proof.
  intros Hdisjoint. unfold Validation.conflict_errors.
  destruct (negb _ && negb _); [|done].
  replace (Validation.conflicts excluded included) with (∅ : gset string).
  - by rewrite elements_empty.
  - symmetry. apply set_eq. intros x. rewrite elem_of_conflicts. split.
    + intros [Hex Hin]. by destruct (Hdisjoint x Hex).
    + by intros ?%elem_of_empty.
Qed.

Lemma conflict_errors_overlap prefix excluded included x :
  x ∈ excluded -> x ∈ included ->
  Validation.conflict_errors prefix excluded included
  = [prefix +:+ Str.join ", "
                  (elements (Validation.conflicts excluded included))].
Proof.
  intros Hex Hin. unfold Validation.conflict_errors.
  destruct excluded as [|e excluded]; [by apply elem_of_nil in Hex|].
  destruct included as [|i included]; [by apply elem_of_nil in Hin|].
  simpl.
  destruct (elements (Validation.conflicts (e :: excluded) (i :: included)))
    as [|y l] eqn:Helements; [|done].
  assert (Hx : x ∈ elements (Validation.conflicts (e :: excluded) (i :: included)))
    by (by apply elem_of_elements, elem_of_conflicts).
  rewrite Helements in Hx. by apply elem_of_nil in Hx.
Qed.

(** C7. For a configuration whose names pass the patterns and whose
    [parallel_jobs] is between 1 and 32: with no schema both excluded and
    included and no table both excluded and included,
    [validate_backup_config] returns no error.  For any configuration,
    a schema (a table) both excluded and included yields an error whose
    text lists, after its heading, exactly the schemas (the tables) that
    are on both lists. *)
Theorem validate_backup_config_conflicts (config : BackupConfig) :
  (names_well_formed config ->
   1 <= parallel_jobs config <= 32 ->
   (forall x, x ∈ exclude_schemas config -> x ∉ include_schemas config) ->
   (forall x, x ∈ exclude_tables config -> x ∉ include_tables config) ->
   Validation.validate_backup_config config = [])
  /\ (forall x,
        x ∈ exclude_schemas config -> x ∈ include_schemas config ->
        exists names,
          "Schemas cannot be both included and excluded: "
            +:+ Str.join ", " names
          ∈ Validation.validate_backup_config config
          /\ x ∈ names
          /\ forall y, y ∈ names
                       <-> y ∈ exclude_schemas config
                           /\ y ∈ include_schemas config)
  /\ (forall x,
        x ∈ exclude_tables config -> x ∈ include_tables config ->
        exists names,
          "Tables cannot be both included and excluded: "
            +:+ Str.join ", " names
          ∈ Validation.validate_backup_config config
          /\ x ∈ names
          /\ forall y, y ∈ names
                       <-> y ∈ exclude_tables config
                           /\ y ∈ include_tables config).
Proof.
  unfold Validation.validate_backup_config. split; [|split].
  - intros (Hes & His & Het & Hit) Hjobs Hschemas Htables.
    rewrite !invalid_names_nil, !conflict_errors_disjoint by done.
    unfold Datetime.between.
    replace (1 <=? parallel_jobs config) with true by (symmetry; lia).
    by replace (parallel_jobs config <=? 32) with true by (symmetry; lia).
  - intros x Hex Hin.
    exists (elements (Validation.conflicts (exclude_schemas config)
                                           (include_schemas config))).
    split; [|split].
    + rewrite (conflict_errors_overlap _ _ _ x Hex Hin).
      rewrite !elem_of_app. do 5 right. left. apply list_elem_of_here.
    + by apply elem_of_elements, elem_of_conflicts.
    + intros y. by rewrite elem_of_elements, elem_of_conflicts.
  - intros x Hex Hin.
    exists (elements (Validation.conflicts (exclude_tables config)
                                           (include_tables config))).
    split; [|split].
    + rewrite (conflict_errors_overlap _ _ _ x Hex Hin).
      rewrite !elem_of_app. do 6 right. apply list_elem_of_here.
    + by apply elem_of_elements, elem_of_conflicts.
    + intros y. by rewrite elem_of_elements, elem_of_conflicts.
Qed.

Lemma validate_backup_config_conflicts_witness :
  Validation.validate_backup_config
    (filters ["audit"] ["public"] ["public.logs"] ["public.users"]) = []
  /\ exists names,
       "Schemas cannot be both included and excluded: " +:+ Str.join ", " names
       ∈ Validation.validate_backup_config
           (filters ["audit"; "public"] ["public"] [] [])
       /\ "public" ∈ names
       /\ forall y, y ∈ names
                    <-> y ∈ ["audit"; "public"] /\ y ∈ ["public"].
Proof.
  split.
  - apply (validate_backup_config_conflicts
             (filters ["audit"] ["public"] ["public.logs"] ["public.users"])).
    + unfold names_well_formed. simpl. repeat split; by repeat constructor.
    + simpl. lia.
    + simpl. intros x Hx%list_elem_of_singleton Hy%list_elem_of_singleton.
      congruence.
    + simpl. intros x Hx%list_elem_of_singleton Hy%list_elem_of_singleton.
      congruence.
  - apply (validate_backup_config_conflicts
             (filters ["audit"; "public"] ["public"] [] []) ).
    + simpl. apply list_elem_of_further, list_elem_of_here.
    + simpl. apply list_elem_of_here.
Defined.

(** * Further properties of the code *)

(** ** Text and paths *)

Lemma length_append (a b : string) :
  String.length (a +:+ b) = (String.length a + String.length b)%nat.
Proof.
  induction a as [|c a IH]; [done|]. change (String c a +:+ b)
    with (String c (a +:+ b)). simpl. by rewrite IH.
Qed.

Lemma append_cons x (a b : string) : String x a +:+ b = String x (a +:+ b).
Proof. reflexivity. Qed.

Lemma append_assoc (a b c : string) : (a +:+ b) +:+ c = a +:+ b +:+ c.
Proof.
  induction a as [|x a IH]; [done|]. by rewrite !append_cons, IH.
Qed.

Lemma append_nil_r (a : string) : a +:+ "" = a.
Proof. induction a as [|x a IH]; [done|]. by rewrite append_cons, IH. Qed.

Lemma mem_append c (a b : string) :
  Str.mem c (a +:+ b) = Str.mem c a || Str.mem c b.
Proof.
  induction a as [|x a IH]; [done|]. rewrite append_cons. simpl.
  by rewrite IH, orb_assoc.
Qed.

Lemma mem_rfind_none c s : Str.mem c s = false -> Str.rfind c s = None.
Proof.
  induction s as [|a s IH]; simpl; [done|].
  intros [Ha Hs]%orb_false_elim. by rewrite IH, Ha.
Qed.

Lemma rfind_append c (a b : string) :
  Str.rfind c (a +:+ b)
  = match Str.rfind c b with
    | Some j => Some (String.length a + j)%nat
    | None => Str.rfind c a
    end.
Proof.
  induction a as [|x a IH].
  - change ("" +:+ b) with b. by destruct (Str.rfind c b).
  - rewrite append_cons. simpl. rewrite IH. by destruct (Str.rfind c b).
Qed.

Lemma drop_append (a b : string) n :
  Str.drop (String.length a + n) (a +:+ b) = Str.drop n b.
Proof. induction a as [|x a IH]; [done|]. rewrite append_cons. exact IH. Qed.

Lemma take_append (a b : string) n :
  Str.take (String.length a + n) (a +:+ b) = a +:+ Str.take n b.
Proof.
  induction a as [|x a IH]; [done|]. rewrite !append_cons. simpl.
  by rewrite IH.
Qed.

Lemma mem_take c n s : Str.mem c s = false -> Str.mem c (Str.take n s) = false.
Proof.
  revert s. induction n as [|n IH]; intros [|a s]; simpl; try done.
  intros [Ha Hs]%orb_false_elim. by rewrite Ha, IH.
Qed.

Lemma rfind_cons_same c (b : string) :
  Str.rfind c (String c b)
  = Some (match Str.rfind c b with Some j => S j | None => O end).
Proof. simpl. rewrite Ascii.eqb_refl. by destruct (Str.rfind c b). Qed.

Lemma last_field_append c (a b : string) :
  Str.last_field c (a +:+ String c b) = Str.last_field c b.
Proof.
  unfold Str.last_field. rewrite rfind_append, rfind_cons_same.
  rewrite <- Nat.add_succ_r, drop_append.
  by destruct (Str.rfind c b).
Qed.

Lemma name_joinpath dir file :
  Pathlib.name (Pathlib.joinpath dir file) = Pathlib.name file.
Proof. apply last_field_append. Qed.

Lemma name_free p : Str.mem "/" (Pathlib.name p) = false.
Proof. apply last_field_free. Qed.

Lemma stem_free p : Str.mem "/" (Pathlib.stem p) = false.
Proof.
  unfold Pathlib.stem. destruct (Pathlib.suffix_index _).
  - apply mem_take, name_free.
  - apply name_free.
Qed.

Lemma take_rfind c s i :
  Str.rfind c s = Some i -> Str.take (S i) s = Str.take i s +:+ String c "".
Proof.
  revert i. induction s as [|a s IH]; intros i; [done|].
  cbn [Str.rfind]. destruct (Str.rfind c s) as [j|].
  - intros [= <-]. change (Str.take (S (S j)) (String a s))
      with (String a (Str.take (S j) s)).
    by rewrite (IH j eq_refl).
  - destruct (Ascii.eqb_spec a c) as [->|]; [|done]. by intros [= <-].
Qed.

Lemma name_parent_free p file :
  Str.mem "/" file = false ->
  Pathlib.name (Pathlib.parent_prefix p +:+ file) = file.
Proof.
  intros Hfree. unfold Pathlib.parent_prefix, Pathlib.name.
  destruct (Str.rfind "/" p) as [i|] eqn:Hi.
  - rewrite (take_rfind _ _ _ Hi), append_assoc.
    change (String "/" "" +:+ file) with (String "/" file).
    rewrite last_field_append.
    unfold Str.last_field. by rewrite mem_rfind_none.
  - change ("" +:+ file) with file.
    unfold Str.last_field. by rewrite mem_rfind_none.
Qed.

(** A name made of a non-empty body, a dot and a non-empty extension
    without dot: the suffix is the dot and the extension. *)
Lemma suffix_of_name p body ext :
  Pathlib.name p = body +:+ String "." ext ->
  body <> "" -> ext <> "" -> Str.mem "." ext = false ->
  Pathlib.suffix p = String "." ext /\ Pathlib.stem p = body.
Proof.
  intros Hname Hbody Hext Hfree.
  unfold Pathlib.suffix, Pathlib.stem, Pathlib.suffix_index.
  rewrite Hname, rfind_append, rfind_cons_same, (mem_rfind_none _ _ Hfree).
  rewrite length_append. cbn [String.length].
  assert (0 < String.length body)%nat by (destruct body; [done | simpl; lia]).
  assert (0 < String.length ext)%nat by (destruct ext; [done | simpl; lia]).
  replace (Nat.ltb 0 (String.length body + 0)) with true
    by (symmetry; apply Nat.ltb_lt; lia).
  replace (Nat.ltb (S (String.length body + 0))
                   (String.length body + S (String.length ext))) with true
    by (symmetry; apply Nat.ltb_lt; lia).
  cbn [andb]. split.
  - by rewrite drop_append.
  - rewrite take_append. apply append_nil_r.
Qed.

Lemma name_with_suffix p s :
  Str.mem "/" s = false ->
  Pathlib.name (Pathlib.with_suffix p s) = Pathlib.stem p +:+ s.
Proof.
  intros Hs. unfold Pathlib.with_suffix. apply name_parent_free.
  by rewrite mem_append, stem_free, Hs.
Qed.

Lemma last_field_without c s : Str.mem c s = false -> Str.last_field c s = s.
Proof. intros Hs. unfold Str.last_field. by rewrite mem_rfind_none. Qed.

Lemma append_not_nil_r (a b : string) : b <> "" -> a +:+ b <> "".
Proof.
  intros Hb Hab. apply (f_equal String.length) in Hab.
  rewrite length_append in Hab. destruct b; [done|]. simpl in Hab. lia.
Qed.

Lemma append_not_nil_l (a b : string) : a <> "" -> a +:+ b <> "".
Proof. destruct a; [done|]. by rewrite append_cons. Qed.

Lemma stem_without_dot p :
  Str.mem "." (Pathlib.name p) = false -> Pathlib.stem p = Pathlib.name p.
Proof.
  intros Hfree. unfold Pathlib.stem, Pathlib.suffix_index.
  by rewrite (mem_rfind_none _ _ Hfree).
Qed.

(** Replacing the suffix by one that ends in a dot and an extension. *)
Lemma suffix_with_suffix p body ext :
  ext <> "" -> Str.mem "." ext = false ->
  Str.mem "/" (body +:+ String "." ext) = false ->
  Pathlib.stem p +:+ body <> "" ->
  Pathlib.suffix (Pathlib.with_suffix p (body +:+ String "." ext))
  = String "." ext
  /\ Pathlib.stem (Pathlib.with_suffix p (body +:+ String "." ext))
     = Pathlib.stem p +:+ body.
Proof.
  intros Hext Hdot Hslash Hbody. apply suffix_of_name; try done.
  by rewrite name_with_suffix, append_assoc.
Qed.

(** ** Relations that every step of a manager keeps *)

Section LastingLemmas.
Context {R : Type} `{OperationResult R}.
Context (I : World R -> World R -> Prop) `{!Lasting I}.

Lemma respects_mret {A} (a : A) : respects I (mret a).
Proof. intros w w' o Hm. inversion Hm. apply lasting_refl. Qed.

Lemma respects_raise {A} e : respects I (raise (A := A) e).
Proof. intros w w' o Hm. inversion Hm. apply lasting_refl. Qed.

Lemma respects_lift {A} (o : Outcome A) : respects I (lift o).
Proof. intros w w' o' Hm. inversion Hm. apply lasting_refl. Qed.

Lemma respects_bind {A B} (m : M (World R) A) (k : A -> M (World R) B) :
  respects I m -> (forall a, respects I (k a)) -> respects I (m ≫= k).
Proof.
  intros Hm Hk w w' o Hrun.
  destruct (bind_inv _ _ _ _ _ Hrun) as [(w1 & a & H1 & H2)|(e & H1 & _)].
  - eapply lasting_trans; [eapply Hm | eapply Hk]; eauto.
  - eapply Hm; eauto.
Qed.

Lemma respects_try_except {A} (body : M (World R) A) handler :
  respects I body -> (forall msg, respects I (handler msg)) ->
  respects I (try_except body handler).
Proof.
  intros Hb Hh w w' o Hrun. unfold try_except in Hrun.
  destruct (body w) as [w1 [a|[msg|msg]]] eqn:Hbody.
  - inversion Hrun; subst. eapply Hb; eauto.
  - eapply lasting_trans; [eapply Hb | eapply Hh]; eauto.
  - inversion Hrun; subst. eapply Hb; eauto.
Qed.

(** What follows a first step whose run is known. *)
Lemma bind_rest {A B} (m : M (World R) A) (k : A -> M (World R) B)
      w w1 o1 w' o :
  m w = (w1, o1) -> (m ≫= k) w = (w', o) ->
  (forall a, respects I (k a)) -> I w1 w'.
Proof.
  intros Hm Hrun Hk. unfold mbind, coroutine_bind, bind in Hrun.
  rewrite Hm in Hrun. destruct o1 as [a|e].
  - by eapply Hk.
  - inversion Hrun. apply lasting_refl.
Qed.

Lemma try_except_rest {A} (body : M (World R) A) handler w w1 o1 w' o :
  body w = (w1, o1) -> try_except body handler w = (w', o) ->
  (forall msg, respects I (handler msg)) -> I w1 w'.
Proof.
  intros Hbody Hrun Hh. unfold try_except in Hrun. rewrite Hbody in Hrun.
  destruct o1 as [a|[msg|msg]].
  - inversion Hrun. apply lasting_refl.
  - by eapply Hh.
  - inversion Hrun. apply lasting_refl.
Qed.

Lemma respects_interleave l : respects I (interleave l).
Proof.
  induction l as [|[op_id now] l IH]; [apply respects_mret|].
  cbn [interleave run_action]. apply respects_bind; [|done].
  apply respects_bind; [apply lasting_cancel | intros; apply respects_mret].
Qed.

Lemma respects_await {A} (a : Await A) : respects I (await a).
Proof.
  unfold await. apply respects_bind;
    [apply respects_interleave | intros; apply respects_lift].
Qed.

End LastingLemmas.

Section FootprintLemmas.
Context {R : Type} `{OperationResult R}.
Context (I : World R -> World R -> Prop) `{!Footprint I}.

Lemma respects_notify op_id percent message :
  respects I (notify op_id percent message).
Proof.
  intros w w' o Hn. unfold notify in Hn.
  destruct (progress_callbacks w !! op_id) as [cb|].
  - eapply footprint_call; eauto.
  - inversion Hn. apply lasting_refl.
Qed.

Lemma respects_monitor_loop total op_id message l :
  respects I (monitor_loop total op_id message l).
Proof.
  induction l as [|p l IH]; [apply respects_mret; apply _|].
  cbn [monitor_loop].
  apply respects_bind; [apply _ | apply respects_interleave; apply _|].
  intros _. apply respects_bind; [apply _ | apply respects_notify | done].
Qed.

Lemma respects_monitor total run op_id message :
  respects I (monitor total run op_id message).
Proof.
  unfold monitor.
  apply respects_bind; [apply _ | apply respects_monitor_loop|].
  intros _. apply respects_bind; [apply _ | apply respects_lift; apply _|].
  intros state. apply respects_bind; [apply _ | apply respects_notify|].
  intros _. apply respects_mret; apply _.
Qed.

End FootprintLemmas.

Create HintDb footprint discriminated.
#[export] Hint Resolve respects_mret respects_raise respects_lift
  respects_interleave respects_await respects_notify respects_monitor
  lasting_log lasting_cancel footprint_call : footprint.

(** Splits a coroutine along its binds, its handlers and its tests. *)
Ltac footprint :=
  repeat first
    [ solve [eauto with footprint typeclass_instances]
    | apply respects_bind; [solve [apply _] | | intros ?]
    | apply respects_try_except; [solve [apply _] | | intros ?]
    | match goal with
      | |- respects _ (if ?b then _ else _) => destruct b
      | |- respects _ (match ?x with _ => _ end) => destruct x
      end ].

Lemma respects_run {R A} (I : World R -> World R -> Prop)
      (m : M (World R) A) w w' o :
  respects I m -> m w = (w', o) -> I w w'.
Proof. intros Hm Hrun. by eapply Hm. Qed.

Lemma bind_inv_respects {R A B} (I : World R -> World R -> Prop)
      (m : M (World R) A) (k : A -> M (World R) B) w w' o :
  respects I m ->
  (m ≫= k) w = (w', o) ->
  (exists w1 a, m w = (w1, Returned a) /\ I w w1 /\ k a w1 = (w', o))
  \/ (exists e, m w = (w', Raises e) /\ I w w' /\ o = Raises e).
Proof.
  intros Hm Hrun.
  destruct (bind_inv _ _ _ _ _ Hrun) as [(w1 & a & H1 & H2)|(e & H1 & ->)].
  - left. exists w1, a. split; [done|]. split; [by eapply Hm | done].
  - right. exists e. split; [done|]. split; [by eapply Hm | done].
Qed.

Lemma respects_update {R} (I : World R -> World R -> Prop) r f :
  (forall w, I w (mkWorld (alter f r (heap w)) (active w)
                          (progress_callbacks w) (trace w))) ->
  respects I (update r f).
Proof. intros HI w w' o Hm. inversion Hm; subst. apply HI. Qed.

Lemma respects_emit {R} (I : World R -> World R -> Prop) e :
  (forall w, I w (mkWorld (heap w) (active w) (progress_callbacks w)
                          (trace w ++ [e]))) ->
  respects I (emit e).
Proof. intros HI w w' o Hm. inversion Hm; subst. apply HI. Qed.

(** *** What is added to the trace *)

Section Adds.
Context {R : Type} `{OperationResult R}.
Variable P : Event -> Prop.

Lemma adds_refl (w : World R) : adds P w w.
Proof. exists []. by rewrite app_nil_r. Qed.

Lemma adds_trans (w1 w2 w3 : World R) :
  adds P w1 w2 -> adds P w2 w3 -> adds P w1 w3.
Proof.
  intros (e12 & H12 & HP12) (e23 & H23 & HP23). exists (e12 ++ e23).
  split; [by rewrite H23, H12, app_assoc | by apply Forall_app].
Qed.

Lemma adds_same_trace (w w' : World R) : trace w' = trace w -> adds P w w'.
Proof. intros Ht. exists []. by rewrite app_nil_r. Qed.

Lemma adds_emit e : P e -> respects (R := R) (adds P) (emit e).
Proof.
  intros He. apply respects_emit. intros w. exists [e]. split; [done|].
  by constructor.
Qed.

Lemma adds_update r f : respects (R := R) (adds P) (update r f).
Proof. apply respects_update. intros w. by apply adds_same_trace. Qed.

Lemma adds_lasting :
  (forall level message, P (Log level message)) -> Lasting (R := R) (adds P).
Proof.
  intros Hlog. split.
  - apply adds_refl.
  - apply adds_trans.
  - intros op_id now w w' o Hc. apply adds_same_trace. unfold cancel in Hc.
    destruct (active w !! op_id); by inversion Hc.
  - intros level message. by apply adds_emit.
Qed.

Lemma adds_footprint :
  (forall level message, P (Log level message)) ->
  (forall cb percent message, P (Call cb percent message)) ->
  Footprint (R := R) (adds P).
Proof.
  intros Hlog Hcall. split; [by apply adds_lasting|].
  intros cb percent message. by apply adds_emit.
Qed.

End Adds.

(** *** Objects evolve *)

Section Evolution.
Context {R : Type} `{OperationResult R}.
Context (Q : R -> R -> Prop).
Hypothesis Q_refl : forall a, Q a a.
Hypothesis Q_trans : forall a b c, Q a b -> Q b c -> Q a c.
Hypothesis Q_cancel :
  forall now a, Q a (set_end_time now (set_status BackupStatus.CANCELLED a)).

Lemma evolves_refl (w : World R) : evolves Q w w.
Proof. intros r result Hr. eauto. Qed.

Lemma evolves_trans (w1 w2 w3 : World R) :
  evolves Q w1 w2 -> evolves Q w2 w3 -> evolves Q w1 w3.
Proof.
  intros H12 H23 r a Hr.
  destruct (H12 r a Hr) as (b & Hb & Hab).
  destruct (H23 r b Hb) as (c & Hc & Hbc). eauto.
Qed.

Lemma evolves_same_heap (w w' : World R) : heap w' = heap w -> evolves Q w w'.
Proof. intros Hh r result Hr. rewrite Hh. eauto. Qed.

Lemma evolves_alter (w w' : World R) r f :
  heap w' = alter f r (heap w) -> (forall a, Q a (f a)) -> evolves Q w w'.
Proof.
  intros Hh Hf r' a Hr. rewrite Hh.
  destruct (decide (r' = r)) as [->|Hne].
  - rewrite lookup_alter_eq, Hr. simpl. eauto.
  - rewrite lookup_alter_ne by done. eauto.
Qed.

Lemma evolves_footprint : Footprint (evolves Q).
Proof.
  split; [split|].
  - apply evolves_refl.
  - apply evolves_trans.
  - intros op_id now w w' o Hc. unfold cancel in Hc.
    destruct (active w !! op_id) as [r|]; inversion Hc; subst.
    + eapply evolves_alter; [reflexivity|]. intros a. apply Q_cancel.
    + apply evolves_refl.
  - intros l m. apply respects_emit. intros w. by apply evolves_same_heap.
  - intros cb p m. apply respects_emit. intros w. by apply evolves_same_heap.
Qed.

Lemma evolves_emit e : respects (evolves Q) (emit e).
Proof. apply respects_emit. intros w. by apply evolves_same_heap. Qed.

Lemma evolves_update r f :
  (forall a, Q a (f a)) -> respects (evolves Q) (update r f).
Proof. intros Hf. apply respects_update. intros w. by eapply evolves_alter. Qed.

End Evolution.

Lemma same_payload_refl a : same_payload a a.
Proof. by repeat split. Qed.

Lemma same_payload_trans a b c :
  same_payload a b -> same_payload b c -> same_payload a c.
Proof. unfold same_payload. intros; intuition congruence. Qed.

Lemma same_payload_cancel now (a : BackupResult) :
  same_payload a (set_end_time now (set_status BackupStatus.CANCELLED a)).
Proof. by repeat split. Qed.

#[export] Instance payload_footprint : Footprint (evolves same_payload).
Proof.
  apply evolves_footprint;
    [apply same_payload_refl | apply same_payload_trans
    | apply same_payload_cancel].
Qed.

#[export] Instance job_footprint : Footprint (evolves same_job).
Proof.
  apply evolves_footprint; unfold same_job; simpl; congruence.
Qed.

Lemma payload_emit e : respects (evolves same_payload) (emit e).
Proof. apply evolves_emit, same_payload_refl. Qed.

Lemma job_emit e : respects (evolves same_job) (emit e).
Proof. by apply evolves_emit. Qed.

(** *** Objects that are not registered are not written *)

Section Untouched.
Context {R : Type} `{OperationResult R}.
Variable r0 : Ref.

Lemma untouched_refl (w : World R) : untouched r0 w w.
Proof. by intros result Hr Ha. Qed.

Lemma untouched_trans (w1 w2 w3 : World R) :
  untouched r0 w1 w2 -> untouched r0 w2 w3 -> untouched r0 w1 w3.
Proof.
  intros H12 H23 result Hr Ha.
  destruct (H12 result Hr Ha) as [Hr2 Ha2]. by apply H23.
Qed.

Lemma untouched_emit e : respects (R := R) (untouched r0) (emit e).
Proof. apply respects_emit. by intros w result Hr Ha. Qed.

#[export] Instance untouched_footprint : Footprint (R := R) (untouched r0).
Proof.
  split; [split|].
  - apply untouched_refl.
  - apply untouched_trans.
  - intros op_id now w w' o Hc result Hr Ha. unfold cancel in Hc.
    destruct (active w !! op_id) as [r|] eqn:Hreg; inversion Hc; subst.
    + cbn [heap active]. split.
      * rewrite lookup_alter_ne; [done|]. intros ->. by apply (Ha op_id).
      * intros other Hother.
        destruct (decide (other = op_id)) as [->|Hne].
        -- by rewrite lookup_delete_eq in Hother.
        -- rewrite lookup_delete_ne in Hother by done. by apply (Ha other).
    + done.
  - intros. apply untouched_emit.
  - intros. apply untouched_emit.
Qed.

Lemma untouched_update r f :
  r <> r0 -> respects (R := R) (untouched r0) (update r f).
Proof.
  intros Hne. apply respects_update. intros w result Hr Ha. cbn [heap active].
  split; [|done]. by rewrite lookup_alter_ne.
Qed.

End Untouched.

#[export] Hint Resolve payload_emit job_emit untouched_emit : footprint.

(** ** The backup executor, step by step *)

Lemma run_pg_dump_respects (I : World BackupResult -> World BackupResult -> Prop)
      `{!Footprint I} cmd job env message :
  (forall e, respects I (emit e)) ->
  respects I (Backup.run_pg_dump cmd job env message).
Proof.
  intros Hemit. unfold Backup.run_pg_dump, _monitor_backup_process. footprint.
Qed.

Lemma full_backup_respects (I : World BackupResult -> World BackupResult -> Prop)
      `{!Footprint I} job backup_file env :
  (forall e, respects I (emit e)) ->
  respects I (Backup._create_full_backup job backup_file env).
Proof.
  intros Hemit. pose proof (run_pg_dump_respects I) as Hrun.
  unfold Backup._create_full_backup, Backup._create_parallel_backup,
    Backup._create_custom_backup, Backup.tar.
  footprint.
Qed.

Lemma dump_respects (I : World BackupResult -> World BackupResult -> Prop)
      `{!Footprint I} job r env :
  (forall e, respects I (emit e)) ->
  (forall f, respects I (update r f)) ->
  respects I (Backup.dump job r env).
Proof.
  intros Hemit Hupdate. pose proof (full_backup_respects I) as Hfull.
  unfold Backup.dump. footprint.
Qed.

Lemma body_respects (I : World BackupResult -> World BackupResult -> Prop)
      `{!Footprint I} job r env :
  (forall e, respects I (emit e)) ->
  (forall f, respects I (update r f)) ->
  respects I (Backup.body job r env).
Proof.
  intros Hemit Hupdate. pose proof (dump_respects I) as Hdump.
  unfold Backup.body. footprint.
Qed.

(** ** The outcome of a backup *)

(** An awaited call that returns, seen through a relation that lasts. *)
Lemma await_lasting {R : Type} `{OperationResult R}
      (I : World R -> World R -> Prop) `{!Lasting I}
      {A} (a : Await A) (x : A) (w : World R) :
  outcome a = Returned x ->
  exists w', await a w = (w', Returned x) /\ trace w' = trace w /\ I w w'.
Proof.
  intros Ho. destruct (await_returned a x w Ho) as (w' & Ha & Ht & _).
  exists w'. split; [done|]. split; [done|].
  by apply (respects_await I a w w' (Returned x)).
Qed.

Lemma full_backup_ok job backup_file env (w : World BackupResult) stderr :
  outcome (spawn (Backup.pg_dump env)) = Returned tt ->
  exit (Backup.pg_dump env) = Returned (0, stderr) ->
  ((1 <? parallel_jobs (backup_config job))
   && negb (CompressionType.eqb (compression (backup_config job))
                                CompressionType.NONE) = true ->
   Backup.tar_write env = Returned tt) ->
  exists w',
    Backup._create_full_backup job backup_file env w
    = (w', Returned (Pathlib.with_suffix backup_file
                       (artifact_suffix (backup_config job)))).
Proof.
  intros Hspawn Hexit Htar.
  unfold Backup._create_full_backup, artifact_suffix.
  destruct ((1 <? parallel_jobs (backup_config job)) && _) eqn:Hstrategy.
  - destruct (parallel_backup_ok job backup_file env w stderr Hspawn Hexit
                (Htar eq_refl)) as (w' & _ & _ & Hrun & _).
    by exists w'.
  - destruct (custom_backup_ok job backup_file env w stderr Hspawn Hexit)
      as (w' & _ & _ & Hrun & _).
    by exists w'.
Qed.

Lemma full_backup_fails job backup_file env (w : World BackupResult)
      code stderr :
  outcome (spawn (Backup.pg_dump env)) = Returned tt ->
  exit (Backup.pg_dump env) = Returned (code, stderr) ->
  code <> 0 ->
  outcome (Backup.read_stderr env) = Returned tt ->
  exists w' cmd calls,
    Backup._create_full_backup job backup_file env w
    = (w', Raises (Exception ("pg_dump failed: " +:+ stderr)))
    /\ trace w' = trace w ++ Spawn cmd :: map call_event calls
    /\ head cmd = Some "pg_dump".
Proof.
  intros Hspawn Hexit Hcode Hread.
  unfold Backup._create_full_backup, Backup._create_parallel_backup,
    Backup._create_custom_backup.
  destruct ((1 <? parallel_jobs (backup_config job)) && _);
    match goal with
    | |- context [Backup.run_pg_dump ?cmd _ _ ?msg] =>
        destruct (run_pg_dump_fails cmd job env msg w code stderr
                    Hspawn Hexit Hcode Hread) as (w' & calls & Hrun & Ht);
        exists w', cmd, calls
    end;
    (split; [by erewrite bind_raises | by split]).
Qed.

(** The world in which the [try] of [create_backup] starts. *)
Lemma backup_start_spec job progress_callback env (w : World BackupResult) :
  exists wr r,
    Backup.start job progress_callback env w = (wr, Returned r)
    /\ heap w !! r = None
    /\ heap wr
       = <[r := {| job_id := id job; status := BackupStatus.RUNNING;
                   backup_file := None; start_time := Backup.t_start env;
                   end_time := None; size_bytes := 0; tables_count := 0;
                   error_message := None; checksum := None |}]> (heap w)
    /\ active wr = <[id job := r]> (active w)
    /\ progress_callbacks wr
       = match progress_callback with
         | Some cb => <[id job := cb]> (progress_callbacks w)
         | None => progress_callbacks w
         end
    /\ trace wr = trace w.
Proof.
  do 2 eexists. split; [reflexivity|]. cbn [heap active progress_callbacks trace].
  split; [|done]. apply not_elem_of_dom, is_fresh.
Qed.

(** [create_backup] in terms of the [try] and its handler. *)
Lemma create_backup_run job progress_callback env (w wr wb : World BackupResult)
      r ob :
  Backup.start job progress_callback env w = (wr, Returned r) ->
  try_except (Backup.body job r env)
             (on_exception r (Backup.t_end env) "Backup") wr = (wb, ob) ->
  Backup.create_backup job progress_callback env w
  = (cleanup (id job) wb,
     match ob with Returned _ => Returned r | Raises e => Raises e end).
Proof.
  intros Hstart Htry. unfold Backup.create_backup.
  erewrite bind_returned; [|exact Hstart].
  unfold try_finally, mbind, coroutine_bind, bind. rewrite Htry.
  by destruct ob.
Qed.

(** The handler of [create_backup] on a result object that exists. *)
Lemma on_exception_run (r : Ref) now what msg (w : World BackupResult) result :
  heap w !! r = Some result ->
  exists w',
    on_exception r now what msg w = (w', Returned tt)
    /\ heap w' !! r
       = Some {| job_id := job_id result; status := BackupStatus.FAILED;
                 backup_file := backup_file result;
                 start_time := start_time result; end_time := Some now;
                 size_bytes := size_bytes result;
                 tables_count := tables_count result;
                 error_message := Some msg; checksum := checksum result |}
    /\ trace w' = trace w ++ [Log Level.ERROR (what +:+ " failed: " +:+ msg)].
Proof.
  intros Hr. eexists. split; [reflexivity|]. cbn [heap trace].
  split; [|done]. rewrite !lookup_alter_eq, Hr. reflexivity.
Qed.

(** The steps of [dump] that precede the choice of the strategy. *)
Lemma dump_prepares r env (w : World BackupResult) init info
      (k : M (World BackupResult) Pathlib.Path) :
  heap w !! r = Some init ->
  outcome (Backup.get_database_info env) = Returned info ->
  Backup.mkdir env = Returned tt ->
  exists w1 result,
    (db_info ← await (Backup.get_database_info env);
     lift (Backup.mkdir env);;
     update r (Backup.set_tables_count (default 0 db_info));;
     k) w = k w1
    /\ heap w1 !! r = Some result
    /\ same_payload (Backup.set_tables_count (default 0 info) init) result
    /\ trace w1 = trace w.
Proof.
  intros Hr Hinfo Hmkdir.
  destruct (await_lasting (evolves same_payload) _ info w Hinfo)
    as (w1 & Ha & Ht & He).
  destruct (He r init Hr) as (result & Hr1 & Hsame).
  eexists. exists (Backup.set_tables_count (default 0 info) result).
  split; [|split; [|split]].
  - erewrite bind_returned; [|exact Ha].
    erewrite bind_returned; [|unfold lift; by rewrite Hmkdir].
    erewrite bind_returned; [|reflexivity]. reflexivity.
  - cbn [heap]. by rewrite lookup_alter_eq, Hr1.
  - unfold same_payload in *. cbn. intuition.
  - done.
Qed.








(** ** The artifact and its name *)

(** Whatever [_create_full_backup] returns is the path of the job with
    the extension of the strategy. *)
Lemma full_backup_returns job backup_file env (w w' : World BackupResult) f :
  Backup._create_full_backup job backup_file env w = (w', Returned f) ->
  f = Pathlib.with_suffix backup_file (artifact_suffix (backup_config job)).
Proof.
  unfold Backup._create_full_backup, artifact_suffix,
    Backup._create_parallel_backup, Backup._create_custom_backup, Backup.tar.
  destruct ((1 <? parallel_jobs (backup_config job)) && _); intros Hrun;
    destruct (bind_inv _ _ _ _ _ Hrun) as [(w1 & [] & _ & Hrest)|(e & _ & ?)];
    try done; clear Hrun.
  - unfold emit in Hrest. unfold_monad.
    destruct (compression (backup_config job));
      destruct (Backup.tar_write env); by inversion Hrest.
  - unfold_monad. destruct (compression (backup_config job)); by inversion Hrest.
Qed.

Lemma dump_returns job r env (w w' : World BackupResult) f :
  Backup.dump job r env w = (w', Returned f) ->
  f = Pathlib.with_suffix (Backup._get_backup_file_path job env)
                          (artifact_suffix (backup_config job)).
Proof.
  unfold Backup.dump. intros Hrun.
  destruct (bind_inv _ _ _ _ _ Hrun) as [(w1 & info & _ & H1)|(e & _ & ?)];
    [clear Hrun|done].
  destruct (bind_inv _ _ _ _ _ H1) as [(w2 & [] & _ & H2)|(e & _ & ?)];
    [clear H1|done].
  destruct (bind_inv _ _ _ _ _ H2) as [(w3 & [] & _ & H3)|(e & _ & ?)];
    [clear H2|done].
  destruct (backup_type (backup_config job)); try done.
  by apply full_backup_returns in H3.
Qed.

(** A result that [create_backup] returns as [completed] names the
    artifact of the strategy. *)
Lemma completed_backup_file job progress_callback env
      (w w' : World BackupResult) r result :
  Backup.create_backup job progress_callback env w = (w', Returned r) ->
  heap w' !! r = Some result ->
  status result = BackupStatus.COMPLETED ->
  backup_file result
  = Some (Pathlib.with_suffix (Backup._get_backup_file_path job env)
                              (artifact_suffix (backup_config job))).
Proof.
  intros Hrun Hr Hstatus.
  destruct (backup_start_spec job progress_callback env w)
    as (wr & r' & Hstart & Hfresh & Hheap & _).
  assert (Hr' : is_Some (heap wr !! r'))
    by (rewrite Hheap, lookup_insert_eq; eauto).
  destruct (Backup.body job r' env wr) as [wb ob] eqn:Hbody.
  pose proof (body_preserves _ _ _ _ _ _ Hbody r' Hr') as [resultb Hresultb].
  destruct ob as [[]|[msg|msg]].
  - rewrite (create_backup_run job progress_callback env w wr wb r' (Returned tt)
               Hstart) in Hrun
      by (unfold try_except; by rewrite Hbody).
    inversion Hrun; subst; clear Hrun. cbn [cleanup heap] in Hr.
    unfold Backup.body in Hbody.
    destruct (bind_inv _ _ _ _ _ Hbody) as [(w1 & f & Hdump & Hrest)|(e & _ & ?)];
      [|done].
    pose proof (dump_returns _ _ _ _ _ _ Hdump) as ->.
    apply dump_preserves in Hdump. destruct (Hdump r Hr') as [result1 Hresult1].
    unfold update, logger, emit in Hrest. unfold_monad.
    destruct (Backup.sha256 env) as [sum|e]; [|done].
    destruct (Backup.stat_size env) as [size|e]; [|done].
    inversion Hrest; subst; clear Hrest. cbn [heap] in Hr.
    rewrite !lookup_alter_eq, Hresult1 in Hr. cbn in Hr.
    by inversion Hr; subst.
  - destruct (on_exception_run r' (Backup.t_end env) "Backup" msg wb resultb
                Hresultb) as (w3 & Hhandler & Hr3 & _).
    rewrite (create_backup_run job progress_callback env w wr w3 r' (Returned tt)
               Hstart) in Hrun
      by (unfold try_except; by rewrite Hbody).
    inversion Hrun; subst; clear Hrun. cbn [cleanup heap] in Hr.
    rewrite Hr3 in Hr. inversion Hr; subst. done.
  - rewrite (create_backup_run job progress_callback env w wr wb r'
               (Raises (BaseException msg)) Hstart) in Hrun
      by (unfold try_except; by rewrite Hbody).
    done.
Qed.

Lemma artifact_suffix_free config :
  Str.mem "/" (artifact_suffix config) = false.
Proof.
  unfold artifact_suffix.
  destruct ((1 <? parallel_jobs config) && _); by destruct (compression config).
Qed.

(** The last extension of the artifact of a compressed backup is that of
    the compression alone. *)
Lemma compressed_artifact_suffix config p :
  compression config = CompressionType.GZIP
  \/ compression config = CompressionType.BZIP2 ->
  Pathlib.suffix (Pathlib.with_suffix p (artifact_suffix config)) = ".gz"
  \/ Pathlib.suffix (Pathlib.with_suffix p (artifact_suffix config)) = ".bz2".
Proof.
  unfold artifact_suffix.
  destruct ((1 <? parallel_jobs config) && _);
    intros [-> | ->]; cbn [archive_format dump_suffix snd].
  - left. apply (suffix_with_suffix p ".tar" "gz"); try done.
    by apply append_not_nil_r.
  - right. apply (suffix_with_suffix p ".tar" "bz2"); try done.
    by apply append_not_nil_r.
  - left. apply (suffix_with_suffix p ".dump" "gz"); try done.
    by apply append_not_nil_r.
  - right. apply (suffix_with_suffix p ".dump" "bz2"); try done.
    by apply append_not_nil_r.
Qed.

Lemma verify_backup_rejects backup_file env (w : World BackupResult) :
  Restore.member (Pathlib.suffix backup_file) known_suffixes = false ->
  (forall msg, BackupFiles.file_exists env <> Raises (BaseException msg)) ->
  exists w',
    BackupFiles.verify_backup backup_file env w = (w', Returned false)
    /\ spawned_of (trace w') = spawned_of (trace w).
Proof.
  intros Hsuffix Hexists. unfold known_suffixes, Restore.member in Hsuffix.
  rewrite !existsb_app in Hsuffix.
  apply orb_false_elim in Hsuffix as [Hcustom Hrest].
  apply orb_false_elim in Hrest as [Htar Hsql].
  unfold BackupFiles.verify_backup, Restore.member, logger, emit.
  unfold_monad.
  destruct (BackupFiles.file_exists env) as [[]|[msg|msg]] eqn:Hfile;
    cbn [negb].
  - rewrite Hcustom, Htar, Hsql. by eexists.
  - by eexists.
  - eexists. split; [reflexivity|]. cbn [trace].
    by rewrite spawned_of_app, app_nil_r.
  - by destruct (Hexists msg).
Qed.

(** X4.  Round trip.  The artifact of a backup made with gzip or bzip2
    compression is rejected by the tool's own checks: whatever the state
    of the file, [verify_backup] answers [False] for it without running
    [pg_restore], and [restore_backup] returns a [failed] result saying
    that the verification of the file failed, without touching the
    database. *)
Theorem compressed_backup_cannot_be_restored
        (job : BackupJob) (progress_callback : option Callback)
        (env : Backup.Env) (w w' : World BackupResult)
        (r : Ref) (result : BackupResult) :
  compression (backup_config job) = CompressionType.GZIP
  \/ compression (backup_config job) = CompressionType.BZIP2 ->
  Backup.create_backup job progress_callback env w = (w', Returned r) ->
  heap w' !! r = Some result ->
  status result = BackupStatus.COMPLETED ->
  exists artifact,
    backup_file result = Some artifact
    /\ (forall venv (wv : World BackupResult),
           (forall msg,
               BackupFiles.file_exists venv <> Raises (BaseException msg)) ->
           exists wv',
             BackupFiles.verify_backup artifact venv wv = (wv', Returned false)
             /\ spawned_of (trace wv') = spawned_of (trace wv))
    /\ (forall target callback renv (wr : World RestoreResult),
           (forall msg,
               Restore.file_exists renv <> Raises (BaseException msg)) ->
           exists wr' r' result',
             Restore.restore_backup artifact target callback renv wr
             = (wr', Returned r')
             /\ heap wr' !! r' = Some result'
             /\ r_status result' = BackupStatus.FAILED
             /\ r_error_message result'
                = Some ("Backup file verification failed: " +:+ artifact)
             /\ spawned_of (trace wr') = spawned_of (trace wr)).
Proof.
  intros Hcompression Hrun Hr Hstatus.
  pose proof (completed_backup_file _ _ _ _ _ _ _ Hrun Hr Hstatus) as Hfile.
  eexists. split; [exact Hfile|].
  assert (Hsuffix :
            Restore.member
              (Pathlib.suffix
                 (Pathlib.with_suffix (Backup._get_backup_file_path job env)
                                      (artifact_suffix (backup_config job))))
              known_suffixes = false).
  { destruct (compressed_artifact_suffix
                (backup_config job) (Backup._get_backup_file_path job env)
                Hcompression) as [-> | ->]; reflexivity. }
  split.
  - intros venv wv Hexists. by apply verify_backup_rejects.
  - intros target callback renv wr Hexists. by apply restore_rejected.
Qed.

Lemma compressed_backup_cannot_be_restored_witness :
  exists artifact,
    Some "/var/backups/jobname_20240115_020000.tar.gz" = Some artifact
    /\ (forall venv (wv : World BackupResult),
           (forall msg,
               BackupFiles.file_exists venv <> Raises (BaseException msg)) ->
           exists wv',
             BackupFiles.verify_backup artifact venv wv = (wv', Returned false)
             /\ spawned_of (trace wv') = spawned_of (trace wv))
    /\ (forall target callback renv (wr : World RestoreResult),
           (forall msg,
               Restore.file_exists renv <> Raises (BaseException msg)) ->
           exists wr' r' result',
             Restore.restore_backup artifact target callback renv wr
             = (wr', Returned r')
             /\ heap wr' !! r' = Some result'
             /\ r_status result' = BackupStatus.FAILED
             /\ r_error_message result'
                = Some ("Backup file verification failed: " +:+ artifact)
             /\ spawned_of (trace wr') = spawned_of (trace wr)).
Proof.
  apply (compressed_backup_cannot_be_restored
           (nightly 4 CompressionType.GZIP) (Some 7%nat) smooth_backup idle
           (Backup.create_backup (nightly 4 CompressionType.GZIP) (Some 7%nat)
                                 smooth_backup idle).1
           0%nat
           {| job_id := "job1"; status := BackupStatus.COMPLETED;
              backup_file :=
                Some "/var/backups/jobname_20240115_020000.tar.gz";
              start_time := 1000000; end_time := Some 9000000;
              size_bytes := 4096; tables_count := 12;
              error_message := None;
              checksum := Some "9f86d081884c7d65" |}).
  - by left.
  - vm_compute. reflexivity.
  - vm_compute. reflexivity.
  - reflexivity.
Defined.

(** ** The reports of progress *)

#[export] Instance no_call_lasting {R : Type} `{OperationResult R} :
  Lasting (R := R) (adds no_call).
Proof. by apply adds_lasting. Qed.

Lemma no_call_archive {R : Type} mode file member :
  respects (R := R) (adds no_call) (emit (Archive mode file member)).
Proof. by apply adds_emit. Qed.

#[export] Hint Resolve adds_update no_call_archive : footprint.

Lemma adds_no_call {R} (w w' : World R) :
  adds no_call w w' -> calls_of (trace w') = calls_of (trace w).
Proof.
  intros (events & -> & Hno). rewrite calls_of_app.
  rewrite <- (app_nil_r (calls_of (trace w))) at 2. f_equal.
  induction Hno as [|[] events He _ IH]; try done.
Qed.

Lemma calls_of_calls l : calls_of (map call_event l) = l.
Proof.
  induction l as [|[[cb p] m] l IH]; [done|].
  cbn [map]. unfold calls_of in *. cbn. by rewrite IH.
Qed.

Lemma await_quiet {R : Type} `{OperationResult R} {A} (a : Await A)
      (w : World R) :
  during a = [] -> await a w = (w, outcome a).
Proof. intros Hd. unfold await. by rewrite Hd. Qed.

Section Undisturbed.
Context {R : Type} `{OperationResult R}.

Lemma monitor_loop_undisturbed total op_id message l (w : World R) cb :
  Forall (fun p => during_sleep p = []) l ->
  progress_callbacks w !! op_id = Some cb ->
  exists w',
    monitor_loop total op_id message l w = (w', Returned tt)
    /\ heap w' = heap w /\ active w' = active w
    /\ progress_callbacks w' = progress_callbacks w
    /\ trace w' = trace w ++ map call_event (map (estimate total cb message) l).
Proof.
  intros Hl. revert w. induction Hl as [|p l Hp _ IH]; intros w Hcb.
  - exists w. by rewrite app_nil_r.
  - destruct (notify_run op_id (Z.min 95 (elapsed p * 100 / total))
                (message +:+ " (" +:+ pretty (elapsed p) +:+ "s)") w)
      as (w1 & Hn & Hh1 & Ha1 & Hc1 & Ht1).
    rewrite Hcb in Ht1.
    destruct (IH w1) as (w2 & Hloop & Hh2 & Ha2 & Hc2 & Ht2);
      [by rewrite Hc1|].
    exists w2. split; [|split; [congruence|split; [congruence|split]]].
    + cbn [monitor_loop]. rewrite Hp.
      erewrite bind_returned; [|reflexivity].
      erewrite bind_returned; [|exact Hn]. exact Hloop.
    + congruence.
    + rewrite Ht2, Ht1, <- app_assoc. reflexivity.
Qed.

Lemma monitor_undisturbed total run op_id message (w : World R) cb state :
  Forall (fun p => during_sleep p = []) (polls run) ->
  progress_callbacks w !! op_id = Some cb ->
  exit run = Returned state ->
  exists w',
    monitor total run op_id message w = (w', Returned state)
    /\ heap w' = heap w /\ active w' = active w
    /\ progress_callbacks w' = progress_callbacks w
    /\ trace w'
       = trace w
         ++ map call_event (map (estimate total cb message) (polls run)
                              ++ [(cb, 100, message +:+ " completed")]).
Proof.
  intros Hl Hcb Hexit.
  destruct (monitor_loop_undisturbed total op_id message (polls run) w cb Hl Hcb)
    as (w1 & Hloop & Hh1 & Ha1 & Hc1 & Ht1).
  destruct (notify_run op_id 100 (message +:+ " completed") w1)
    as (w2 & Hn & Hh2 & Ha2 & Hc2 & Ht2).
  rewrite Hc1, Hcb in Ht2.
  exists w2. split; [|split; [congruence|split; [congruence|split]]].
  - unfold monitor. erewrite bind_returned; [|exact Hloop].
    erewrite bind_returned; [|unfold lift; by rewrite Hexit].
    by erewrite bind_returned.
  - congruence.
  - rewrite Ht2, Ht1, map_app, <- app_assoc. reflexivity.
Qed.

End Undisturbed.

Lemma run_pg_dump_reports cmd job env message (w w' : World BackupResult)
      cb state o :
  uninterrupted (Backup.pg_dump env) ->
  outcome (spawn (Backup.pg_dump env)) = Returned tt ->
  exit (Backup.pg_dump env) = Returned state ->
  progress_callbacks w !! id job = Some cb ->
  Backup.run_pg_dump cmd job env message w = (w', o) ->
  calls_of (trace w')
  = calls_of (trace w)
    ++ map (estimate 300 cb message) (polls (Backup.pg_dump env))
    ++ [(cb, 100, message +:+ " completed")].
Proof.
  intros [Hquiet Hpolls] Hspawn Hexit Hcb Hrun.
  unfold Backup.run_pg_dump in Hrun.
  erewrite bind_returned in Hrun; [|reflexivity].
  erewrite bind_returned in Hrun;
    [|rewrite (await_quiet _ _ Hquiet), Hspawn; reflexivity].
  destruct (monitor_undisturbed (R := BackupResult) 300 (Backup.pg_dump env)
              (id job) message
              (mkWorld (heap w) (active w) (progress_callbacks w)
                       (trace w ++ [Spawn cmd])) cb state Hpolls Hcb Hexit)
    as (w2 & Hm & _ & _ & _ & Ht2).
  unfold _monitor_backup_process in Hrun.
  erewrite bind_returned in Hrun; [|exact Hm].
  assert (Htail : adds no_call w2 w').
  { eapply (respects_run (adds no_call)); [|exact Hrun]. footprint. }
  rewrite (adds_no_call _ _ Htail), Ht2. cbn [trace].
  rewrite !calls_of_app. cbn [calls_of omap]. rewrite app_nil_r.
  by rewrite calls_of_calls.
Qed.


Lemma full_backup_reports job backup_file env (w w' : World BackupResult)
      cb state o :
  uninterrupted (Backup.pg_dump env) ->
  outcome (spawn (Backup.pg_dump env)) = Returned tt ->
  exit (Backup.pg_dump env) = Returned state ->
  progress_callbacks w !! id job = Some cb ->
  Backup._create_full_backup job backup_file env w = (w', o) ->
  calls_of (trace w')
  = calls_of (trace w)
    ++ map (estimate 300 cb (dump_message (backup_config job)))
           (polls (Backup.pg_dump env))
    ++ [(cb, 100, dump_message (backup_config job) +:+ " completed")].
Proof.
  intros Hquiet Hspawn Hexit Hcb.
  unfold Backup._create_full_backup, dump_message,
    Backup._create_parallel_backup, Backup._create_custom_backup, Backup.tar.
  destruct ((1 <? parallel_jobs (backup_config job)) && _); intros Hrun;
    (destruct (bind_inv _ _ _ _ _ Hrun) as [(w1 & [] & Hdump & Hrest)|(e & Hdump & _)];
     [|by eapply run_pg_dump_reports]);
    rewrite <- (run_pg_dump_reports _ _ _ _ _ _ _ _ _ Hquiet Hspawn Hexit Hcb Hdump);
    apply adds_no_call;
    (eapply (respects_run (adds no_call)); [|exact Hrest]); footprint.
Qed.

(** X5.  The progress of a backup that no other task disturbs.  Once the
    probe of the database and the directory have worked and [pg_dump] has
    been started, the callback given to [create_backup] receives one
    estimate for each second that the monitor waits,
    [min(95, elapsed * 100 / 300)], and then 100 with the message of the
    strategy followed by " completed" -- whatever the exit status of
    [pg_dump], and whatever happens afterwards.  Nothing else is
    reported. *)
Theorem progress_of_an_undisturbed_backup
        (job : BackupJob) (cb : Callback) (env : Backup.Env)
        (w : World BackupResult) (info : option Z) (state : Z * string) :
  during (Backup.get_database_info env) = [] ->
  outcome (Backup.get_database_info env) = Returned info ->
  Backup.mkdir env = Returned tt ->
  backup_type (backup_config job) = BackupType.FULL ->
  uninterrupted (Backup.pg_dump env) ->
  outcome (spawn (Backup.pg_dump env)) = Returned tt ->
  exit (Backup.pg_dump env) = Returned state ->
  calls_of (trace (Backup.create_backup job (Some cb) env w).1)
  = calls_of (trace w)
    ++ map (estimate 300 cb (dump_message (backup_config job)))
           (polls (Backup.pg_dump env))
    ++ [(cb, 100, dump_message (backup_config job) +:+ " completed")].
Proof.
  intros Hquiet Hinfo Hmkdir Hfull Hrun Hspawn Hexit.
  destruct (backup_start_spec job (Some cb) env w)
    as (wr & r & Hstart & _ & _ & _ & Hcbs & Htr).
  set (w1 := mkWorld (alter (Backup.set_tables_count (default 0 info)) r (heap wr))
                     (active wr) (progress_callbacks wr) (trace wr)).
  destruct (Backup._create_full_backup
              job (Backup._get_backup_file_path job env) env w1)
    as [w2 od] eqn:Hdump.
  assert (Hcb1 : progress_callbacks w1 !! id job = Some cb)
    by (subst w1; cbn [progress_callbacks]; rewrite Hcbs; apply lookup_insert_eq).
  pose proof (full_backup_reports _ _ _ _ _ _ _ _ Hrun Hspawn Hexit Hcb1 Hdump)
    as Hcalls.
  replace (calls_of (trace w1)) with (calls_of (trace w)) in Hcalls
    by (subst w1; cbn [trace]; by rewrite Htr).
  assert (Hd : Backup.dump job r env wr = (w2, od)).
  { unfold Backup.dump. rewrite Hfull.
    erewrite bind_returned;
      [|rewrite (await_quiet _ _ Hquiet), Hinfo; reflexivity].
    erewrite bind_returned; [|unfold lift; by rewrite Hmkdir].
    erewrite bind_returned; [|reflexivity]. exact Hdump. }
  destruct (Backup.body job r env wr) as [wb' ob'] eqn:Hbody.
  destruct (try_except (Backup.body job r env)
                       (on_exception r (Backup.t_end env) "Backup") wr)
    as [wb ob] eqn:Htry.
  rewrite (create_backup_run _ _ _ _ _ _ _ _ Hstart Htry).
  cbn [fst cleanup trace]. rewrite <- Hcalls. apply adds_no_call.
  eapply lasting_trans.
  - eapply (bind_rest (adds no_call) _ _ _ _ _ _ _ Hd Hbody).
    intros f. footprint.
  - eapply (try_except_rest (adds no_call) _ _ _ _ _ _ _ Hbody Htry).
    intros msg. unfold on_exception. footprint.
Qed.

Lemma progress_of_an_undisturbed_backup_witness :
  calls_of (trace (Backup.create_backup (nightly 1 CompressionType.GZIP)
                     (Some 7%nat) failing_dump idle).1)
  = [] ++ map (estimate 300 7%nat "Creating custom backup") [mkPoll [] 1]
      ++ [(7%nat, 100, "Creating custom backup" +:+ " completed")].
Proof.
  apply (progress_of_an_undisturbed_backup
           (nightly 1 CompressionType.GZIP) 7%nat failing_dump idle (Some 12)
           (1, "connection refused")); try reflexivity.
  split; [reflexivity|]. repeat constructor.
Defined.

(** ** Results of earlier operations *)

Section Operation.
Context {R : Type} `{OperationResult R}.

(** The [try] of an operation, its handler and its [finally] clause
    leave alone every object that no registry entry leads to. *)
Lemma guarded_untouched (r0 r : Ref) (op_id : string)
      (body : M (World R) unit) now what :
  r <> r0 ->
  respects (untouched r0) body ->
  respects (untouched r0)
    (try_finally (try_except body (on_exception r now what)) (cleanup op_id)).
Proof.
  intros Hne Hbody w w' o Hrun. unfold try_finally in Hrun.
  destruct (try_except body (on_exception r now what) w) as [wb ob] eqn:Htry.
  inversion Hrun; subst; clear Hrun.
  assert (Hu : untouched r0 w wb).
  { eapply (respects_run (untouched r0)); [|exact Htry].
    apply respects_try_except; [apply _ | done |].
    intros msg. unfold on_exception.
    pose proof (untouched_update (R := R) r0 r) as Hupd. footprint. }
  intros result Hr0 Hactive. destruct (Hu result Hr0 Hactive) as [Hr0' Hactive'].
  cbn [cleanup heap active]. split; [done|].
  intros other Hother.
  destruct (decide (other = op_id)) as [->|Hneq].
  - by rewrite lookup_delete_eq in Hother.
  - rewrite lookup_delete_ne in Hother by done. by apply (Hactive' other).
Qed.

(** So does the registration of a new result object. *)
Lemma registered_untouched (r0 r : Ref) (op_id : string) (init : R)
      (w wr : World R) :
  heap w !! r = None ->
  heap wr = <[r := init]> (heap w) ->
  active wr = <[op_id := r]> (active w) ->
  untouched r0 w wr.
Proof.
  intros Hfresh Hheap Hactive result Hr0 Ha.
  assert (Hne : r <> r0) by congruence.
  rewrite Hheap, Hactive. split; [by rewrite lookup_insert_ne|].
  intros other Hother.
  destruct (decide (other = op_id)) as [->|Hneq].
  - rewrite lookup_insert_eq in Hother. by inversion Hother.
  - rewrite lookup_insert_ne in Hother by done. by apply (Ha other).
Qed.

End Operation.


(** ** The name of the artifact *)

Lemma backup_file_name job env :
  Str.mem "/" (name job) = false ->
  Str.mem "/" (Backup.timestamp env) = false ->
  Pathlib.name (Backup._get_backup_file_path job env)
  = name job +:+ "_" +:+ Backup.timestamp env.
Proof.
  intros Hname Hstamp. unfold Backup._get_backup_file_path.
  rewrite name_joinpath. apply last_field_without.
  rewrite !mem_append, Hname, Hstamp. reflexivity.
Qed.

(** X6.  A job whose name holds no dot (and no slash) gets an artifact named
    after the job and the second of the backup: successive runs of the
    job write different files. *)
Theorem artifact_name_carries_timestamp
        (job : BackupJob) (env : Backup.Env) (w w' : World BackupResult)
        (artifact : Pathlib.Path) :
  Str.mem "/" (name job) = false ->
  Str.mem "." (name job) = false ->
  Str.mem "/" (Backup.timestamp env) = false ->
  Str.mem "." (Backup.timestamp env) = false ->
  Backup._create_full_backup job (Backup._get_backup_file_path job env) env w
  = (w', Returned artifact) ->
  Pathlib.name artifact
  = name job +:+ "_" +:+ Backup.timestamp env
      +:+ artifact_suffix (backup_config job).
Proof.
  intros Hslash Hdot Hslash' Hdot' Hrun.
  rewrite (full_backup_returns _ _ _ _ _ _ Hrun).
  rewrite name_with_suffix by apply artifact_suffix_free.
  rewrite stem_without_dot; rewrite backup_file_name by done.
  - by rewrite !append_assoc.
  - rewrite !mem_append, Hdot, Hdot'. reflexivity.
Qed.

Lemma artifact_name_carries_timestamp_witness :
  Pathlib.name "/var/backups/jobname_20240115_020000.tar.gz"
  = "jobname" +:+ "_" +:+ "20240115_020000" +:+ ".tar.gz".
Proof.
  apply (artifact_name_carries_timestamp
           (nightly 4 CompressionType.GZIP) smooth_backup idle
           (Backup._create_full_backup
              (nightly 4 CompressionType.GZIP)
              (Backup._get_backup_file_path (nightly 4 CompressionType.GZIP)
                                            smooth_backup)
              smooth_backup idle).1); reflexivity.
Defined.

(** X7.  A job whose name holds a dot loses the timestamp: [with_suffix]
    takes everything from the last dot of the job's name on as the
    extension to replace, so that every run of the job writes the same
    file. *)
Theorem dotted_job_name_drops_timestamp
        (job : BackupJob) (env : Backup.Env) (w w' : World BackupResult)
        (artifact : Pathlib.Path) (prefix rest : string) :
  name job = prefix +:+ String "." rest ->
  prefix <> "" ->
  Str.mem "/" (name job) = false ->
  Str.mem "." rest = false ->
  Str.mem "/" (Backup.timestamp env) = false ->
  Str.mem "." (Backup.timestamp env) = false ->
  Backup._create_full_backup job (Backup._get_backup_file_path job env) env w
  = (w', Returned artifact) ->
  Pathlib.name artifact = prefix +:+ artifact_suffix (backup_config job).
Proof.
  intros Hname Hprefix Hslash Hdot Hslash' Hdot' Hrun.
  rewrite (full_backup_returns _ _ _ _ _ _ Hrun).
  rewrite name_with_suffix by apply artifact_suffix_free.
  f_equal.
  apply (suffix_of_name _ prefix (rest +:+ "_" +:+ Backup.timestamp env)).
  - rewrite backup_file_name by done. rewrite Hname.
    by rewrite append_assoc, append_cons.
  - done.
  - apply append_not_nil_r. by apply append_not_nil_l.
  - rewrite !mem_append, Hdot, Hdot'. reflexivity.
Qed.

Lemma dotted_job_name_drops_timestamp_witness :
  Pathlib.name "/var/backups/db.tar.gz" = "db" +:+ ".tar.gz".
Proof.
  apply (dotted_job_name_drops_timestamp
           dotted smooth_backup idle
           (Backup._create_full_backup
              dotted (Backup._get_backup_file_path dotted smooth_backup)
              smooth_backup idle).1
           "/var/backups/db.tar.gz" "db" "prod");
    first [reflexivity | discriminate].
Defined.

(** ** The restore executor, step by step *)

Section RestoreSteps.
Context (I : World RestoreResult -> World RestoreResult -> Prop).
Context `{!Footprint I}.

Lemma verify_backup_file_respects backup_file env :
  respects I (emit (Spawn ["pg_restore"; "--list"; backup_file])) ->
  respects I (Restore._verify_backup_file backup_file env).
Proof. intros Hlist. unfold Restore._verify_backup_file. footprint. Qed.

Lemma get_backup_info_respects backup_file env :
  respects I (emit (Spawn ["pg_restore"; "--list"; backup_file])) ->
  respects I (Restore._get_backup_info backup_file env).
Proof.
  intros Hlist.
  unfold Restore._get_backup_info, Restore._get_custom_backup_info.
  footprint.
Qed.

Lemma run_pg_restore_respects cmd restore_id message env :
  respects I (emit (Spawn cmd)) ->
  respects I (Restore.run_pg_restore cmd restore_id message env).
Proof.
  intros Hspawn. unfold Restore.run_pg_restore, _monitor_restore_process.
  footprint.
Qed.

Lemma dispatch_respects info backup_file target restore_id env :
  (forall e, respects I (emit e)) ->
  respects I (Restore.dispatch info backup_file target restore_id env).
Proof.
  intros Hemit. pose proof run_pg_restore_respects as Hrun.
  unfold Restore.dispatch, Restore._restore_custom_format,
    Restore._restore_directory_format, Restore._restore_sql_format,
    _monitor_restore_process.
  footprint.
Qed.

Lemma restore_respects backup_file target restore_id env :
  (forall e, respects I (emit e)) ->
  respects I (Restore.restore backup_file target restore_id env).
Proof.
  intros Hemit.
  pose proof verify_backup_file_respects as Hverify.
  pose proof get_backup_info_respects as Hinfo.
  pose proof dispatch_respects as Hdispatch.
  unfold Restore.restore, Restore._handle_existing_database. footprint.
Qed.

Lemma verify_restoration_respects info env :
  respects I (Restore._verify_restoration info env).
Proof. unfold Restore._verify_restoration. footprint. Qed.

Lemma restore_body_respects backup_file target restore_id r env :
  (forall e, respects I (emit e)) ->
  (forall f, respects I (update r f)) ->
  respects I (Restore.body backup_file target restore_id r env).
Proof.
  intros Hemit Hupdate.
  pose proof restore_respects as Hrestore.
  pose proof verify_restoration_respects as Hverify.
  unfold Restore.body. footprint.
Qed.

End RestoreSteps.

(** ** The outcome of a restore *)

Lemma same_restore_refl a : same_restore a a.
Proof. by repeat split. Qed.

Lemma same_restore_trans a b c :
  same_restore a b -> same_restore b c -> same_restore a c.
Proof. unfold same_restore. intros; intuition congruence. Qed.

#[export] Instance restore_footprint : Footprint (evolves same_restore).
Proof.
  apply evolves_footprint;
    [apply same_restore_refl | apply same_restore_trans | by repeat split].
Qed.

Lemma restore_emit e : respects (evolves same_restore) (emit e).
Proof. apply evolves_emit, same_restore_refl. Qed.

#[export] Hint Resolve restore_emit : footprint.

Lemma restore_start_spec backup_file target progress_callback env
      (w : World RestoreResult) :
  exists wr r,
    Restore.start backup_file target progress_callback env w = (wr, Returned r)
    /\ heap w !! r = None
    /\ heap wr
       = <[r := {| r_backup_file := backup_file; r_target_config := target;
                   r_status := BackupStatus.RUNNING;
                   r_start_time := Restore.t_start env; r_end_time := None;
                   tables_restored := 0; r_error_message := None;
                   verification_passed := false |}]> (heap w)
    /\ active wr = <[Restore.restore_id_of env := r]> (active w)
    /\ progress_callbacks wr
       = match progress_callback with
         | Some cb => <[Restore.restore_id_of env := cb]> (progress_callbacks w)
         | None => progress_callbacks w
         end
    /\ trace wr = trace w.
Proof.
  do 2 eexists. split; [reflexivity|]. cbn [heap active progress_callbacks trace].
  split; [|done]. apply not_elem_of_dom, is_fresh.
Qed.

Lemma restore_backup_run backup_file target progress_callback env
      (w wr wb : World RestoreResult) r ob :
  Restore.start backup_file target progress_callback env w = (wr, Returned r) ->
  try_except (Restore.body backup_file target (Restore.restore_id_of env) r env)
             (on_exception r (Restore.t_end env) "Restore") wr = (wb, ob) ->
  Restore.restore_backup backup_file target progress_callback env w
  = (cleanup (Restore.restore_id_of env) wb,
     match ob with Returned _ => Returned r | Raises e => Raises e end).
Proof.
  intros Hstart Htry. unfold Restore.restore_backup.
  erewrite bind_returned; [|exact Hstart].
  unfold try_finally, mbind, coroutine_bind, bind. rewrite Htry.
  by destruct ob.
Qed.

Lemma restore_on_exception_run (r : Ref) now what msg
      (w : World RestoreResult) result :
  heap w !! r = Some result ->
  exists w',
    on_exception r now what msg w = (w', Returned tt)
    /\ heap w' !! r
       = Some {| r_backup_file := r_backup_file result;
                 r_target_config := r_target_config result;
                 r_status := BackupStatus.FAILED;
                 r_start_time := r_start_time result; r_end_time := Some now;
                 tables_restored := tables_restored result;
                 r_error_message := Some msg;
                 verification_passed := verification_passed result |}
    /\ trace w' = trace w ++ [Log Level.ERROR (what +:+ " failed: " +:+ msg)].
Proof.
  intros Hr. eexists. split; [reflexivity|]. cbn [heap trace].
  split; [|done]. rewrite !lookup_alter_eq, Hr. reflexivity.
Qed.

(** What the [try] of [restore_backup] leaves in the result object. *)
Lemma restore_body_result backup_file target restore_id r env
      (w wb : World RestoreResult) ob init :
  Restore.body backup_file target restore_id r env w = (wb, ob) ->
  heap w !! r = Some init ->
  exists result,
    heap wb !! r = Some result
    /\ match ob with
       | Returned _ =>
           exists verified tables before,
             same_restore init before
             /\ result = Restore.finish verified tables (Restore.t_end env) before
       | Raises _ => same_restore init result
       end.
Proof.
  intros Hbody Hinit. unfold Restore.body in Hbody.
  destruct (bind_inv _ _ _ _ _ Hbody) as [(w1 & info & H1 & Hrest)|(e & H1 & ->)];
    clear Hbody.
  2:{ eapply (respects_run (evolves same_restore)) in H1;
        [by apply H1 | apply restore_respects; [apply _ | apply restore_emit]]. }
  eapply (respects_run (evolves same_restore)) in H1;
    [|apply restore_respects; [apply _ | apply restore_emit]].
  destruct (H1 r init Hinit) as (result1 & Hr1 & Hsame1).
  destruct (bind_inv _ _ _ _ _ Hrest) as [(w2 & v & H2 & Hrest')|(e & H2 & ->)];
    clear Hrest;
    (eapply (respects_run (evolves same_restore)) in H2;
     [|apply verify_restoration_respects; apply _]);
    destruct (H2 r result1 Hr1) as (result2 & Hr2 & Hsame2).
  2:{ exists result2. split; [done|]. by eapply same_restore_trans. }
  unfold update, logger, emit in Hrest'. unfold_monad.
  inversion Hrest'; subst; clear Hrest'. cbn [heap].
  eexists. split; [by rewrite lookup_alter_eq, Hr2|].
  exists v, (default 0 (Restore.info_tables_count info)), result2.
  split; [by eapply same_restore_trans | done].
Qed.

(** X8.  The contract of [restore_backup].  It lets no instance of
    [Exception] through.  When the body of its [try] returns, it returns
    the result object as [completed], with the table count of the
    artifact and the verdict of the final verification; when the body
    raises an [Exception] it returns the object as [failed], with the
    message of the exception, no table restored and the verification not
    passed; only an exception that is not an [Exception] propagates.
    However it is left, the restore is in neither registry any more. *)
Theorem restore_backup_outcomes
        (backup_file : Pathlib.Path) (target : DatabaseConfig)
        (progress_callback : option Callback) (env : Restore.Env)
        (w : World RestoreResult) :
  exists wr r wb ob w' o,
    Restore.start backup_file target progress_callback env w = (wr, Returned r)
    /\ Restore.body backup_file target (Restore.restore_id_of env) r env wr
       = (wb, ob)
    /\ Restore.restore_backup backup_file target progress_callback env w
       = (w', o)
    /\ active w' !! Restore.restore_id_of env = None
    /\ progress_callbacks w' !! Restore.restore_id_of env = None
    /\ match ob with
       | Returned _ =>
           o = Returned r
           /\ exists verified tables,
               heap w' !! r
               = Some {| r_backup_file := backup_file;
                         r_target_config := target;
                         r_status := BackupStatus.COMPLETED;
                         r_start_time := Restore.t_start env;
                         r_end_time := Some (Restore.t_end env);
                         tables_restored := tables;
                         r_error_message := None;
                         verification_passed := verified |}
       | Raises (Exception msg) =>
           o = Returned r
           /\ heap w' !! r
              = Some {| r_backup_file := backup_file;
                        r_target_config := target;
                        r_status := BackupStatus.FAILED;
                        r_start_time := Restore.t_start env;
                        r_end_time := Some (Restore.t_end env);
                        tables_restored := 0;
                        r_error_message := Some msg;
                        verification_passed := false |}
       | Raises (BaseException msg) => o = Raises (BaseException msg)
       end.
Proof.
  destruct (restore_start_spec backup_file target progress_callback env w)
    as (wr & r & Hstart & Hfresh & Hheap & _).
  assert (Hr : heap wr !! r = Some _) by (rewrite Hheap; apply lookup_insert_eq).
  destruct (Restore.body backup_file target (Restore.restore_id_of env) r env wr)
    as [wb ob] eqn:Hbody.
  destruct (restore_body_result _ _ _ _ _ _ _ _ _ Hbody Hr)
    as (result & Hresult & Hshape).
  exists wr, r, wb, ob.
  destruct ob as [[]|[msg|msg]].
  - do 2 eexists. split; [exact Hstart|]. split; [exact Hbody|].
    split; [apply (restore_backup_run _ _ _ _ _ _ wb r (Returned tt) Hstart);
            unfold try_except; by rewrite Hbody|].
    cbn [cleanup active progress_callbacks heap].
    split; [apply lookup_delete_eq|]. split; [apply lookup_delete_eq|].
    split; [done|].
    destruct Hshape as (verified & tables & before & Hsame & ->).
    exists verified, tables. rewrite Hresult. unfold Restore.finish.
    unfold same_restore in Hsame. cbn in Hsame.
    destruct Hsame as (-> & -> & -> & _ & -> & _). reflexivity.
  - destruct (restore_on_exception_run r (Restore.t_end env) "Restore" msg wb
                result Hresult) as (w3 & Hhandler & Hr3 & _).
    do 2 eexists. split; [exact Hstart|]. split; [exact Hbody|].
    split; [apply (restore_backup_run _ _ _ _ _ _ w3 r (Returned tt) Hstart);
            unfold try_except; by rewrite Hbody|].
    cbn [cleanup active progress_callbacks heap].
    split; [apply lookup_delete_eq|]. split; [apply lookup_delete_eq|].
    split; [done|]. rewrite Hr3.
    unfold same_restore in Hshape. cbn in Hshape.
    destruct Hshape as (-> & -> & -> & -> & _ & ->). reflexivity.
  - do 2 eexists. split; [exact Hstart|]. split; [exact Hbody|].
    split; [apply (restore_backup_run _ _ _ _ _ _ wb r
                     (Raises (BaseException msg)) Hstart);
            unfold try_except; by rewrite Hbody|].
    cbn [cleanup active progress_callbacks].
    split; [apply lookup_delete_eq|]. split; [apply lookup_delete_eq|]. done.
Qed.

(** ** The database comes before the restore tool *)

#[export] Instance at_most_lists_footprint backup_file :
  Footprint (R := RestoreResult) (adds (at_most_lists backup_file)).
Proof. by apply adds_footprint. Qed.

Lemma lists_emit backup_file :
  respects (R := RestoreResult) (adds (at_most_lists backup_file))
           (emit (Spawn ["pg_restore"; "--list"; backup_file])).
Proof. by apply adds_emit. Qed.

(** One step of a run along a bind: either the step returned and the run
    goes on, or it raised and the run ends there. *)
Ltac step I H w1 a H1 Ha :=
  let Hrest := fresh in
  let e := fresh "e" in
  let Hm := fresh in
  match type of H with
  | (?m ≫= _) _ = _ =>
      assert (Hm : respects I m);
      [ | destruct (bind_inv_respects I _ _ _ _ _ Hm H)
            as [(w1 & a & H1 & Ha & Hrest)|(e & H1 & Ha & ->)];
          clear H Hm; [rename Hrest into H|] ]
  end.

(** Unless the database is ready, [restore] stops with an exception
    before the dispatch on the format. *)
Lemma restore_stops backup_file target restore_id env
      (w w' : World RestoreResult) o :
  database_ready env = false ->
  Restore.restore backup_file target restore_id env w = (w', o) ->
  adds (at_most_lists backup_file) w w' /\ exists e, o = Raises e.
Proof.
  intros Hready Hrun. unfold Restore.restore in Hrun.
  pose proof (verify_backup_file_respects (adds (at_most_lists backup_file))
                backup_file env (lists_emit backup_file)) as Hverify.
  pose proof (get_backup_info_respects (adds (at_most_lists backup_file))
                backup_file env (lists_emit backup_file)) as Hinfo.
  step (adds (R := RestoreResult) (at_most_lists backup_file))
       Hrun w1 verified H1 Ha1; [done| |by eauto].
  step (adds (R := RestoreResult) (at_most_lists backup_file))
       Hrun w2 u2 H2 Ha2; [footprint| |split; [eauto using adds_trans | by eauto]].
  step (adds (R := RestoreResult) (at_most_lists backup_file))
       Hrun w3 info H3 Ha3; [done| |split; [eauto using adds_trans | by eauto]].
  step (adds (R := RestoreResult) (at_most_lists backup_file))
       Hrun w4 present H4 Ha4;
    [footprint| |split; [eauto using adds_trans | by eauto]].
  apply await_inv in H4 as [Hpresent _].
  step (adds (R := RestoreResult) (at_most_lists backup_file))
       Hrun w5 u5 H5 Ha5;
    [unfold Restore._handle_existing_database; footprint|
    |split; [eauto 6 using adds_trans | by eauto]].
  assert (Hdropped : present = true ->
                     outcome (Restore.drop_database env) = Returned true).
  { intros ->. unfold Restore._handle_existing_database in H5.
    destruct (bind_inv _ _ _ _ _ H5) as [(w6 & dropped & H6 & H7)|(? & _ & ?)];
      [|done].
    destruct (bind_inv _ _ _ _ _ H6) as [(w7 & [] & _ & H8)|(? & _ & ?)];
      [|done].
    apply await_inv in H8 as [Hd _]. rewrite <- Hd.
    destruct dropped; [done|]. by inversion H7. }
  step (adds (R := RestoreResult) (at_most_lists backup_file))
       Hrun w6 created H6 Ha6;
    [footprint| |split; [eauto 7 using adds_trans | by eauto]].
  apply await_inv in H6 as [Hcreated _].
  step (adds (R := RestoreResult) (at_most_lists backup_file))
       Hrun w7 u7 H7 Ha7;
    [footprint| |split; [eauto 8 using adds_trans | by eauto]].
  exfalso. unfold database_ready in Hready.
  rewrite <- Hpresent, <- Hcreated in Hready.
  destruct created; [|by inversion H7].
  destruct present; [by rewrite Hdropped in Hready | done].
Qed.


(** X9.  No restore tool runs before the target database is there.  When the
    database exists and is not dropped, or is not created (the call
    answers [False] or raises), [restore_backup] runs nothing but
    [pg_restore --list] on the artifact, extracts and restores nothing,
    and the result it returns is [failed] with no table restored. *)
Theorem no_restore_before_the_database
        (backup_file : Pathlib.Path) (target : DatabaseConfig)
        (progress_callback : option Callback) (env : Restore.Env)
        (w w' : World RestoreResult) (o : Outcome Ref) :
  database_ready env = false ->
  Restore.restore_backup backup_file target progress_callback env w = (w', o) ->
  (exists events,
      trace w' = trace w ++ events
      /\ Forall (at_most_lists backup_file) events)
  /\ (forall r, o = Returned r ->
        exists result,
          heap w' !! r = Some result
          /\ r_status result = BackupStatus.FAILED
          /\ tables_restored result = 0).
Proof.
  intros Hready Hrun.
  destruct (restore_start_spec backup_file target progress_callback env w)
    as (wr & r & Hstart & Hfresh & Hheap & _ & _ & Htr).
  assert (Hr : heap wr !! r = Some _) by (rewrite Hheap; apply lookup_insert_eq).
  destruct (Restore.body backup_file target (Restore.restore_id_of env) r env wr)
    as [wb ob] eqn:Hbody.
  destruct (restore_body_result _ _ _ _ _ _ _ _ _ Hbody Hr)
    as (result & Hresult & Hshape).
  assert (Hstop : adds (at_most_lists backup_file) wr wb /\ exists e, ob = Raises e).
  { unfold Restore.body in Hbody.
    destruct (bind_inv _ _ _ _ _ Hbody) as [(w1 & info & H1 & _)|(e & H1 & ->)].
    - by destruct (restore_stops _ _ _ _ _ _ _ Hready H1) as (_ & e & ?).
    - destruct (restore_stops _ _ _ _ _ _ _ Hready H1) as (Ha & _). eauto. }
  destruct Hstop as (Ha & e & ->).
  destruct e as [msg|msg].
  - destruct (restore_on_exception_run r (Restore.t_end env) "Restore" msg wb
                result Hresult) as (w3 & Hhandler & Hr3 & Ht3).
    rewrite (restore_backup_run _ _ _ _ _ _ w3 r (Returned tt) Hstart) in Hrun
      by (unfold try_except; by rewrite Hbody).
    inversion Hrun; subst; clear Hrun. split.
    + destruct Ha as (events & Ht & Hevents).
      exists (events ++ [Log Level.ERROR ("Restore failed: " +:+ msg)]).
      cbn [cleanup trace]. rewrite Ht3, Ht, Htr, app_assoc. split; [done|].
      apply Forall_app. split; [done|]. by repeat constructor.
    + intros r' [= <-]. eexists. cbn [cleanup heap]. split; [exact Hr3|].
      split; [done|]. cbn. unfold same_restore in Hshape. cbn in Hshape.
      by destruct Hshape as (_ & _ & _ & -> & _).
  - rewrite (restore_backup_run _ _ _ _ _ _ wb r (Raises (BaseException msg))
               Hstart) in Hrun
      by (unfold try_except; by rewrite Hbody).
    inversion Hrun; subst; clear Hrun. split; [|done].
    destruct Ha as (events & Ht & Hevents). exists events.
    cbn [cleanup trace]. by rewrite Ht, Htr.
Qed.

Lemma no_restore_before_the_database_witness :
  (exists events,
      trace (Restore.restore_backup "backup.dump" localhost None
                                    uncreated_database idle).1
      = [] ++ events
      /\ Forall (at_most_lists "backup.dump") events)
  /\ (forall r,
         (Restore.restore_backup "backup.dump" localhost None
                                 uncreated_database idle).2 = Returned r ->
         exists result,
           heap (Restore.restore_backup "backup.dump" localhost None
                                        uncreated_database idle).1 !! r
           = Some result
           /\ r_status result = BackupStatus.FAILED
           /\ tables_restored result = 0).
Proof.
  apply (no_restore_before_the_database "backup.dump" localhost None
           uncreated_database idle).
  - reflexivity.
  - by destruct (Restore.restore_backup _ _ _ _ _).
Defined.

(** ** The format of an accepted artifact *)

Lemma suffix_never_compound p :
  Restore.member (Pathlib.suffix p)
    [".dump.gz"; ".dump.bz2"; ".tar.gz"; ".tar.bz2"; ".sql.gz"] = false.
Proof.
  destruct (suffix_single_dot p) as [->|(t & -> & Hfree)]; [done|].
  unfold Restore.member. simpl.
  repeat match goal with
         | |- context [String.eqb t ?lit] =>
             destruct (String.eqb_spec t lit) as [->|_]; [done|]
         end.
  done.
Qed.

(** The suffixes that the lists of the restore executor can match. *)
Lemma known_suffix_cases p :
  Restore.member (Pathlib.suffix p) known_suffixes = true ->
  Pathlib.suffix p = ".dump" \/ Pathlib.suffix p = ".tar"
  \/ Pathlib.suffix p = ".sql".
Proof.
  pose proof (suffix_never_compound p) as Hnever.
  unfold known_suffixes, Restore.member in *. cbn in *.
  destruct (String.eqb_spec (Pathlib.suffix p) ".dump"); [by left|].
  destruct (String.eqb_spec (Pathlib.suffix p) ".tar"); [by right; left|].
  destruct (String.eqb_spec (Pathlib.suffix p) ".sql"); [by right; right|].
  intros Hm. exfalso. revert Hm Hnever.
  destruct (String.eqb (Pathlib.suffix p) ".dump.gz"),
    (String.eqb (Pathlib.suffix p) ".dump.bz2"),
    (String.eqb (Pathlib.suffix p) ".tar.gz"),
    (String.eqb (Pathlib.suffix p) ".tar.bz2"),
    (String.eqb (Pathlib.suffix p) ".sql.gz"); cbn; congruence.
Qed.

Lemma verify_accepts backup_file env (w w1 : World RestoreResult) :
  Restore._verify_backup_file backup_file env w = (w1, Returned true) ->
  Restore.member (Pathlib.suffix backup_file) known_suffixes = true.
Proof.
  intros Hverify.
  destruct (Restore.member (Pathlib.suffix backup_file) known_suffixes)
    eqn:Hmember; [done|].
  destruct (Restore.file_exists env) as [present|[msg|msg]] eqn:Hexists.
  - destruct (verify_rejects backup_file env w Hmember) as (w' & Hrun & _);
      [congruence|]. congruence.
  - destruct (verify_rejects backup_file env w Hmember) as (w' & Hrun & _);
      [congruence|]. congruence.
  - unfold Restore._verify_backup_file in Hverify. unfold_monad.
    rewrite Hexists in Hverify. done.
Qed.

(** X10.  Verification and detection of the format agree.  For a file that
    [_verify_backup_file] has accepted, [_get_backup_info] names the
    format of its extension: [custom] for [.dump], [directory] for [.tar],
    [sql] for [.sql], there being no other extension that is accepted.
    The format is never missing; it is "unknown", for which the restore
    has no tool, only when the [stat] of the file fails. *)
Theorem accepted_file_has_a_format
        (backup_file : Pathlib.Path) (env : Restore.Env)
        (w w1 w2 : World RestoreResult) (info : Restore.BackupInfo) :
  Restore._verify_backup_file backup_file env w = (w1, Returned true) ->
  Restore._get_backup_info backup_file env w1 = (w2, Returned info) ->
  (Restore.file_stat env = Returned tt
   /\ (Pathlib.suffix backup_file = ".dump"
         /\ Restore.format info = Some "custom"
       \/ Pathlib.suffix backup_file = ".tar"
            /\ Restore.format info = Some "directory"
       \/ Pathlib.suffix backup_file = ".sql"
            /\ Restore.format info = Some "sql"))
  \/ ((exists msg, Restore.file_stat env = Raises (Exception msg))
      /\ Restore.format info = Some "unknown").
Proof.
  intros Hverify Hinfo. apply verify_accepts in Hverify.
  apply known_suffix_cases in Hverify.
  unfold Restore._get_backup_info in Hinfo.
  match type of Hinfo with
  | try_except ?b _ _ = _ => destruct (b w1) as [wb ob] eqn:Hbody
  end.
  unfold try_except in Hinfo. rewrite Hbody in Hinfo.
  destruct (Restore.file_stat env) as [[]|[msg|msg]] eqn:Hstat.
  - left. split; [done|].
    erewrite bind_returned in Hbody; [|reflexivity].
    assert (Hformat :
              Pathlib.suffix backup_file = ".dump"
                /\ (exists n, ob = Returned (Restore.mkInfo (Some "custom") n))
              \/ Pathlib.suffix backup_file = ".tar"
                   /\ (exists n, ob = Returned (Restore.mkInfo (Some "directory") n))
              \/ Pathlib.suffix backup_file = ".sql"
                   /\ (exists n, ob = Returned (Restore.mkInfo (Some "sql") n))).
    { destruct Hverify as [Hs|[Hs|Hs]]; rewrite Hs in Hbody |- *.
      - left. split; [done|].
        change (Restore.member ".dump" Restore.custom_suffixes) with true in Hbody.
        unfold Restore._get_custom_backup_info in Hbody.
        erewrite bind_returned in Hbody; [|reflexivity].
        match type of Hbody with
        | (interleave ?l ≫= _) ?w0 = _ =>
            destruct (interleave_silent (R := RestoreResult) l w0)
              as (w3 & Hi & _)
        end.
        erewrite bind_returned in Hbody; [|exact Hi].
        destruct (outcome (Restore.pg_restore_list_info env)) as [[rc out]|e];
          [destruct (rc =? 0)|]; inversion Hbody; eauto.
      - right; left. split; [done|].
        change (Restore.member ".tar" Restore.custom_suffixes) with false in Hbody.
        change (Restore.member ".tar" Restore.tar_suffixes) with true in Hbody.
        unfold Restore._get_tar_backup_info in Hbody.
        destruct (Restore.tar_getmembers env); inversion Hbody; eauto.
      - right; right. split; [done|].
        change (Restore.member ".sql" Restore.custom_suffixes) with false in Hbody.
        change (Restore.member ".sql" Restore.tar_suffixes) with false in Hbody.
        change (Restore.member ".sql" Restore.sql_suffixes) with true in Hbody.
        unfold Restore._get_sql_backup_info in Hbody.
        match type of Hbody with
        | context [match ?x with Returned _ => _ | Raises _ => _ end] =>
            destruct x
        end; inversion Hbody; eauto. }
    destruct Hformat as [(Hs & n & ->)|[(Hs & n & ->)|(Hs & n & ->)]];
      inversion Hinfo; subst; cbn; tauto.
  - right. split; [by eexists|].
    erewrite bind_raises in Hbody; [|reflexivity].
    inversion Hbody; subst; clear Hbody.
    unfold logger, emit in Hinfo. unfold_monad. by inversion Hinfo.
  - erewrite bind_raises in Hbody; [|reflexivity].
    inversion Hbody; subst. done.
Qed.

Lemma accepted_file_has_a_format_witness :
  (Restore.file_stat (smooth_restore 10) = Returned tt
   /\ (Pathlib.suffix "backup.dump" = ".dump"
         /\ Restore.format (Restore.mkInfo (Some "custom") (Some 10))
            = Some "custom"
       \/ Pathlib.suffix "backup.dump" = ".tar"
            /\ Restore.format (Restore.mkInfo (Some "custom") (Some 10))
               = Some "directory"
       \/ Pathlib.suffix "backup.dump" = ".sql"
            /\ Restore.format (Restore.mkInfo (Some "custom") (Some 10))
               = Some "sql"))
  \/ ((exists msg, Restore.file_stat (smooth_restore 10) = Raises (Exception msg))
      /\ Restore.format (Restore.mkInfo (Some "custom") (Some 10))
         = Some "unknown").
Proof.
  apply (accepted_file_has_a_format "backup.dump" (smooth_restore 10) idle
           (Restore._verify_backup_file "backup.dump" (smooth_restore 10) idle).1
           (Restore._get_backup_info "backup.dump" (smooth_restore 10)
              (Restore._verify_backup_file "backup.dump" (smooth_restore 10)
                                           idle).1).1);
    vm_compute; reflexivity.
Defined.


(** ** Restoring a plain SQL file *)

Lemma suffix_is_not_sql_gz p : String.eqb (Pathlib.suffix p) ".sql.gz" = false.
Proof.
  pose proof (suffix_never_compound p) as Hnever.
  unfold Restore.member in Hnever. cbn [existsb] in Hnever.
  do 4 (apply orb_false_elim in Hnever as [_ Hnever]).
  by apply orb_false_elim in Hnever as [Hnever _].
Qed.

(** X11.  [_restore_sql_format] never decompresses: its test for a compressed
    file looks at [Path.suffix], which is never [.sql.gz].  Whatever the
    name of the file, it is opened and fed as it is to one [psql]; the one
    report of progress is the final one, made if a callback is still
    registered, and made before the exit status is looked at: a failing
    [psql] is announced as completed, then raised with its error output. *)
Theorem sql_restore_feeds_one_psql
        (backup_file : Pathlib.Path) (target : DatabaseConfig)
        (restore_id : string) (env : Restore.Env) (w : World RestoreResult)
        (code : Z) (stderr : string) :
  Restore.open_rb env = Returned tt ->
  outcome (Restore.psql_spawn env) = Returned tt ->
  outcome (Restore.psql_communicate env) = Returned (code, stderr) ->
  exists w',
    Restore._restore_sql_format backup_file target restore_id env w
    = (w', if code =? 0 then Returned tt
           else Raises (Exception ("psql failed: " +:+ stderr)))
    /\ trace w'
       = trace w
         ++ Spawn ["psql"; "-h" +:+ host target; "-p" +:+ pretty (port target);
                   "-U" +:+ username target; "-d" +:+ database target;
                   "--verbose"]
         :: match progress_callbacks w' !! restore_id with
            | Some cb => [Call cb 100 "Restoring SQL backup completed"]
            | None => []
            end.
Proof.
  intros Hopen Hspawn Hcomm. unfold Restore._restore_sql_format.
  rewrite suffix_is_not_sql_gz.
  match goal with
  | |- context [emit (Spawn ?cmd)] => set (psql := cmd)
  end.
  destruct (await_returned (R := RestoreResult) _ tt
              (mkWorld (heap w) (active w) (progress_callbacks w)
                       (trace w ++ [Spawn psql])) Hspawn)
    as (w2 & Ha2 & Ht2 & _).
  destruct (await_returned (R := RestoreResult) _ (code, stderr) w2 Hcomm)
    as (w3 & Ha3 & Ht3 & _).
  destruct (notify_run (R := RestoreResult) restore_id 100
              ("Restoring SQL backup" +:+ " completed") w3)
    as (w4 & Hn & _ & _ & Hc4 & Ht4).
  exists w4. split.
  - erewrite bind_returned; cycle 1.
    { erewrite bind_returned; [|unfold lift; by rewrite Hopen].
      erewrite bind_returned; [|reflexivity].
      erewrite bind_returned; [|exact Ha2]. exact Ha3. }
    erewrite bind_returned; cycle 1.
    { unfold _monitor_restore_process, monitor. cbn [polls exit monitor_loop].
      erewrite bind_returned; [|reflexivity].
      erewrite bind_returned; [|reflexivity].
      erewrite bind_returned; [|exact Hn]. reflexivity. }
    cbn [fst snd]. by destruct (code =? 0).
  - rewrite Ht4, Ht3, Ht2, Hc4. cbn [trace]. by rewrite <- app_assoc.
Qed.

Lemma sql_restore_feeds_one_psql_witness :
  exists w',
    Restore._restore_sql_format "backup.sql.gz" localhost "restore_1705284000"
                                (smooth_restore 10) idle
    = (w', if 0 =? 0 then Returned tt
           else Raises (Exception ("psql failed: " +:+ "")))
    /\ trace w'
       = [] ++ Spawn ["psql"; "-h" +:+ "localhost"; "-p" +:+ pretty 5432;
                      "-U" +:+ "postgres"; "-d" +:+ "shop"; "--verbose"]
         :: match progress_callbacks w' !! "restore_1705284000" with
            | Some cb => [Call cb 100 "Restoring SQL backup completed"]
            | None => []
            end.
Proof.
  exact (sql_restore_feeds_one_psql "backup.sql.gz" localhost
           "restore_1705284000" (smooth_restore 10) idle 0 ""
           eq_refl eq_refl eq_refl).
Defined.

(** ** The scheduler: registry and history *)

Section Dict.
Context {V : Type}.
Implicit Types (d : BackupScheduler.Dict V) (k : string) (v : V).

Lemma getitem_setitem k k' v d :
  BackupScheduler.getitem k (BackupScheduler.setitem k' v d)
  = if String.eqb k' k then Some v else BackupScheduler.getitem k d.
Proof.
  induction d as [|[k0 v0] d IH]; cbn.
  - done.
  - destruct (String.eqb_spec k0 k') as [->|Hne]; cbn.
    + by destruct (String.eqb k' k).
    + destruct (String.eqb_spec k0 k) as [->|Hne'].
      * destruct (String.eqb_spec k' k) as [->|_]; done.
      * exact IH.
Qed.

Lemma getitem_delitem k k' d :
  BackupScheduler.getitem k (BackupScheduler.delitem k' d)
  = if String.eqb k' k then None else BackupScheduler.getitem k d.
Proof.
  unfold BackupScheduler.delitem.
  induction d as [|[k0 v0] d IH]; cbn.
  - by destruct (String.eqb k' k).
  - destruct (String.eqb_spec k0 k') as [->|Hne]; cbn.
    + rewrite IH. by destruct (String.eqb k' k).
    + destruct (String.eqb_spec k0 k) as [->|Hne'].
      * destruct (String.eqb_spec k' k) as [->|_]; done.
      * exact IH.
Qed.

Lemma getitem_alteritem (f : V -> V) k k' d :
  BackupScheduler.getitem k (BackupScheduler.alteritem f k' d)
  = if String.eqb k' k then f <$> BackupScheduler.getitem k d
    else BackupScheduler.getitem k d.
Proof.
  induction d as [|[k0 v0] d IH]; cbn.
  - by destruct (String.eqb k' k).
  - destruct (String.eqb_spec k0 k') as [->|Hne]; cbn.
    + by destruct (String.eqb k' k).
    + destruct (String.eqb_spec k0 k) as [->|Hne'].
      * destruct (String.eqb_spec k' k) as [->|_]; done.
      * exact IH.
Qed.

End Dict.

Lemma last_n_suffix {A} (n : Z) (l : list A) :
  BackupScheduler.last_n n l `suffix_of` l.
Proof. unfold BackupScheduler.last_n. destruct (0 <? n); apply suffix_drop. Qed.

Lemma last_n_length {A} (n : Z) (l : list A) :
  0 < n ->
  Z.of_nat (length (BackupScheduler.last_n n l)) = Z.min n (Z.of_nat (length l)).
Proof.
  intros Hn. unfold BackupScheduler.last_n.
  replace (0 <? n) with true by (symmetry; lia).
  rewrite length_drop. lia.
Qed.

Lemma last_n_last {A} (n : Z) (l : list A) :
  0 < n -> last (BackupScheduler.last_n n l) = last l.
Proof.
  intros Hn. unfold BackupScheduler.last_n.
  replace (0 <? n) with true by (symmetry; lia).
  destruct l as [|a l] using rev_ind; [by rewrite drop_nil|].
  rewrite drop_app_le by (rewrite length_app; simpl; lia).
  by rewrite !last_snoc.
Qed.


(** X12.  The history of the scheduler is bounded.  Whatever its length was,
    after [_add_to_history] it holds at most 1000 results; the result
    added is the last one, and the others are the most recent ones of
    before, in their order.  Nothing else of the scheduler changes. *)
Theorem history_stays_bounded (result : Ref) (s : BackupScheduler.State) :
  let s' := BackupScheduler._add_to_history result s in
  Z.of_nat (length (BackupScheduler.job_history s')) <= 1000
  /\ last (BackupScheduler.job_history s') = Some result
  /\ BackupScheduler.job_history s'
     `suffix_of` BackupScheduler.job_history s ++ [result]
  /\ (Z.of_nat (length (BackupScheduler.job_history s)) < 1000 ->
      BackupScheduler.job_history s'
      = BackupScheduler.job_history s ++ [result])
  /\ BackupScheduler.scheduled_jobs s' = BackupScheduler.scheduled_jobs s
  /\ BackupScheduler.backup_manager s' = BackupScheduler.backup_manager s.
Proof.
  unfold BackupScheduler._add_to_history, BackupScheduler.max_history.
  destruct (Z.ltb_spec 1000
              (Z.of_nat (length (BackupScheduler.job_history s ++ [result]))))
    as [Hlong|Hshort];
    unfold BackupScheduler.with_history;
    cbn [BackupScheduler.job_history BackupScheduler.scheduled_jobs
         BackupScheduler.backup_manager].
  - split; [rewrite last_n_length by lia; lia|].
    split; [rewrite last_n_last by lia; apply last_snoc|].
    split; [apply last_n_suffix|].
    split; [|done]. intros Hlen. rewrite length_app in Hlong. simpl in Hlong. lia.
  - split; [done|]. split; [apply last_snoc|]. done.
Qed.

Lemma history_stays_bounded_witness :
  BackupScheduler.job_history
    (BackupScheduler._add_to_history 0%nat fresh_scheduler)
  = [] ++ [0%nat].
Proof.
  apply (history_stays_bounded 0%nat fresh_scheduler). cbn. lia.
Defined.

(** X13.  [get_job_history(limit)] answers the [limit] most recent results,
    oldest first, or all of them when there are fewer -- for a positive
    [limit].  For [limit = 0] it answers the whole history, not the empty
    list: [history[-0:]] is [history[0:]]. *)
Theorem get_job_history_limit (limit : Z) (s : BackupScheduler.State) :
  BackupScheduler.get_job_history limit s
    `suffix_of` BackupScheduler.job_history s
  /\ (0 < limit ->
      Z.of_nat (length (BackupScheduler.get_job_history limit s))
      = Z.min limit (Z.of_nat (length (BackupScheduler.job_history s))))
  /\ (limit = 0 ->
      BackupScheduler.get_job_history limit s = BackupScheduler.job_history s).
Proof.
  unfold BackupScheduler.get_job_history.
  split; [apply last_n_suffix|]. split; [apply last_n_length|].
  by intros ->.
Qed.

Lemma get_job_history_limit_witness :
  BackupScheduler.get_job_history 0
    (BackupScheduler._add_to_history 0%nat fresh_scheduler)
  = BackupScheduler.job_history
      (BackupScheduler._add_to_history 0%nat fresh_scheduler).
Proof.
  by apply (get_job_history_limit 0
              (BackupScheduler._add_to_history 0%nat fresh_scheduler)).
Defined.

(** X14.  [update_job] makes the registry agree with the job: under the id of
    the job there is the job when it has a schedule and is enabled, and
    nothing otherwise; the other ids are as before.  [add_job] differs on
    a job that cannot be scheduled: it leaves the registry as it is, so
    that an earlier registration of the id stays in force.  And a job
    that is added while it is disabled is not registered, so that
    [enable_job] finds nothing to enable. *)
Theorem update_job_registers_or_removes
        (job : BackupJob) (s : BackupScheduler.State) (k : string) :
  BackupScheduler.getitem k
    (BackupScheduler.scheduled_jobs (BackupScheduler.update_job job s))
  = (if String.eqb (id job) k
     then if BackupScheduler.schedulable job then Some job else None
     else BackupScheduler.getitem k (BackupScheduler.scheduled_jobs s))
  /\ BackupScheduler.getitem k
       (BackupScheduler.scheduled_jobs (BackupScheduler.add_job job s))
     = (if String.eqb (id job) k && BackupScheduler.schedulable job
        then Some job
        else BackupScheduler.getitem k (BackupScheduler.scheduled_jobs s))
  /\ (enabled job = false ->
      BackupScheduler.getitem (id job) (BackupScheduler.scheduled_jobs s) = None ->
      BackupScheduler.enable_job (id job) (BackupScheduler.add_job job s) = s).
Proof.
  unfold BackupScheduler.update_job, BackupScheduler.add_job,
    BackupScheduler.remove_job.
  split; [|split].
  - destruct (BackupScheduler.schedulable job); cbn.
    + rewrite getitem_setitem. by destruct (String.eqb (id job) k).
    + destruct (BackupScheduler.getitem (id job)
                  (BackupScheduler.scheduled_jobs s)) eqn:Hthere; cbn.
      * apply getitem_delitem.
      * destruct (String.eqb_spec (id job) k) as [<-|_]; done.
  - destruct (BackupScheduler.schedulable job); cbn.
    + rewrite getitem_setitem. by destruct (String.eqb (id job) k).
    + by rewrite andb_false_r.
  - intros Hoff Hnew. unfold BackupScheduler.schedulable. rewrite Hoff.
    replace (match schedule job with
             | Some "" => false | Some _ => false | None => false
             end) with false by (by repeat case_match).
    unfold BackupScheduler.enable_job. by rewrite Hnew.
Qed.

Lemma load_jobs_snoc jobs job (s : BackupScheduler.State) :
  BackupScheduler.load_jobs_from_config (jobs ++ [job]) s
  = (if BackupScheduler.schedulable job
     then BackupScheduler.add_job job
            (BackupScheduler.load_jobs_from_config jobs s)
     else BackupScheduler.load_jobs_from_config jobs s).
Proof. unfold BackupScheduler.load_jobs_from_config. by rewrite fold_left_app. Qed.

(** X15.  [load_jobs_from_config] registers, under each id, the last job of
    that id in the configuration that has a schedule and is enabled; an
    id for which the configuration holds no such job keeps the
    registration it had. *)
Theorem load_jobs_registers_the_last
        (jobs : list BackupJob) (s : BackupScheduler.State) (k : string) :
  BackupScheduler.getitem k
    (BackupScheduler.scheduled_jobs
       (BackupScheduler.load_jobs_from_config jobs s))
  = match last (List.filter
                  (fun job => String.eqb (id job) k
                              && BackupScheduler.schedulable job) jobs) with
    | Some job => Some job
    | None => BackupScheduler.getitem k (BackupScheduler.scheduled_jobs s)
    end.
Proof.
  induction jobs as [|job jobs IH] using rev_ind; [done|].
  rewrite load_jobs_snoc, List.filter_app. cbn [List.filter].
  destruct (BackupScheduler.schedulable job) eqn:Hok.
  - unfold BackupScheduler.add_job. rewrite Hok.
    cbn [BackupScheduler.with_jobs BackupScheduler.scheduled_jobs].
    rewrite getitem_setitem.
    destruct (String.eqb (id job) k); cbn [andb].
    + by rewrite last_snoc.
    + by rewrite app_nil_r.
  - rewrite andb_false_r, app_nil_r. exact IH.
Qed.

(** ** The scheduler: a tick *)

Section TickProperties.
Variable croniter_get_next : string -> datetime -> option datetime.

Lemma check_and_run_jobs_fold now (jobs : list BackupJob)
      (s : BackupScheduler.State) :
  fold_left
    (fun s job =>
       if negb (enabled job) then s
       else if Scheduler._should_run_job croniter_get_next job now
            then BackupScheduler.with_tasks (BackupScheduler.tasks s ++ [job]) s
            else s)
    jobs s
  = BackupScheduler.with_tasks
      (BackupScheduler.tasks s
         ++ List.filter
              (fun job => enabled job
                          && Scheduler._should_run_job croniter_get_next job now)
              jobs) s.
Proof.
  revert s. induction jobs as [|job jobs IH]; intros s; cbn [fold_left List.filter].
  - rewrite app_nil_r. by destruct s.
  - rewrite IH. destruct (enabled job); cbn [negb andb]; [|done].
    destruct (Scheduler._should_run_job croniter_get_next job now); [|done].
    unfold BackupScheduler.with_tasks. cbn. by rewrite <- app_assoc.
Qed.

(** X16.  A tick of the scheduler creates one task for each registered job
    that is enabled and due, in the order of the registry, and changes
    nothing else.  After [disable_job(k)] no tick creates a task for the
    job held under [k], until it is enabled again. *)
Theorem tick_runs_enabled_due_jobs
        (now : datetime) (s : BackupScheduler.State) (k : string) :
  BackupScheduler._check_and_run_jobs croniter_get_next now s
  = BackupScheduler.with_tasks
      (BackupScheduler.tasks s
         ++ List.filter
              (fun job => enabled job
                          && Scheduler._should_run_job croniter_get_next job now)
              (BackupScheduler.get_scheduled_jobs s)) s
  /\ (forall job,
        BackupScheduler.getitem k
          (BackupScheduler.scheduled_jobs (BackupScheduler.disable_job k s))
        = Some job ->
        enabled job = false
        /\ job ∉ List.filter
                   (fun job =>
                      enabled job
                      && Scheduler._should_run_job croniter_get_next job now)
                   (BackupScheduler.get_scheduled_jobs
                      (BackupScheduler.disable_job k s))).
Proof.
  split; [apply check_and_run_jobs_fold|].
  intros job Hjob.
  assert (Hoff : enabled job = false).
  { unfold BackupScheduler.disable_job in Hjob.
    destruct (BackupScheduler.getitem k (BackupScheduler.scheduled_jobs s))
      as [job0|] eqn:Hthere; cbn in Hjob; [|congruence].
    rewrite getitem_alteritem, String.eqb_refl, Hthere in Hjob.
    by inversion Hjob. }
  split; [done|]. rewrite list_elem_of_In, filter_In. intros [_ Hon].
  by rewrite Hoff in Hon.
Qed.

End TickProperties.


(** ** The scheduler: running a job *)

(** [create_backup] lets no [Exception] through. *)
Lemma create_backup_catches job progress_callback env
      (w w' : World BackupResult) msg :
  Backup.create_backup job progress_callback env w
  <> (w', Raises (Exception msg)).
Proof.
  destruct (backup_start_spec job progress_callback env w)
    as (wr & r & Hstart & _).
  destruct (try_except (Backup.body job r env)
                       (on_exception r (Backup.t_end env) "Backup") wr)
    as [wb ob] eqn:Htry.
  rewrite (create_backup_run _ _ _ _ _ _ _ _ Hstart Htry).
  unfold try_except in Htry.
  destruct (Backup.body job r env wr) as [wb' [[]|[msg'|msg']]];
    inversion Htry; subst; done.
Qed.

(** The result that [create_backup] returns is that of the job. *)
Lemma create_backup_job_id job progress_callback env
      (w w' : World BackupResult) r :
  Backup.create_backup job progress_callback env w = (w', Returned r) ->
  exists result, heap w' !! r = Some result /\ job_id result = id job.
Proof.
  intros Hrun.
  destruct (backup_start_spec job progress_callback env w)
    as (wr & r' & Hstart & _ & Hheap & _).
  destruct (try_except (Backup.body job r' env)
                       (on_exception r' (Backup.t_end env) "Backup") wr)
    as [wb ob] eqn:Htry.
  rewrite (create_backup_run _ _ _ _ _ _ _ _ Hstart Htry) in Hrun.
  assert (r' = r) as -> by (destruct ob; by inversion Hrun).
  assert (w' = cleanup (id job) wb) as -> by (by inversion Hrun).
  eapply (respects_run (evolves same_job)) in Htry.
  - destruct (Htry r _ ltac:(rewrite Hheap; apply lookup_insert_eq))
      as (result & Hr & Hjob).
    exists result. split; [done|]. exact Hjob.
  - assert (Hupdate : forall f, (forall a, job_id (f a) = job_id a) ->
                                respects (evolves same_job) (update r f)).
    { intros f Hf. apply evolves_update; [done|]. intros a. apply Hf. }
    apply respects_try_except; [apply _| |].
    + unfold Backup.body.
      pose proof (full_backup_respects (evolves same_job)) as Hfull.
      unfold Backup.dump. footprint.
    + intros msg. unfold on_exception. footprint.
Qed.

Lemma handle_retention_returns job now fs :
  exists fs', Scheduler._handle_retention job now fs = (fs', Returned tt).
Proof.
  exists fs. unfold Scheduler._handle_retention.
  unfold try_except, mbind, coroutine_bind, bind, gets, mret, coroutine_ret, ret.
  destruct (Scheduler.present fs); simpl; [|done].
  by rewrite sweep_skips_all.
Qed.

Lemma add_to_history_with_manager r w (s : BackupScheduler.State) :
  BackupScheduler._add_to_history r (BackupScheduler.with_manager w s)
  = BackupScheduler.with_manager w (BackupScheduler._add_to_history r s).
Proof.
  unfold BackupScheduler._add_to_history.
  cbn [BackupScheduler.with_manager BackupScheduler.job_history].
  by destruct (_ <? _).
Qed.

Lemma add_all_with_manager l w (s : BackupScheduler.State) :
  fold_left (fun s r => BackupScheduler._add_to_history r s) l
            (BackupScheduler.with_manager w s)
  = BackupScheduler.with_manager w
      (fold_left (fun s r => BackupScheduler._add_to_history r s) l s).
Proof.
  revert s. induction l as [|r l IH]; intros s; cbn [fold_left]; [done|].
  by rewrite add_to_history_with_manager, IH.
Qed.

Lemma add_to_history_jobs r (s : BackupScheduler.State) :
  BackupScheduler.scheduled_jobs (BackupScheduler._add_to_history r s)
  = BackupScheduler.scheduled_jobs s.
Proof. unfold BackupScheduler._add_to_history. by destruct (_ <? _). Qed.

Lemma add_all_jobs l (s : BackupScheduler.State) :
  BackupScheduler.scheduled_jobs
    (fold_left (fun s r => BackupScheduler._add_to_history r s) l s)
  = BackupScheduler.scheduled_jobs s.
Proof.
  revert s. induction l as [|r l IH]; intros s; cbn [fold_left]; [done|].
  by rewrite IH, add_to_history_jobs.
Qed.

(** What [_run_job] makes of the answer of the manager. *)
Lemma run_job_spec job env (s : BackupScheduler.State) w' o :
  Backup.create_backup job (Some (BackupScheduler.progress_callback env))
    (BackupScheduler.backup env) (BackupScheduler.backup_manager s) = (w', o) ->
  match o with
  | Returned r =>
      exists s',
        BackupScheduler._run_job job env s = (s', Returned tt)
        /\ BackupScheduler.job_history s'
           = BackupScheduler.job_history
               (BackupScheduler._add_to_history r
                  (fold_left (fun s r => BackupScheduler._add_to_history r s)
                             (BackupScheduler.meanwhile env) s))
        /\ BackupScheduler.backup_manager s' = w'
        /\ BackupScheduler.scheduled_jobs s' = BackupScheduler.scheduled_jobs s
  | Raises e =>
      BackupScheduler._run_job job env s
      = (BackupScheduler.with_manager w' s, Raises e)
      /\ exists msg, e = BaseException msg
  end.
Proof.
  intros Hrun. unfold BackupScheduler._run_job, try_except.
  destruct o as [r|[msg|msg]].
  - set (s1 := BackupScheduler._add_to_history r
                 (fold_left (fun s r => BackupScheduler._add_to_history r s)
                            (BackupScheduler.meanwhile env)
                            (BackupScheduler.with_manager w' s))).
    destruct (handle_retention_returns job (BackupScheduler.retention_now env)
                (BackupScheduler.storage s1)) as (fs' & Hfs).
    exists (BackupScheduler.with_storage fs' s1).
    split; [|split; [|split]].
    + erewrite bind_returned;
        [|unfold BackupScheduler.on_manager; rewrite Hrun; reflexivity].
      erewrite bind_returned; [|reflexivity].
      erewrite bind_returned; [|reflexivity].
      unfold BackupScheduler.on_storage. fold s1. by rewrite Hfs.
    + subst s1. by rewrite add_all_with_manager, add_to_history_with_manager.
    + subst s1. by rewrite add_all_with_manager, add_to_history_with_manager.
    + subst s1. cbn [BackupScheduler.with_storage BackupScheduler.scheduled_jobs].
      by rewrite add_to_history_jobs, add_all_jobs.
  - by destruct (create_backup_catches _ _ _ _ _ _ Hrun).
  - erewrite bind_raises;
      [|unfold BackupScheduler.on_manager; rewrite Hrun; reflexivity].
    split; [done | by eexists].
Qed.


Lemma add_to_history_last r (s : BackupScheduler.State) :
  last (BackupScheduler.job_history (BackupScheduler._add_to_history r s))
  = Some r.
Proof.
  unfold BackupScheduler._add_to_history, BackupScheduler.max_history.
  destruct (_ <? _); cbn [BackupScheduler.with_history BackupScheduler.job_history].
  - rewrite last_n_last by lia. apply last_snoc.
  - apply last_snoc.
Qed.

(** X17.  [_run_job] records what the manager answers.  When [create_backup]
    returns, its result object, completed or failed, is appended to the
    history (after what other tasks appended meanwhile), it is the result
    of this job, and [_run_job] returns normally.  The handler of
    [_run_job], which would record a result of its own making, never
    runs: [create_backup] lets no [Exception] through and the retention
    sweep catches its own.  Only the cancellation of the task (or another
    exception that is not an [Exception]) leaves [_run_job], and then
    nothing is recorded. *)
Theorem run_job_records_the_result
        (job : BackupJob) (env : BackupScheduler.Env)
        (s : BackupScheduler.State) :
  match Backup.create_backup
          job (Some (BackupScheduler.progress_callback env))
          (BackupScheduler.backup env) (BackupScheduler.backup_manager s) with
  | (w', Returned r) =>
      exists s',
        BackupScheduler._run_job job env s = (s', Returned tt)
        /\ BackupScheduler.job_history s'
           = BackupScheduler.job_history
               (BackupScheduler._add_to_history r
                  (fold_left (fun s r => BackupScheduler._add_to_history r s)
                             (BackupScheduler.meanwhile env) s))
        /\ last (BackupScheduler.job_history s') = Some r
        /\ BackupScheduler.backup_manager s' = w'
        /\ exists result, heap w' !! r = Some result /\ job_id result = id job
  | (w', Raises e) =>
      BackupScheduler._run_job job env s
      = (BackupScheduler.with_manager w' s, Raises e)
      /\ exists msg, e = BaseException msg
  end.
Proof.
  destruct (Backup.create_backup _ _ _ _) as [w' o] eqn:Hrun.
  pose proof (run_job_spec job env s w' o Hrun) as Hspec.
  destruct o as [r|e]; [|done].
  destruct Hspec as (s' & Hjob & Hhistory & Hmanager & _).
  exists s'. split; [done|]. split; [done|].
  split; [rewrite Hhistory; apply add_to_history_last|].
  split; [done|]. by eapply create_backup_job_id.
Qed.

Lemma last_result_found job_id' (s : BackupScheduler.State) r result :
  last (BackupScheduler.job_history s) = Some r ->
  heap (BackupScheduler.backup_manager s) !! r = Some result ->
  job_id result = job_id' ->
  BackupScheduler.last_result_of job_id' s = Some r.
Proof.
  intros Hlast Hr Hjob. unfold BackupScheduler.last_result_of.
  destruct (BackupScheduler.job_history s) as [|r0 h] using rev_ind; [done|].
  rewrite last_snoc in Hlast. inversion Hlast; subst.
  rewrite rev_app_distr. cbn. by rewrite Hr, String.eqb_refl.
Qed.

(** X18.  [run_job_now] answers [None] for an id that is not registered, and
    runs nothing.  For a registered job it answers the result of the run
    it has just made, whatever other tasks recorded meanwhile; the
    cancellation of the task leaves it as it leaves [_run_job]. *)
Theorem run_job_now_answers_this_run
        (job_id' : string) (env : BackupScheduler.Env)
        (s : BackupScheduler.State) :
  match BackupScheduler.getitem job_id' (BackupScheduler.scheduled_jobs s) with
  | None => BackupScheduler.run_job_now job_id' env s = (s, Returned None)
  | Some job =>
      id job = job_id' ->
      match Backup.create_backup
              job (Some (BackupScheduler.progress_callback env))
              (BackupScheduler.backup env) (BackupScheduler.backup_manager s)
      with
      | (w', Returned r) =>
          exists s',
            BackupScheduler.run_job_now job_id' env s = (s', Returned (Some r))
            /\ last (BackupScheduler.job_history s') = Some r
            /\ BackupScheduler.backup_manager s' = w'
      | (w', Raises e) =>
          BackupScheduler.run_job_now job_id' env s
          = (BackupScheduler.with_manager w' s, Raises e)
      end
  end.
Proof.
  unfold BackupScheduler.run_job_now.
  destruct (BackupScheduler.getitem job_id' (BackupScheduler.scheduled_jobs s))
    as [job|]; [|done].
  intros Hid.
  destruct (Backup.create_backup _ _ _ _) as [w' o] eqn:Hrun.
  pose proof (run_job_spec job env s w' o Hrun) as Hspec.
  destruct o as [r|e].
  - destruct Hspec as (s' & Hjob & Hhistory & Hmanager & _).
    destruct (create_backup_job_id _ _ _ _ _ _ Hrun) as (result & Hr & Hjid).
    assert (Hlast : last (BackupScheduler.job_history s') = Some r)
      by (rewrite Hhistory; apply add_to_history_last).
    exists s'. split; [|by split].
    erewrite bind_returned; [|exact Hjob].
    unfold gets. erewrite last_result_found; [done|exact Hlast| |];
      [by rewrite Hmanager | congruence].
  - destruct Hspec as [Hjob _]. by erewrite bind_raises.
Qed.

Lemma run_job_now_answers_this_run_witness :
  exists s',
    BackupScheduler.run_job_now "job1" first_run fresh_scheduler
    = (s', Returned (Some 0%nat))
    /\ last (BackupScheduler.job_history s') = Some 0%nat.
Proof.
  pose proof (run_job_now_answers_this_run "job1" first_run fresh_scheduler)
    as Hrun.
  cbn [BackupScheduler.getitem BackupScheduler.scheduled_jobs fresh_scheduler
       String.eqb Ascii.eqb Bool.eqb] in Hrun.
  specialize (Hrun eq_refl).
  destruct (Backup.create_backup _ _ _ _) as [w' [r|e]] eqn:Hbackup in Hrun.
  - assert (r = 0%nat) as -> by (vm_compute in Hbackup; congruence).
    destruct Hrun as (s' & Hnow & Hlast & _). by exists s'.
  - vm_compute in Hbackup. congruence.
Defined.

(** ** Validation of a backup file *)

Lemma valid_extension_cases p :
  Restore.member (Pathlib.suffix p) FileValidation.valid_extensions = true ->
  Pathlib.suffix p = ".sql" \/ Pathlib.suffix p = ".dump"
  \/ Pathlib.suffix p = ".tar".
Proof.
  pose proof (suffix_never_compound p) as Hnever.
  unfold FileValidation.valid_extensions, Restore.member in *. cbn in *.
  destruct (String.eqb_spec (Pathlib.suffix p) ".sql"); [by left|].
  destruct (String.eqb_spec (Pathlib.suffix p) ".dump"); [by right; left|].
  destruct (String.eqb_spec (Pathlib.suffix p) ".tar"); [by right; right|].
  intros Hm. exfalso. revert Hm Hnever.
  destruct (String.eqb (Pathlib.suffix p) ".dump.gz"),
    (String.eqb (Pathlib.suffix p) ".dump.bz2"),
    (String.eqb (Pathlib.suffix p) ".tar.gz"),
    (String.eqb (Pathlib.suffix p) ".tar.bz2"),
    (String.eqb (Pathlib.suffix p) ".sql.gz"); cbn; congruence.
Qed.

(** X19.  [validate_backup_file] finds nothing to report exactly when the path
    exists and is a file, its last extension is [.sql], [.dump] or [.tar],
    it is not empty, and it can be read: as a tar archive for [.tar], by
    its first bytes otherwise.  The compressed artifacts, whose last
    extension is [.gz] or [.bz2], are always reported for their
    extension, although the list of valid extensions names them. *)
Theorem validate_backup_file_accepts
        (file_path : Pathlib.Path) (env : FileValidation.Env) :
  FileValidation.validate_backup_file file_path env = Returned []
  <-> FileValidation.file_exists env = Returned true
      /\ FileValidation.is_file env = Returned true
      /\ (exists size, FileValidation.st_size env = Returned size /\ size <> 0)
      /\ (Pathlib.suffix file_path = ".tar"
            /\ Restore.succeeded (FileValidation.tar_getmembers env) = true
          \/ (Pathlib.suffix file_path = ".sql"
              \/ Pathlib.suffix file_path = ".dump")
             /\ Restore.succeeded (FileValidation.open_read_1k env) = true).
Proof.
  unfold FileValidation.validate_backup_file, FileValidation.read_attempt.
  split.
  - destruct (FileValidation.file_exists env) as [[]|e]; try done.
    destruct (FileValidation.is_file env) as [[]|e]; try done.
    destruct (FileValidation.st_size env) as [size|e]; try done.
    destruct (Restore.member (Pathlib.suffix file_path)
                             FileValidation.valid_extensions) eqn:Hext;
      cbn [negb app].
    2:{ destruct (size =? 0); by repeat case_match. }
    destruct (Z.eqb_spec size 0) as [->|Hsize]; [by repeat case_match|].
    intros Hrun. split; [done|]. split; [done|]. split; [by eauto|].
    destruct (valid_extension_cases _ Hext) as [Hs|[Hs|Hs]];
      rewrite Hs in Hrun |- *; cbn in Hrun.
    + right. split; [by left|].
      by destruct (FileValidation.open_read_1k env) as [|[]].
    + right. split; [by right|].
      by destruct (FileValidation.open_read_1k env) as [|[]].
    + left. split; [done|].
      by destruct (FileValidation.tar_getmembers env) as [|[]].
  - intros (-> & -> & (size & -> & Hsize) & Hread).
    replace (size =? 0) with false by (symmetry; lia).
    destruct Hread as [[Hs Hok]|[[Hs|Hs] Hok]]; rewrite Hs; cbn.
    + by destruct (FileValidation.tar_getmembers env).
    + by destruct (FileValidation.open_read_1k env).
    + by destruct (FileValidation.open_read_1k env).
Qed.


(** ** The sanitized file name *)

Lemma lstrip_suffix s : FileValidation.lstrip s `suffix_of` s.
Proof.
  induction s as [|c s IH]; cbn; [done|].
  destruct (FileValidation.stripped_character c); [|done].
  by apply suffix_cons_r.
Qed.

Lemma lstrip_head s :
  match FileValidation.lstrip s with
  | [] => Forall (fun c => FileValidation.stripped_character c = true) s
  | c :: _ => FileValidation.stripped_character c = false
  end.
Proof.
  induction s as [|c s IH]; cbn; [done|].
  destruct (FileValidation.stripped_character c) eqn:Hc; [|done].
  destruct (FileValidation.lstrip s); [by constructor | done].
Qed.

Lemma strip_sublist (P : ascii -> Prop) s :
  Forall P s -> Forall P (FileValidation.strip s).
Proof.
  intros Hs. unfold FileValidation.strip. apply List.Forall_rev.
  destruct (lstrip_suffix (rev (FileValidation.lstrip s))) as [k Hk].
  assert (Hrev : Forall P (rev (FileValidation.lstrip s))).
  { apply List.Forall_rev. destruct (lstrip_suffix s) as [k' Hk'].
    rewrite Hk' in Hs. by apply Forall_app in Hs as [_ ?]. }
  rewrite Hk in Hrev. by apply Forall_app in Hrev as [_ ?].
Qed.

(** What [strip] leaves begins and ends with a character that it does
    not remove. *)
Lemma strip_ends s :
  match FileValidation.strip s with
  | [] => True
  | c :: rest =>
      FileValidation.stripped_character c = false
      /\ exists c', last (c :: rest) = Some c'
                    /\ FileValidation.stripped_character c' = false
  end.
Proof.
  unfold FileValidation.strip.
  pose proof (lstrip_head s) as Hfirst.
  pose proof (lstrip_head (rev (FileValidation.lstrip s))) as Hlast.
  destruct (lstrip_suffix (rev (FileValidation.lstrip s))) as [k Hk].
  destruct (FileValidation.lstrip s) as [|c t] eqn:Ht; [done|].
  destruct (FileValidation.lstrip (rev (c :: t))) as [|c' t'] eqn:Ht'.
  { exfalso. apply List.Forall_rev in Hlast. rewrite rev_involutive in Hlast.
    inversion Hlast; subst. congruence. }
  assert (Hshape : exists u, rev (c' :: t') = c :: u).
  { apply (f_equal (@rev ascii)) in Hk. rewrite rev_involutive, rev_app_distr in Hk.
    destruct (rev (c' :: t')) as [|x u] eqn:Hx.
    - apply (f_equal (@length ascii)) in Hx. rewrite length_rev in Hx. done.
    - cbn in Hk. inversion Hk; subst. by eexists. }
  destruct Hshape as [u Hu]. rewrite Hu. split; [done|].
  exists c'. split; [|done].
  rewrite <- Hu. cbn [rev]. apply last_snoc.
Qed.

Lemma invalid_replaced filename :
  Forall (fun c => FileValidation.invalid_character c = false)
         (map (fun c => if FileValidation.invalid_character c
                        then "_"%char else c) filename).
Proof.
  apply Forall_map, Forall_forall. intros c _.
  by destruct (FileValidation.invalid_character c) eqn:Hc.
Qed.

(** X20.  [sanitize_filename] always answers a usable name: it is not empty,
    has at most 255 characters, holds none of the characters that the
    function replaces, and does not begin with a space or a dot.  It does
    not end with one either when the text given has at most 255
    characters; a longer one is cut after the spaces and dots have been
    stripped, and the cut may end on one. *)
Theorem sanitize_filename_is_safe (filename : list ascii) :
  let sanitized := FileValidation.sanitize_filename filename in
  (0 < length sanitized <= 255)%nat
  /\ Forall (fun c => FileValidation.invalid_character c = false) sanitized
  /\ (exists c rest,
         sanitized = c :: rest /\ FileValidation.stripped_character c = false)
  /\ ((length filename <= 255)%nat ->
      exists c, last sanitized = Some c
                /\ FileValidation.stripped_character c = false).
Proof.
  unfold FileValidation.sanitize_filename.
  set (replaced := map _ filename).
  pose proof (strip_sublist _ _ (invalid_replaced filename)) as Hvalid.
  pose proof (strip_ends replaced) as Hends. fold replaced in Hvalid.
  assert (Hlen : (length (FileValidation.strip replaced) <= length filename)%nat).
  { unfold FileValidation.strip. rewrite length_rev.
    etrans; [apply suffix_length, lstrip_suffix|]. rewrite length_rev.
    etrans; [apply suffix_length, lstrip_suffix|].
    subst replaced. by rewrite length_map. }
  set (named := match FileValidation.strip replaced with
                | [] => list_ascii_of_string "unnamed"
                | _ => FileValidation.strip replaced
                end).
  assert (Hnamed :
            Forall (fun c => FileValidation.invalid_character c = false) named
            /\ (exists c rest,
                   named = c :: rest
                   /\ FileValidation.stripped_character c = false
                   /\ exists c', last named = Some c'
                                 /\ FileValidation.stripped_character c' = false)
            /\ ((length filename <= 255)%nat -> (length named <= 255)%nat)).
  { subst named. destruct (FileValidation.strip replaced) as [|c rest].
    - split; [by repeat constructor|]. split; [|cbn; lia].
      do 2 eexists. split; [reflexivity|]. split; [done|]. by eexists.
    - split; [done|]. split; [|lia].
      destruct Hends as [Hc Hlast]. by exists c, rest. }
  destruct Hnamed as (Hall & (c & rest & Heq & Hc & c' & Hlast & Hc') & Hshort).
  destruct (Nat.ltb_spec 255 (length named)) as [Hlong|Hfits].
  - split; [rewrite length_take; lia|].
    split; [by apply Forall_take|].
    split; [rewrite Heq; cbn; by eauto|].
    intros Hfile. specialize (Hshort Hfile). lia.
  - split; [rewrite Heq in Hfits |- *; cbn in *; lia|].
    split; [done|]. split; [by eauto|]. by eauto.
Qed.

Lemma sanitize_filename_is_safe_witness :
  exists c,
    last (FileValidation.sanitize_filename
            (list_ascii_of_string " ..backup:2024*.sql. "))
    = Some c
    /\ FileValidation.stripped_character c = false.
Proof.
  apply (sanitize_filename_is_safe
           (list_ascii_of_string " ..backup:2024*.sql. ")).
  cbn. lia.
Defined.

(** ** The standalone tool: the estimate of the table count *)

Lemma endswith_append (p body : string) :
  Str.endswith p (body +:+ p) = true.
Proof.
  unfold Str.endswith. rewrite length_append.
  replace (String.length body + String.length p - String.length p)%nat
    with (String.length body + 0)%nat by lia.
  rewrite drop_append. apply String.eqb_refl.
Qed.

Lemma endswith_other (p q body : string) :
  String.length p = String.length q -> p <> q ->
  Str.endswith p (body +:+ q) = false.
Proof.
  intros Hlen Hne. unfold Str.endswith. rewrite length_append, Hlen.
  replace (String.length body + String.length q - String.length q)%nat
    with (String.length body + 0)%nat by lia.
  rewrite drop_append. apply String.eqb_neq. cbn. congruence.
Qed.

(** X21.  The standalone tool tells its three kinds of backup apart by the
    whole name.  For a file named [x.tar.gz] the estimate is the default
    50 and the file is not read; a file named [x.sql.gz] is read through
    gzip and a file named [x.sql] as it is, the estimate being the count
    of "CREATE TABLE" in the text, or 50 when reading raises an
    [Exception]. *)
Theorem estimate_reads_by_extension
        (backup_file : Pathlib.Path) (env : Cli.Env) (body : string) :
  body <> "" ->
  (Pathlib.name backup_file = body +:+ ".tar.gz" ->
   Cli._estimate_table_count backup_file env = Returned 50)
  /\ (Pathlib.name backup_file = body +:+ ".sql.gz" ->
      Cli._estimate_table_count backup_file env
      = Cli.counted (Cli.gzip_read env))
  /\ (Pathlib.name backup_file = body +:+ ".sql" ->
      Cli._estimate_table_count backup_file env
      = Cli.counted (Cli.open_read env)).
Proof.
  intros Hbody. unfold Cli._estimate_table_count. split; [|split]; intros Hname.
  - destruct (suffix_of_name backup_file (body +:+ ".tar") "gz") as [-> ->];
      try done.
    + by rewrite Hname, append_assoc.
    + by apply append_not_nil_r.
    + by rewrite endswith_append.
  - destruct (suffix_of_name backup_file (body +:+ ".sql") "gz") as [-> ->];
      try done.
    + by rewrite Hname, append_assoc.
    + by apply append_not_nil_r.
    + by rewrite endswith_other.
  - by destruct (suffix_of_name backup_file body "sql") as [-> ->].
Qed.

Lemma estimate_reads_by_extension_witness :
  Cli._estimate_table_count "/backups/shop_20240115_020000.sql.gz" two_tables
  = Cli.counted (Cli.gzip_read two_tables).
Proof.
  apply (estimate_reads_by_extension
           "/backups/shop_20240115_020000.sql.gz" two_tables
           "shop_20240115_020000"); [discriminate | reflexivity].
Defined.

(** ** Results of finished operations *)

Lemma create_backup_untouched job progress_callback env r0 :
  respects (untouched r0) (Backup.create_backup job progress_callback env).
Proof.
  intros w w' o Hrun result Hr0 Hactive.
  destruct (backup_start_spec job progress_callback env w)
    as (wr & r & Hstart & Hfresh & Hheap & Hact & _).
  assert (Hne : r <> r0) by congruence.
  unfold Backup.create_backup in Hrun.
  erewrite bind_returned in Hrun; [|exact Hstart].
  assert (Hu : untouched r0 wr w').
  { assert (Hguard :
              respects (untouched r0)
                (try_finally
                   (try_except (Backup.body job r env)
                               (on_exception r (Backup.t_end env) "Backup"))
                   (cleanup (id job)))).
    { apply guarded_untouched; [done|].
      apply body_respects; [apply _ | apply untouched_emit |].
      intros f. by apply untouched_update. }
    destruct (bind_inv _ _ _ _ _ Hrun) as [(w1 & [] & Htry & Hret)|(e & Htry & _)].
    - inversion Hret; subst. by eapply Hguard.
    - by eapply Hguard. }
  eapply (untouched_trans r0 w wr w'); [|exact Hu| |]; try done.
  by eapply registered_untouched.
Qed.

Lemma restore_backup_untouched backup_file target progress_callback env r0 :
  respects (untouched r0)
           (Restore.restore_backup backup_file target progress_callback env).
Proof.
  intros w w' o Hrun result Hr0 Hactive.
  destruct (restore_start_spec backup_file target progress_callback env w)
    as (wr & r & Hstart & Hfresh & Hheap & Hact & _).
  assert (Hne : r <> r0) by congruence.
  unfold Restore.restore_backup in Hrun.
  erewrite bind_returned in Hrun; [|exact Hstart].
  assert (Hu : untouched r0 wr w').
  { assert (Hguard :
              respects (untouched r0)
                (try_finally
                   (try_except
                      (Restore.body backup_file target
                                    (Restore.restore_id_of env) r env)
                      (on_exception r (Restore.t_end env) "Restore"))
                   (cleanup (Restore.restore_id_of env)))).
    { apply guarded_untouched; [done|].
      apply restore_body_respects; [apply _ | apply untouched_emit |].
      intros f. by apply untouched_update. }
    destruct (bind_inv _ _ _ _ _ Hrun) as [(w1 & [] & Htry & Hret)|(e & Htry & _)].
    - inversion Hret; subst. by eapply Hguard.
    - by eapply Hguard. }
  eapply (untouched_trans r0 w wr w'); [|exact Hu| |]; try done.
  by eapply registered_untouched.
Qed.

(** X22.  The results of finished operations are out of reach.  An object that
    is not registered as active (a result returned earlier, kept by a
    caller or in the history of the scheduler) is left exactly as it is
    by [create_backup] and by [restore_backup], whatever the run does
    and whatever other tasks cancel meanwhile; nor does it get
    registered again. *)
Theorem finished_results_are_out_of_reach (r0 : Ref) :
  (forall job progress_callback env (w w' : World BackupResult) o result,
      Backup.create_backup job progress_callback env w = (w', o) ->
      heap w !! r0 = Some result ->
      (forall op_id, active w !! op_id <> Some r0) ->
      heap w' !! r0 = Some result
      /\ (forall op_id, active w' !! op_id <> Some r0))
  /\ (forall backup_file target progress_callback env
             (w w' : World RestoreResult) o result,
         Restore.restore_backup backup_file target progress_callback env w
         = (w', o) ->
         heap w !! r0 = Some result ->
         (forall op_id, active w !! op_id <> Some r0) ->
         heap w' !! r0 = Some result
         /\ (forall op_id, active w' !! op_id <> Some r0)).
Proof.
  split.
  - intros job progress_callback env w w' o result Hrun.
    by eapply create_backup_untouched.
  - intros backup_file target progress_callback env w w' o result Hrun.
    by eapply restore_backup_untouched.
Qed.

Lemma finished_results_are_out_of_reach_witness :
  heap (Backup.create_backup (nightly 1 CompressionType.GZIP) (Some 7%nat)
                             smooth_backup day_after).1 !! 0%nat
  = Some yesterday
  /\ (forall op_id,
         active (Backup.create_backup (nightly 1 CompressionType.GZIP)
                   (Some 7%nat) smooth_backup day_after).1 !! op_id
         <> Some 0%nat).
Proof.
  apply (proj1 (finished_results_are_out_of_reach 0%nat)
               (nightly 1 CompressionType.GZIP) (Some 7%nat) smooth_backup
               day_after _
               (Backup.create_backup (nightly 1 CompressionType.GZIP)
                                     (Some 7%nat) smooth_backup day_after).2).
  - by destruct (Backup.create_backup _ _ _ _).
  - reflexivity.
  - intros op_id. change (active day_after) with (∅ : gmap string Ref).
    by rewrite lookup_empty.
Defined.

(** ** A restore that cannot be verified *)

(** The verification answers [False] when the probe of the restored
    database gives nothing or raises an [Exception], which it logs. *)
Lemma verify_restoration_unanswered info env (w : World RestoreResult) :
  outcome (Restore.get_database_info env) = Returned None
  \/ (exists msg,
        outcome (Restore.get_database_info env) = Raises (Exception msg)) ->
  exists w',
    Restore._verify_restoration info env w = (w', Returned false)
    /\ forall msg,
        outcome (Restore.get_database_info env) = Raises (Exception msg) ->
        (Level.ERROR, "Error verifying restoration: " +:+ msg)
          ∈ logs_of (trace w').
Proof.
  intros Hprobe.
  destruct (interleave_silent (R := RestoreResult)
              (during (Restore.get_database_info env)) w) as (w1 & Hi & _).
  unfold Restore._verify_restoration, try_except, await.
  destruct Hprobe as [Hnone|[msg Hraises]].
  - eexists. split.
    + erewrite bind_returned; cycle 1.
      { erewrite bind_returned; [|exact Hi]. unfold lift. by rewrite Hnone. }
      reflexivity.
    + intros msg Hmsg. congruence.
  - eexists. split.
    + erewrite bind_raises; cycle 1.
      { erewrite bind_returned; [|exact Hi]. unfold lift. by rewrite Hraises. }
      reflexivity.
    + intros msg' Hmsg. rewrite Hraises in Hmsg. inversion Hmsg; subst msg'.
      cbn [trace]. unfold logs_of. rewrite omap_app. cbn.
      apply elem_of_app. right. apply list_elem_of_here.
Qed.

(** X23.  [completed] does not mean verified.  A restore whose steps went
    through, into a database that then gives nothing to the probe of the
    final verification, or for which the probe raises an [Exception], is
    returned by [restore_backup] as [completed], without an error message
    and with [verification_passed] false; its completion is logged, and
    so is the exception of the probe, as an error. *)
Theorem unverified_restore_is_completed
        (backup_file : Pathlib.Path) (target : DatabaseConfig)
        (progress_callback : option Callback) (env : Restore.Env)
        (w wr w1 : World RestoreResult) (r : Ref) (info : Restore.BackupInfo) :
  Restore.start backup_file target progress_callback env w = (wr, Returned r) ->
  Restore.restore backup_file target (Restore.restore_id_of env) env wr
  = (w1, Returned info) ->
  outcome (Restore.get_database_info env) = Returned None
  \/ (exists msg,
        outcome (Restore.get_database_info env) = Raises (Exception msg)) ->
  exists w' result,
    Restore.restore_backup backup_file target progress_callback env w
    = (w', Returned r)
    /\ heap w' !! r = Some result
    /\ r_status result = BackupStatus.COMPLETED
    /\ verification_passed result = false
    /\ r_error_message result = None
    /\ (Level.INFO, "Restore completed: " +:+ database target)
         ∈ logs_of (trace w')
    /\ forall msg,
        outcome (Restore.get_database_info env) = Raises (Exception msg) ->
        (Level.ERROR, "Error verifying restoration: " +:+ msg)
          ∈ logs_of (trace w').
Proof.
  intros Hstart Hrestore Hprobe.
  destruct (restore_start_spec backup_file target progress_callback env w)
    as (wr' & r' & Hstart' & _ & Hheap & _).
  rewrite Hstart in Hstart'. inversion Hstart'; subst wr' r'; clear Hstart'.
  assert (Hr : heap wr !! r = Some _) by (rewrite Hheap; apply lookup_insert_eq).
  pose proof (respects_run (evolves same_restore) _ _ _ _
                (restore_respects _ _ _ _ _ restore_emit) Hrestore _ _ Hr)
    as (result1 & Hr1 & Hsame1).
  destruct (verify_restoration_unanswered info env w1 Hprobe)
    as (w2 & Hverify & Hlog).
  pose proof (respects_run (evolves same_restore) _ _ _ _
                (verify_restoration_respects _ info env) Hverify _ _ Hr1)
    as (result2 & Hr2 & Hsame2).
  do 2 eexists. split; [|split].
  - eapply (restore_backup_run _ _ _ _ _ _ _ r (Returned tt) Hstart).
    unfold try_except, Restore.body.
    erewrite bind_returned; [|exact Hrestore].
    erewrite bind_returned; [|exact Hverify].
    reflexivity.
  - cbn [cleanup heap]. rewrite lookup_alter_eq, Hr2. reflexivity.
  - unfold same_restore in Hsame1, Hsame2. cbn in Hsame1.
    destruct Hsame1 as (_ & _ & _ & _ & He1 & _).
    destruct Hsame2 as (_ & _ & _ & _ & He2 & _).
    cbn [Restore.finish r_status verification_passed r_error_message].
    split; [done|]. split; [done|]. split; [congruence|].
    cbn [cleanup trace]. unfold logs_of. rewrite omap_app. split.
    + apply elem_of_app. right. cbn. apply list_elem_of_here.
    + intros msg Hmsg. apply elem_of_app. left. by apply Hlog.
Qed.

Lemma unverified_restore_is_completed_witness :
  exists w' result,
    Restore.restore_backup "backup.dump" localhost (Some 7%nat)
                           unanswered_probe idle
    = (w', Returned 0%nat)
    /\ heap w' !! 0%nat = Some result
    /\ r_status result = BackupStatus.COMPLETED
    /\ verification_passed result = false
    /\ r_error_message result = None
    /\ (Level.INFO, "Restore completed: " +:+ database localhost)
         ∈ logs_of (trace w')
    /\ forall msg,
        outcome (Restore.get_database_info unanswered_probe)
        = Raises (Exception msg) ->
        (Level.ERROR, "Error verifying restoration: " +:+ msg)
          ∈ logs_of (trace w').
Proof.
  apply (unverified_restore_is_completed "backup.dump" localhost (Some 7%nat)
           unanswered_probe idle
           (Restore.start "backup.dump" localhost (Some 7%nat)
              unanswered_probe idle).1
           (Restore.restore "backup.dump" localhost
              (Restore.restore_id_of unanswered_probe) unanswered_probe
              (Restore.start "backup.dump" localhost (Some 7%nat)
                 unanswered_probe idle).1).1
           0%nat (Restore.mkInfo (Some "custom") (Some 2))).
  - vm_compute. reflexivity.
  - vm_compute. reflexivity.
  - right. by eexists.
Defined.

(** ** The configurations of a connection that are accepted *)

Lemma lstrip_blank s :
  ConnectionValidation.lstrip s = []
  <-> Forall (fun c => ConnectionValidation.isspace c = true) s.
Proof.
  induction s as [|c s IH]; cbn; [done|].
  destruct (ConnectionValidation.isspace c) eqn:Hc.
  - rewrite IH. split; [by constructor | by inversion 1].
  - split; [done|]. inversion 1; congruence.
Qed.

Lemma lstrip_fixed s :
  Forall (fun c => ConnectionValidation.isspace c = true)
         (ConnectionValidation.lstrip s) ->
  ConnectionValidation.lstrip s = [].
Proof.
  induction s as [|c s IH]; cbn; [done|].
  destruct (ConnectionValidation.isspace c) eqn:Hc; [done|].
  inversion 1; congruence.
Qed.

Lemma strip_blank s :
  ConnectionValidation.strip s = []
  <-> Forall (fun c => ConnectionValidation.isspace c = true) s.
Proof.
  unfold ConnectionValidation.strip. split.
  - intros Hnil. apply (f_equal (@rev ascii)) in Hnil.
    rewrite rev_involutive in Hnil. cbn in Hnil.
    apply lstrip_blank, Forall_rev in Hnil. rewrite rev_involutive in Hnil.
    by apply lstrip_blank, lstrip_fixed.
  - intros Hblank. apply lstrip_blank in Hblank. by rewrite Hblank.
Qed.

Lemma blank_or_text (l : list ascii) :
  Forall (fun c => ConnectionValidation.isspace c = true) l
  \/ exists c, c ∈ l /\ ConnectionValidation.isspace c = false.
Proof.
  induction l as [|c l [IH|(c' & Hin & Hc')]].
  - by left.
  - destruct (ConnectionValidation.isspace c) eqn:Hc.
    + left. by constructor.
    + right. exists c. split; [apply list_elem_of_here | done].
  - right. exists c'. split; [by apply list_elem_of_further | done].
Qed.

Lemma missing_has_text s :
  ConnectionValidation.missing s = false <-> has_text s.
Proof.
  unfold ConnectionValidation.missing, has_text. rewrite orb_false_iff. split.
  - intros [_ Hstrip].
    destruct (blank_or_text (list_ascii_of_string s)) as [Hblank|Htext];
      [|done].
    apply strip_blank in Hblank. by rewrite Hblank in Hstrip.
  - intros (c & Hin & Hc).
    assert (Hnot : ~ Forall (fun c => ConnectionValidation.isspace c = true)
                     (list_ascii_of_string s)).
    { rewrite Forall_forall. intros Hall.
      apply Hall in Hin. congruence. }
    split.
    + destruct (list_ascii_of_string s); [by destruct Hnot | done].
    + destruct (ConnectionValidation.strip (list_ascii_of_string s)) eqn:Hs;
        [|done].
      by apply strip_blank in Hs.
Qed.

Lemma letter_is_not_space c :
  Validation.is_letter_or_underscore c = true ->
  ConnectionValidation.isspace c = false.
Proof.
  destruct c as [[] [] [] [] [] [] [] []]; vm_compute; congruence.
Qed.

Lemma word_char_is_not_newline c :
  Validation.is_word_char c = true -> c <> "010"%char.
Proof. intros Hc ->. vm_compute in Hc. congruence. Qed.

Lemma identifier_without_newline l :
  Validation.is_identifier l = true -> "010"%char ∉ l.
Proof.
  destruct l as [|c l]; [done|]. cbn. intros [Hc Hl]%andb_true_iff.
  rewrite forallb_forall in Hl.
  intros [<-|Hin]%elem_of_cons.
  - vm_compute in Hc. congruence.
  - apply list_elem_of_In, Hl in Hin. by apply word_char_is_not_newline in Hin.
Qed.

Lemma drop_final_newline_spec l :
  Validation.is_identifier (Validation.drop_final_newline l) = true
  <-> exists id, Validation.is_identifier id = true
                 /\ (l = id \/ l = id ++ ["010"%char]).
Proof.
  unfold Validation.drop_final_newline. split.
  - destruct (rev l) as [|c r] eqn:Hrev; [by eauto|].
    destruct (Ascii.eqb_spec c "010") as [->|_]; [|by eauto].
    intros Hid. exists (rev r). split; [done|]. right.
    apply (f_equal (@rev ascii)) in Hrev. by rewrite rev_involutive in Hrev.
  - intros (id & Hid & [->| ->]).
    + destruct (rev id) as [|c r] eqn:Hrev; [done|].
      destruct (Ascii.eqb_spec c "010") as [->|_]; [|done].
      exfalso. apply (identifier_without_newline id Hid).
      apply list_elem_of_In, in_rev. rewrite Hrev. by left.
    + rewrite rev_app_distr. cbn. by rewrite rev_involutive.
Qed.

Lemma list_ascii_of_append (a b : string) :
  list_ascii_of_string (a +:+ b)
  = list_ascii_of_string a ++ list_ascii_of_string b.
Proof.
  induction a as [|c a IH]; [done|].
  change (String c a +:+ b) with (String c (a +:+ b)). cbn. by rewrite IH.
Qed.

Lemma match_schema_name_spec s :
  Validation.match_schema_name s = true
  <-> exists id, identifier id /\ (s = id \/ s = id +:+ newline).
Proof.
  unfold Validation.match_schema_name, identifier.
  rewrite drop_final_newline_spec. split.
  - intros (id & Hid & Hs). exists (string_of_list_ascii id).
    rewrite list_ascii_of_string_of_list_ascii. split; [done|].
    destruct Hs as [Hs|Hs]; [left|right];
      apply (f_equal string_of_list_ascii) in Hs;
      rewrite string_of_list_ascii_of_string in Hs; rewrite Hs; [done|].
    rewrite <- (string_of_list_ascii_of_string
                  (string_of_list_ascii id +:+ newline)).
    by rewrite list_ascii_of_append, list_ascii_of_string_of_list_ascii.
  - intros (id & Hid & Hs). exists (list_ascii_of_string id).
    split; [done|].
    destruct Hs as [->| ->]; [by left | right]. apply list_ascii_of_append.
Qed.

Lemma identifier_has_text id (s : string) :
  identifier id -> s = id \/ s = id +:+ newline -> has_text s.
Proof.
  unfold identifier, has_text. intros Hid Hs.
  destruct (list_ascii_of_string id) as [|c l] eqn:Hl; [done|].
  cbn in Hid. apply andb_true_iff in Hid as [Hc _].
  exists c. split; [|by apply letter_is_not_space].
  destruct Hs as [->| ->].
  - rewrite Hl. apply list_elem_of_here.
  - rewrite list_ascii_of_append, Hl. apply list_elem_of_here.
Qed.

(** A field that is required and has a longest length. *)
Lemma required_field (s : string) (n : nat) (absent long : string) :
  (if ConnectionValidation.missing s then [absent]
   else if Z.of_nat n <? ConnectionValidation.len s then [long] else []) = []
  <-> has_text s /\ (String.length s <= n)%nat.
Proof.
  rewrite <- missing_has_text. unfold ConnectionValidation.len.
  destruct (ConnectionValidation.missing s).
  - split; [done | by intros [? _]].
  - destruct (Z.ltb_spec (Z.of_nat n) (Z.of_nat (String.length s))).
    + split; [done | intros [_ ?]; lia].
    + split; [intros _; split; [done | lia] | done].
Qed.

Lemma range_field (lo x hi : Z) (message : string) :
  (if negb (Datetime.between lo x hi) then [message] else []) = []
  <-> lo <= x <= hi.
Proof.
  unfold Datetime.between.
  destruct (Z.leb_spec lo x), (Z.leb_spec x hi); cbn; split; try done; lia.
Qed.

Lemma member_elem_of x l : Restore.member x l = true <-> x ∈ l.
Proof.
  unfold Restore.member. rewrite existsb_exists. split.
  - intros (y & Hin & ->%String.eqb_eq). by apply list_elem_of_In.
  - intros Hin. exists x. split; [by apply list_elem_of_In|].
    apply String.eqb_refl.
Qed.

(** X24.  What [validate_database_config] accepts.  It reports no error exactly
    when the host and the user name are not blank and have at most 253
    and 63 characters, the port is between 1 and 65535, the password is
    not empty, the SSL mode is one of the six that it lists, the timeout
    is between 1 and 300, and the name of the database has at most 63
    characters and is an identifier: a letter or an underscore followed
    by letters, digits and underscores, or such an identifier followed by
    one newline, which [$] lets through. *)
Theorem accepted_database_config (config : DatabaseConfig) :
  ConnectionValidation.validate_database_config config = []
  <-> has_text (host config) /\ (String.length (host config) <= 253)%nat
      /\ 1 <= port config <= 65535
      /\ (exists id, identifier id
                     /\ (database config = id
                         \/ database config = id +:+ newline))
      /\ (String.length (database config) <= 63)%nat
      /\ has_text (username config)
      /\ (String.length (username config) <= 63)%nat
      /\ password config <> ""
      /\ ssl_mode config ∈ ConnectionValidation.valid_ssl_modes
      /\ 1 <= connection_timeout config <= 300.
Proof.
  unfold ConnectionValidation.validate_database_config.
  rewrite !app_nil.
  change 253 with (Z.of_nat 253). change 63 with (Z.of_nat 63).
  rewrite !required_field, !range_field.
  assert (Hname :
            (if ConnectionValidation.missing (database config)
             then ["Database name is required"]
             else if negb (Validation.match_schema_name (database config))
                  then ["Database name contains invalid characters"]
                  else if Z.of_nat 63 <? ConnectionValidation.len (database config)
                       then ["Database name is too long (max 63 characters)"]
                       else []) = []
            <-> (exists id, identifier id
                            /\ (database config = id
                                \/ database config = id +:+ newline))
                /\ (String.length (database config) <= 63)%nat).
  { destruct (Validation.match_schema_name (database config)) eqn:Hmatch.
    - apply match_schema_name_spec in Hmatch as Hid.
      destruct Hid as (id & Hid & Hs).
      pose proof (identifier_has_text id _ Hid Hs) as Htext.
      cbn [negb]. rewrite required_field. split; [|tauto].
      intros [_ Hlen]. split; [by exists id | done].
    - cbn [negb]. destruct (ConnectionValidation.missing (database config));
        (split; [done|]); intros [Hid _];
        apply match_schema_name_spec in Hid; congruence. }
  rewrite Hname.
  assert (Hpassword :
            (if Validation.is_nil (list_ascii_of_string (password config))
             then ["Database password is required"] else []) = []
            <-> password config <> "").
  { destruct (password config); cbn; split; done. }
  rewrite Hpassword.
  assert (Hssl :
            (if negb (Restore.member (ssl_mode config)
                        ConnectionValidation.valid_ssl_modes)
             then ["SSL mode must be one of: "
                     +:+ Str.join ", " ConnectionValidation.valid_ssl_modes]
             else []) = []
            <-> ssl_mode config ∈ ConnectionValidation.valid_ssl_modes).
  { rewrite <- member_elem_of.
    destruct (Restore.member (ssl_mode config)
                ConnectionValidation.valid_ssl_modes); cbn; split; done. }
  rewrite Hssl. tauto.
Qed.
